(** * sitemap.js: a shallow embedding of [lib/sitemap.js]

    The development follows the source file top to bottom: the [Sitemap]
    document (cache, [add], [del], [toString]), [buildSitemapIndex] and the
    [SitemapIndex] constructor with the write-stream callbacks it registers.

    JavaScript objects that the code aliases (url entries, image and link
    sub-records) live in a store indexed by locations; strings are
    [string]; numbers that the code uses as counters and timestamps are
    [nat] and [Z]. *)

From Stdlib Require Import ZArith Lia Ascii DecimalString DecimalNat DecimalFacts.
From stdpp Require Import strings gmap list.

(** ** JavaScript strings *)

(** Truthiness of a string: the empty string is the only falsy one. *)
Definition str_truthy (s : string) : bool :=
  match s with
  | EmptyString => false
  | String _ _ => true
  end.

(** Truthiness of an optional string ([undefined] or a string). *)
Definition opt_truthy (o : option string) : bool :=
  match o with
  | None => false
  | Some s => str_truthy s
  end.

(** String coercion in a concatenation: [undefined + '/'] starts with the
    text [undefined]. *)
Definition js_str (o : option string) : string :=
  match o with
  | None => "undefined"
  | Some s => s
  end.

(** Number to string of a non-negative integer, as in ['-' + id]. *)
Definition num_str (n : nat) : string :=
  NilZero.string_of_uint (Nat.to_uint n).

Definition ascii_lower (c : ascii) : ascii :=
  let n := nat_of_ascii c in
  if (65 <=? n)%nat && (n <=? 90)%nat then ascii_of_nat (n + 32) else c.

(** [imatch p s]: [s] starts with [p] up to ASCII case; the remainder. *)
Fixpoint imatch (p s : string) : option string :=
  match p, s with
  | EmptyString, _ => Some s
  | String a p', String b s' =>
      if Ascii.eqb (ascii_lower a) (ascii_lower b) then imatch p' s' else None
  | String _ _, EmptyString => None
  end.

(** [var reProto = /^https?:\/\//i;] and [reProto.test(s)]. *)
Definition reProto_test (s : string) : bool :=
  match imatch "http" s with
  | None => false
  | Some rest =>
      match imatch "s" rest with
      | Some rest' => String.prefix "://" rest' || String.prefix "://" rest
      | None => String.prefix "://" rest
      end
  end.

(** ** Collaborators outside [src/]

    [url-join] and [lodash/chunk] are required by the file but are not part
    of it. *)

Fixpoint lstrip_slash (s : string) : string :=
  match s with
  | String "/" s' => lstrip_slash s'
  | _ => s
  end.

Fixpoint rstrip_slash (s : string) : string :=
  match s with
  | EmptyString => EmptyString
  | String c s' =>
      match rstrip_slash s' with
      | EmptyString => if Ascii.eqb c "/" then EmptyString else String c EmptyString
      | r => String c r
      end
  end.

(** Modelled from the spec: [url-join] (required at line 10, absent from
    [src/]).  The spec: join hostname and path using URL-join semantics
    (exactly one separating slash, no double slashes, preserving any
    query/fragment).  So trailing slashes of the base and leading slashes of the path are
    dropped and the two are joined by one slash; the path is otherwise
    kept as it is. *)
Definition urljoin_spec (base path : string) : string :=
  rstrip_slash base +:+ "/" +:+ lstrip_slash path.

(** Modelled from the spec: [lodash/chunk] (required at line 14, absent
    from [src/]).  The spec: split allUrls into contiguous chunks of size
    partitionSize (last chunk may be smaller); chunk order matches input
    order; empty input yields zero chunks.  The loop cuts [size] elements
    off the front until nothing is left; it runs at most [length array]
    times.  A size below one gives no chunks. *)
Fixpoint chunk_loop {A} (fuel size : nat) (array : list A) : list (list A) :=
  match fuel, array with
  | S fuel', _ :: _ => take size array :: chunk_loop fuel' size (drop size array)
  | _, _ => []
  end.

Definition chunk {A} (array : list A) (size : nat) : list (list A) :=
  if (size <? 1)%nat then [] else chunk_loop (length array) size array.

(** ** The store: objects the caller and the sitemap share *)

Definition loc := positive.

(** An image or link object: [{url, ...}]; the other properties are kept
    by name. *)
Record subrec := {
  sub_url : string;
  sub_attrs : list (string * string)
}.

(** The [img] property of an entry: a string, one object or an array of
    objects. *)
Inductive img_val :=
| ImgStr (s : string)
| ImgObj (l : loc)
| ImgArr (ls : list loc).

(** An entry object; [img] and [links] are [None] when the property is
    absent; [meta] holds the properties [toString] does not look at. *)
Record item := {
  url : string;
  img : option img_val;
  links : option (list loc);
  meta : list (string * string)
}.

(** An element of the [urls] array: a string or (a reference to) an
    object. *)
Inductive elem :=
| ElemStr (s : string)
| ElemObj (l : loc).

Record store := {
  items : gmap loc item;
  subs : gmap loc subrec
}.

Definition set_subs (σ : store) (m : gmap loc subrec) : store :=
  {| items := items σ; subs := m |}.

Definition set_url (it : item) (u : string) : item :=
  {| url := u; img := img it; links := links it; meta := meta it |}.

Definition set_img (it : item) (v : img_val) : item :=
  {| url := url it; img := Some v; links := links it; meta := meta it |}.

Definition set_sub_url (s : subrec) (u : string) : subrec :=
  {| sub_url := u; sub_attrs := sub_attrs s |}.

(** ** Exceptions and the state-and-error monad *)

Inductive js_error :=
| TypeError (msg : string)
| UndefinedTargetFolder
| FsError (code : string)
| RangeError (msg : string).

Inductive outcome (A : Type) :=
| Ret (a : A)
| Throw (e : js_error).
Arguments Ret {A} a.
Arguments Throw {A} e.

Definition M (A : Type) : Type := store → outcome A * store.

Definition ret {A} (a : A) : M A := λ σ, (Ret a, σ).
Definition throw {A} (e : js_error) : M A := λ σ, (Throw e, σ).
Definition bind {A B} (m : M A) (k : A → M B) : M B :=
  λ σ, match m σ with
       | (Ret a, σ') => k a σ'
       | (Throw e, σ') => (Throw e, σ')
       end.

Notation "'let*' x ':=' m 'in' k" := (bind m (λ x, k))
  (at level 10, x pattern, m at level 100, k at level 200).

(** [array.forEach(f)] for a callback with effects. *)
Fixpoint forEach {A} (f : A → M unit) (array : list A) : M unit :=
  match array with
  | [] => ret tt
  | x :: rest => let* _ := f x in forEach f rest
  end.

(** Reading a property of the object at [l]; a location without an object
    stands for [undefined] and the read throws. *)
Definition get_item (l : loc) : M item :=
  λ σ, match items σ !! l with
       | Some it => (Ret it, σ)
       | None => (Throw (TypeError "Cannot read properties of undefined"), σ)
       end.

Definition get_sub (l : loc) : M subrec :=
  λ σ, match subs σ !! l with
       | Some s => (Ret s, σ)
       | None => (Throw (TypeError "Cannot read properties of undefined"), σ)
       end.

(** [obj.url = u] on the object at [l]. *)
Definition put_sub_url (l : loc) (u : string) : M unit :=
  λ σ, match subs σ !! l with
       | Some s => (Ret tt, set_subs σ (<[l := set_sub_url s u]> (subs σ)))
       | None => (Throw (TypeError "Cannot set properties of undefined"), σ)
       end.

(** An object literal [{url: u}]: a new object at an unused location. *)
Definition new_sub (u : string) : M loc :=
  λ σ, let l := fresh (dom (subs σ)) in
       (Ret l, set_subs σ (<[l := {| sub_url := u; sub_attrs := [] |}]> (subs σ))).

(** [obj.length === undefined] for an image object. *)
Definition length_undefined (s : subrec) : bool :=
  match list_find (λ kv, kv.1 = "length") (sub_attrs s) with
  | None => true
  | Some _ => false
  end.

(** ** Collaborators of the [Sitemap] document

    [xmlbuilder] (the document builder behind [this.root]), [url-join],
    [zlib] and [lib/sitemap-item.js] are used through the operations the
    file calls on them. *)

Class Collaborators := {
  (** [urljoin(a, b)] *)
  urljoin : string → string → string;
  (** an [xmlbuilder] element *)
  builder : Type;
  (** [builder.create(name, {encoding: 'UTF-8'})] *)
  create : string → builder;
  (** [root.attributes.length], [root.attributes = []] *)
  attributes_length : builder → nat;
  attributes_clear : builder → builder;
  (** [root.children.length], [root.children = []] *)
  children_length : builder → nat;
  children_clear : builder → builder;
  (** [root.att(k, v)] and its long name [root.attribute(k, v)] *)
  att : builder → string → string → builder;
  (** [root.instructionBefore(target, value)] *)
  instructionBefore : builder → string → string → builder;
  (** [root.end()] *)
  end_ : builder → string;
  (** [new SitemapItem(smi).buildXML()], which adds the [url] element of
      [smi] to [smi.root] or throws *)
  buildXML : item → gmap loc subrec → builder → outcome builder;
  (** [zlib.gzipSync(s)] *)
  gzipSync : string → string;
  (** [new Date().toISOString()] *)
  now_ISO : string;
  (** [new Date(d).toISOString()]: [None] when [d] is not a date, in
      which case [toISOString] throws a [RangeError] *)
  date_ISO : string → option string
}.

(** The double quote character. *)
Definition dquote : ascii := ascii_of_nat 34.

Definition is_quote (a : ascii) : bool :=
  Ascii.eqb a "'" || Ascii.eqb a dquote.

(** [s.split(c)] for a one-character separator. *)
Fixpoint split_on (c : ascii) (s : string) : list string :=
  match s with
  | EmptyString => [EmptyString]
  | String a s' =>
      if Ascii.eqb a c then EmptyString :: split_on c s'
      else match split_on c s' with
           | w :: ws => String a w :: ws
           | [] => [String a EmptyString]
           end
  end.

Fixpoint drop_last_quote (s : string) : string :=
  match s with
  | EmptyString => EmptyString
  | String a EmptyString => if is_quote a then EmptyString else s
  | String a s' => String a (drop_last_quote s')
  end.

(** [v.replace(re, '')] where [re] matches one quote character at the
    start and one at the end of the string. *)
Definition strip_quotes (v : string) : string :=
  match v with
  | EmptyString => EmptyString
  | String a r => if is_quote a then drop_last_quote r else drop_last_quote v
  end.

(** The [urls] argument of the constructors: absent, one entry, or an
    array. *)
Inductive urls_arg :=
| UrlsUndefined
| UrlsOne (e : elem)
| UrlsArray (l : list elem).

Definition urls_truthy (u : urls_arg) : bool :=
  match u with
  | UrlsUndefined => false
  | UrlsOne (ElemStr s) => str_truthy s
  | UrlsOne (ElemObj _) => true
  | UrlsArray _ => true
  end.

Section sitemap.
Context `{Collaborators}.

Record Sitemap := {
  limit : Z;
  hostname : option string;
  urls : list elem;
  cacheResetPeriod : Z;
  cache : string;
  cacheSetTimestamp : option Z;
  xslUrl : option string;
  xmlNs : option string;
  root : builder
}.

Definition set_urls (sm : Sitemap) (us : list elem) : Sitemap :=
  {| limit := limit sm; hostname := hostname sm; urls := us;
     cacheResetPeriod := cacheResetPeriod sm; cache := cache sm;
     cacheSetTimestamp := cacheSetTimestamp sm; xslUrl := xslUrl sm;
     xmlNs := xmlNs sm; root := root sm |}.

Definition set_cache (sm : Sitemap) (c : string) (t : option Z) : Sitemap :=
  {| limit := limit sm; hostname := hostname sm; urls := urls sm;
     cacheResetPeriod := cacheResetPeriod sm; cache := c;
     cacheSetTimestamp := t; xslUrl := xslUrl sm;
     xmlNs := xmlNs sm; root := root sm |}.

Definition set_root (sm : Sitemap) (r : builder) : Sitemap :=
  {| limit := limit sm; hostname := hostname sm; urls := urls sm;
     cacheResetPeriod := cacheResetPeriod sm; cache := cache sm;
     cacheSetTimestamp := cacheSetTimestamp sm; xslUrl := xslUrl sm;
     xmlNs := xmlNs sm; root := r |}.

(** The loop over [this.xmlNs.split(' ')] in the constructor. *)
Fixpoint xmlNs_attributes (ns : list string) (r : builder) : outcome builder :=
  match ns with
  | [] => Ret r
  | attr :: rest =>
      match split_on "=" attr with
      | k :: v :: _ => xmlNs_attributes rest (att r k (strip_quotes v))
      | _ => Throw (TypeError "Cannot read properties of undefined (reading 'replace')")
      end
  end.

(** [function Sitemap(urls, hostname, cacheTime, xslUrl, xmlNs)] *)
Definition new_Sitemap (urls : urls_arg) (hostname : option string)
    (cacheTime : option Z) (xslUrl xmlNs : option string) : outcome Sitemap :=
  let us :=
    if urls_truthy urls then
      match urls with
      | UrlsArray l => l
      | UrlsOne e => [e]
      | UrlsUndefined => []
      end
    else [] in
  let period :=
    match cacheTime with
    | Some t => t
    | None => 0%Z
    end in
  let r := create "urlset" in
  let mk r := {| limit := 50000%Z; hostname := hostname; urls := us;
                 cacheResetPeriod := period; cache := EmptyString;
                 cacheSetTimestamp := None; xslUrl := xslUrl;
                 xmlNs := xmlNs; root := r |} in
  if opt_truthy xmlNs then
    match xmlNs_attributes (split_on " " (js_str xmlNs)) r with
    | Ret r' => Ret (mk r')
    | Throw e => Throw e
    end
  else Ret (mk r).

Record SitemapConf := {
  conf_urls : urls_arg;
  conf_hostname : option string;
  conf_cacheTime : option Z;
  conf_xslUrl : option string;
  conf_xmlNs : option string
}.

(** [function createSitemap(conf)] *)
Definition createSitemap (conf : SitemapConf) : outcome Sitemap :=
  new_Sitemap (conf_urls conf) (conf_hostname conf) (conf_cacheTime conf)
    (conf_xslUrl conf) (conf_xmlNs conf).

(** [Sitemap.prototype.clearCache] *)
Definition clearCache (sm : Sitemap) : Sitemap :=
  set_cache sm EmptyString (cacheSetTimestamp sm).

(** [Sitemap.prototype.isCacheValid]; [currTimestamp] is what
    [Date.now()] returns.  The result is the truthiness of the [&&]
    chain. *)
Definition isCacheValid (sm : Sitemap) (currTimestamp : Z) : bool :=
  negb (cacheResetPeriod sm =? 0)%Z && str_truthy (cache sm) &&
  match cacheSetTimestamp sm with
  | Some t => (currTimestamp <=? t + cacheResetPeriod sm)%Z
  | None => false
  end.

(** [Sitemap.prototype.setCache]; [now] is what [Date.now()] returns. *)
Definition setCache (sm : Sitemap) (newCache : string) (now : Z) : string * Sitemap :=
  (newCache, set_cache sm newCache (Some now)).

(** [Sitemap.prototype.add] *)
Definition add (sm : Sitemap) (url : elem) : nat * Sitemap :=
  (length (urls sm ++ [url]), set_urls sm (urls sm ++ [url])).

(** [array.splice(index, 1)] *)
Definition splice1 {A} (index : nat) (array : list A) : list A :=
  take index array ++ drop (S index) array.

(** The test in the first loop of [del]. *)
Definition del_matches (key : string) (e : elem) : M bool :=
  match e with
  | ElemStr s => ret (String.eqb s key)
  | ElemObj l => let* it := get_item l in ret (String.eqb (url it) key)
  end.

(** The first loop of [del]: the indices of the entries to remove. *)
Fixpoint del_find (key : string) (array : list elem) (index : nat)
    (index_to_remove : list nat) : M (list nat) :=
  match array with
  | [] => ret index_to_remove
  | e :: rest =>
      let* hit := del_matches key e in
      del_find key rest (S index)
        (if hit : bool then index_to_remove ++ [index] else index_to_remove)
  end.

(** [Sitemap.prototype.del] *)
Definition del (sm : Sitemap) (u : elem) : M (nat * Sitemap) :=
  let* key :=
    match u with
    | ElemStr s => ret s
    | ElemObj l => let* it := get_item l in ret (url it)
    end in
  let* index_to_remove := del_find key (urls sm) 0 [] in
  ret (length index_to_remove,
       set_urls sm (foldl (λ us index, splice1 index us) (urls sm) index_to_remove)).

End sitemap.

(** ** [Sitemap.prototype.toString] *)

(** A string between double quotes. *)
Definition quoted (s : string) : string :=
  String dquote (s +:+ String dquote EmptyString).

(** Truthiness of the [img] property when it is present. *)
Definition img_truthy (v : img_val) : bool :=
  match v with
  | ImgStr s => str_truthy s
  | ImgObj _ => true
  | ImgArr _ => true
  end.

Section render.
Context `{Collaborators}.

(** The callback of both inner loops:
    [if (!reProto.test(x.url)) x.url = urljoin(self.hostname, x.url)]. *)
Definition join_sub (h : string) (l : loc) : M unit :=
  let* x := get_sub l in
  if reProto_test (sub_url x) then ret tt
  else put_sub_url l (urljoin h (sub_url x)).

(** [if (smi.img) { ... }] for a present [img] property. *)
Definition join_img (h : string) (smi : item) (v : img_val) : M item :=
  if img_truthy v then
    (* string -> array of objects *)
    let* v1 :=
      match v with
      | ImgStr s => let* l := new_sub s in ret (ImgArr [l])
      | _ => ret v
      end in
    (* object -> array of objects *)
    let* v2 :=
      match v1 with
      | ImgObj l =>
          let* o := get_sub l in
          if length_undefined o then ret (ImgArr [l]) else ret v1
      | _ => ret v1
      end in
    (* prepend hostname to all image urls *)
    match v2 with
    | ImgArr ls => let* _ := forEach (join_sub h) ls in ret (set_img smi v2)
    | _ => throw (TypeError "smi.img.forEach is not a function")
    end
  else ret smi.

(** The body of the loop over [self.urls], up to the construction of the
    [SitemapItem]: the object [smi] handed to it. *)
Definition make_smi (hostname : option string) (e : elem) : M item :=
  (* create object with url property *)
  let* smi :=
    match e with
    | ElemStr s => ret {| url := s; img := None; links := None; meta := [] |}
    | ElemObj l => get_item l
    end in
  (* insert domain name *)
  if opt_truthy hostname then
    let h := js_str hostname in
    let smi := if reProto_test (url smi) then smi
               else set_url smi (urljoin h (url smi)) in
    let* smi :=
      match img smi with
      | Some v => join_img h smi v
      | None => ret smi
      end in
    match links smi with
    | Some ls => let* _ := forEach (join_sub h) ls in ret smi
    | None => ret smi
    end
  else ret smi.

(** The loop over [self.urls]. *)
Fixpoint toString_urls (hostname : option string) (array : list elem)
    (r : builder) : M builder :=
  match array with
  | [] => ret r
  | e :: rest =>
      let* smi := make_smi hostname e in
      let* r' := (λ σ, (buildXML smi (subs σ) r, σ)) in
      toString_urls hostname rest r'
  end.

(** The part of [toString] before the cache test: the root is reset and
    its namespaces and stylesheet instruction are declared. *)
Definition toString_root (sm : Sitemap) : builder :=
  let r := root sm in
  let r := if (0 <? attributes_length r)%nat then attributes_clear r else r in
  let r := if (0 <? children_length r)%nat then children_clear r else r in
  let r :=
    if negb (opt_truthy (xmlNs sm)) then
      let r := att r "xmlns" "http://www.sitemaps.org/schemas/sitemap/0.9" in
      let r := att r "xmlns:news" "http://www.google.com/schemas/sitemap-news/0.9" in
      let r := att r "xmlns:xhtml" "http://www.w3.org/1999/xhtml" in
      let r := att r "xmlns:mobile" "http://www.google.com/schemas/sitemap-mobile/1.0" in
      let r := att r "xmlns:image" "http://www.google.com/schemas/sitemap-image/1.1" in
      att r "xmlns:video" "http://www.google.com/schemas/sitemap-video/1.1"
    else r in
  if opt_truthy (xslUrl sm) then
    instructionBefore r "xml-stylesheet"
      ("type=" +:+ quoted "text/xsl" +:+ " href=" +:+ quoted (js_str (xslUrl sm)))
  else r.

(** [Sitemap.prototype.toString].  [Date.now()] is read once in
    [isCacheValid] ([t_valid]) and once in [setCache] ([t_set]). *)
Definition toString (sm : Sitemap) (t_valid t_set : Z) : M (string * Sitemap) :=
  let r := toString_root sm in
  let sm := set_root sm r in
  if isCacheValid sm t_valid then ret (cache sm, sm)
  else
    let* r' := toString_urls (hostname sm) (urls sm) r in
    ret (setCache (set_root sm r') (end_ r') t_set).

(** [Sitemap.prototype.toGzip] without a callback. *)
Definition toGzip (sm : Sitemap) (t_valid t_set : Z) : M (string * Sitemap) :=
  let* res := toString sm t_valid t_set in
  ret (gzipSync res.1, res.2).

End render.

(** ** [buildSitemapIndex] *)

Definition newline : string := String (ascii_of_nat 10) EmptyString.

(** [xml.join(sep)] *)
Fixpoint join (sep : string) (xml : list string) : string :=
  match xml with
  | [] => EmptyString
  | [x] => x
  | x :: rest => x +:+ sep +:+ join sep rest
  end.

Record IndexConf := {
  ic_urls : list string;
  ic_xslUrl : option string;
  ic_xmlNs : option string;
  ic_lastmodISO : option string;
  ic_lastmodrealtime : bool;
  ic_lastmod : option string
}.

Section index_builder.
Context `{Collaborators}.

(** The three ways of giving the last modification date; the first one
    present wins, and a [conf.lastmod] that is not a date makes
    [toISOString] throw. *)
Definition resolve_lastmod (conf : IndexConf) : outcome (option string) :=
  if opt_truthy (ic_lastmodISO conf) then Ret (ic_lastmodISO conf)
  else if ic_lastmodrealtime conf then Ret (Some now_ISO)
  else if opt_truthy (ic_lastmod conf) then
    match date_ISO (js_str (ic_lastmod conf)) with
    | Some d => Ret (Some d)
    | None => Throw (RangeError "Invalid time value")
    end
  else Ret None.

(** The lines pushed for one url. *)
Definition sitemap_block (lastmod : option string) (url : string) : list string :=
  ["<sitemap>"; "<loc>" +:+ url +:+ "</loc>"] ++
  (if opt_truthy lastmod then ["<lastmod>" +:+ js_str lastmod +:+ "</lastmod>"] else []) ++
  ["</sitemap>"].

(** The array [xml] at the end of [buildSitemapIndex], when the last
    modification date was found to be [lastmod]. *)
Definition buildSitemapIndex_lines (conf : IndexConf) (lastmod : option string) :
    list string :=
  ["<?xml version=" +:+ quoted "1.0" +:+ " encoding=" +:+ quoted "UTF-8" +:+ "?>"] ++
  (if opt_truthy (ic_xslUrl conf) then
     ["<?xml-stylesheet type=" +:+ quoted "text/xsl" +:+ " href=" +:+
        quoted (js_str (ic_xslUrl conf)) +:+ "?>"]
   else []) ++
  (if negb (opt_truthy (ic_xmlNs conf)) then
     ["<sitemapindex xmlns=" +:+ quoted "http://www.sitemaps.org/schemas/sitemap/0.9" +:+
        " xmlns:mobile=" +:+ quoted "http://www.google.com/schemas/sitemap-mobile/1.0" +:+
        " xmlns:image=" +:+ quoted "http://www.google.com/schemas/sitemap-image/1.1" +:+
        " xmlns:video=" +:+ quoted "http://www.google.com/schemas/sitemap-video/1.1" +:+ ">"]
   else ["<sitemapindex " +:+ js_str (ic_xmlNs conf) +:+ ">"]) ++
  concat (map (sitemap_block lastmod) (ic_urls conf)) ++
  ["</sitemapindex>"].

(** [function buildSitemapIndex(conf)] *)
Definition buildSitemapIndex (conf : IndexConf) : outcome string :=
  match resolve_lastmod conf with
  | Throw e => Throw e
  | Ret lastmod => Ret (join newline (buildSitemapIndex_lines conf lastmod))
  end.

End index_builder.

(** ** The [SitemapIndex] constructor *)

(** What the identifier [err] denotes where it is used: the errors module
    of line 9, or the caught exception inside [catch (err)]. *)
Inductive err_binding :=
| ErrModule
| ErrCaught (e : js_error).

(** [new err.UndefinedTargetFolder()].  An exception object has no
    property of that name. *)
Definition new_err_UndefinedTargetFolder (err : err_binding) : js_error :=
  match err with
  | ErrModule => UndefinedTargetFolder
  | ErrCaught _ => TypeError "err.UndefinedTargetFolder is not a constructor"
  end.

(** The file system as [statSync] sees it: a path is absent ([None]) or
    is a directory or not. *)
Definition filesystem := string → option bool.

(** [fs.statSync(path).isDirectory()] *)
Definition statSync_isDirectory (fs : filesystem) (path : string) : outcome bool :=
  match fs path with
  | Some d => Ret d
  | None => Throw (FsError "ENOENT")
  end.

(** The [try]/[catch] of lines 358 to 364. *)
Definition check_targetFolder (fs : filesystem) (targetFolder : string) : outcome unit :=
  let tried :=
    match statSync_isDirectory fs targetFolder with
    | Ret d => if negb d then Throw (new_err_UndefinedTargetFolder ErrModule) else Ret tt
    | Throw e => Throw e
    end in
  match tried with
  | Ret _ => Ret tt
  | Throw caught => Throw (new_err_UndefinedTargetFolder (ErrCaught caught))
  end.

Section sitemap_index.
Context `{Collaborators}.

(** The listener a stream gets with [stream.once('open', ...)]: the one
    of a chunk file closes over its [sitemap], the one of the index file
    over [xmlString]. *)
Inductive listener :=
| OpenChunk (sitemap : Sitemap)
| OpenIndex (xmlString : string).

(** A stream made by [fs.createWriteStream(path)] with its listener. *)
Record write_stream := {
  ws_path : string;
  ws_open : listener
}.

Record SitemapIndexObj := {
  si_hostname : option string;
  si_sitemapName : string;
  si_sitemapSize : nat;
  si_xslUrl : option string;
  si_sitemapId : nat;
  si_sitemaps : list string;
  si_targetFolder : string;
  si_urls : list elem;
  si_chunks : list (list elem);
  (** [typeof self.callback === 'function'] *)
  si_callback : bool
}.

(** The state the listeners work on: the object, the variable
    [processesCount] they close over, the streams still waiting for
    their [open] event, and what was observed so far: the data handed
    to [stream.write] for each path, the streams whose listener did not
    run to its end, and the calls of [self.callback] with their
    arguments. *)
Record loop_state := {
  self : SitemapIndexObj;
  processesCount : Z;
  listeners : list write_stream;
  written : list (string * string);
  failed : list string;
  calls : list (option js_error * bool);
  heap : store
}.

(** The loop over [self.chunks]: the next [sitemapId], the file names
    pushed to [self.sitemaps] and the streams created. *)
Fixpoint SitemapIndex_chunks (targetFolder : string) (hostname : option string)
    (sitemapName : string) (xslUrl : option string) (gzip : bool)
    (chunks : list (list elem)) (sitemapId : nat) (sitemaps : list string)
    (streams : list write_stream) : outcome (nat * list string * list write_stream) :=
  match chunks with
  | [] => Ret (sitemapId, sitemaps, streams)
  | chunk :: rest =>
      let extension := ".xml" +:+ (if gzip then ".gz" else EmptyString) in
      let filename := sitemapName +:+ "-" +:+ num_str sitemapId +:+ extension in
      let sitemaps := (sitemaps ++ [filename])%list in
      match createSitemap {| conf_urls := UrlsArray chunk; conf_hostname := hostname;
                             conf_cacheTime := None; conf_xslUrl := xslUrl;
                             conf_xmlNs := None |} with
      | Throw e => Throw e
      | Ret sitemap =>
          let stream := {| ws_path := targetFolder +:+ "/" +:+ filename;
                           ws_open := OpenChunk sitemap |} in
          SitemapIndex_chunks targetFolder hostname sitemapName xslUrl gzip rest
            (S sitemapId) sitemaps (streams ++ [stream])%list
      end
  end.

(** [function SitemapIndex(urls, targetFolder, hostname, cacheTime,
    sitemapName, sitemapSize, xslUrl, gzip, callback)], run on the file
    system [fs] and the store [σ]: the exception it throws, or the state
    it leaves to the event loop. *)
Definition SitemapIndex (fs : filesystem) (urls : urls_arg) (targetFolder : string)
    (hostname : option string) (cacheTime : option Z) (sitemapName : option string)
    (sitemapSize : nat) (xslUrl : option string) (gzip : bool) (callback : bool)
    (σ : store) : outcome loop_state :=
  let sitemapName :=
    match sitemapName with
    | None => "sitemap"
    | Some n => n
    end in
  match check_targetFolder fs targetFolder with
  | Throw e => Throw e
  | Ret _ =>
      (* URL list for sitemap *)
      let urls :=
        if urls_truthy urls then
          match urls with
          | UrlsArray l => l
          | UrlsOne e => [e]
          | UrlsUndefined => []
          end
        else [] in
      let chunks := chunk urls sitemapSize in
      let processesCount := (Z.of_nat (length chunks) + 1)%Z in
      match SitemapIndex_chunks targetFolder hostname sitemapName xslUrl gzip
              chunks 0 [] [] with
      | Throw e => Throw e
      | Ret (sitemapId, sitemaps, streams) =>
          let sitemapUrls := map (λ sitemap, js_str hostname +:+ "/" +:+ sitemap) sitemaps in
          let smConf := {| ic_urls := sitemapUrls; ic_xslUrl := xslUrl; ic_xmlNs := None;
                           ic_lastmodISO := None; ic_lastmodrealtime := false;
                           ic_lastmod := None |} in
          match buildSitemapIndex smConf with
          | Throw e => Throw e
          | Ret xmlString =>
              let stream :=
                {| ws_path := targetFolder +:+ "/" +:+ sitemapName +:+ "-index.xml";
                   ws_open := OpenIndex xmlString |} in
              Ret {| self := {| si_hostname := hostname; si_sitemapName := sitemapName;
                                si_sitemapSize := sitemapSize; si_xslUrl := xslUrl;
                                si_sitemapId := sitemapId; si_sitemaps := sitemaps;
                                si_targetFolder := targetFolder; si_urls := urls;
                                si_chunks := chunks; si_callback := callback |};
                     processesCount := processesCount;
                     listeners := (streams ++ [stream])%list;
                     written := []; failed := []; calls := []; heap := σ |}
          end
      end
  end.

(** The end of both listeners, after [stream.write(data); stream.end()]:
    [processesCount--] and the test that calls [self.callback(null, true)]. *)
Definition finish_write (st : loop_state) (path data : string) (σ : store) : loop_state :=
  let count := (processesCount st - 1)%Z in
  {| self := self st;
     processesCount := count;
     listeners := listeners st;
     written := (written st ++ [(path, data)])%list;
     failed := failed st;
     calls := if (count =? 0)%Z && si_callback (self st)
              then (calls st ++ [(None, true)])%list else calls st;
     heap := σ |}.

(** A stream leaves the state without a call of [stream.write]: its
    file could not be opened, or its listener threw before the
    decrement. *)
Definition fail_write (st : loop_state) (path : string) (σ : store) : loop_state :=
  {| self := self st; processesCount := processesCount st;
     listeners := listeners st; written := written st;
     failed := (failed st ++ [path])%list; calls := calls st; heap := σ |}.

Definition set_listeners (st : loop_state) (ls : list write_stream) : loop_state :=
  {| self := self st; processesCount := processesCount st;
     listeners := ls; written := written st;
     failed := failed st; calls := calls st; heap := heap st |}.

(** [gzip ? sitemap.toGzip() : sitemap.toString()] *)
Definition chunk_data (gzip : bool) (sitemap : Sitemap) (t_valid t_set : Z) :
    M (string * Sitemap) :=
  if gzip then toGzip sitemap t_valid t_set else toString sitemap t_valid t_set.

(** The listener of [stream] runs; [gzip] is the constructor's argument
    and [t_valid], [t_set] are the clock readings of [toString]. *)
Definition run_open (gzip : bool) (t_valid t_set : Z) (stream : write_stream)
    (st : loop_state) : loop_state :=
  match ws_open stream with
  | OpenIndex xmlString => finish_write st (ws_path stream) xmlString (heap st)
  | OpenChunk sitemap =>
      match (if gzip then toGzip sitemap t_valid t_set
             else toString sitemap t_valid t_set) (heap st) with
      | (Ret (data, _), σ) => finish_write st (ws_path stream) data σ
      | (Throw _, σ) => fail_write st (ws_path stream) σ
      end
  end.

(** One turn of the event loop: some waiting stream is opened and its
    listener, registered with [once], runs and is gone; or the stream
    reports an error instead. The streams open in any order. *)
Inductive step (gzip : bool) : loop_state → loop_state → Prop :=
| step_open st k stream t_valid t_set :
    listeners st !! k = Some stream →
    step gzip st (run_open gzip t_valid t_set stream
                    (set_listeners st (delete k (listeners st))))
| step_error st k stream :
    listeners st !! k = Some stream →
    step gzip st (fail_write (set_listeners st (delete k (listeners st)))
                    (ws_path stream) (heap st)).

(** Any number of turns. *)
Inductive steps (gzip : bool) : loop_state → loop_state → Prop :=
| steps_refl st : steps gzip st st
| steps_step st1 st2 st3 :
    steps gzip st1 st2 → step gzip st2 st3 → steps gzip st1 st3.

(** [stream.write(data); stream.end()] hands the data to the stream and
    returns; the write to the file is done by the stream afterwards, in
    a turn of its own. The constructor listens to no [finish] and no
    [error] event, so the listeners never learn of it. [io_done] holds
    the writes that have reached their file. *)
Record io_state := {
  io_loop : loop_state;
  io_done : list (string * string)
}.

Inductive io_step (gzip : bool) : io_state → io_state → Prop :=
| io_listener s st' :
    step gzip (io_loop s) st' →
    io_step gzip s {| io_loop := st'; io_done := io_done s |}
| io_complete s w :
    w ∈ written (io_loop s) → w ∉ io_done s →
    io_step gzip s {| io_loop := io_loop s; io_done := (io_done s ++ [w])%list |}.

Inductive io_steps (gzip : bool) : io_state → io_state → Prop :=
| io_steps_refl s : io_steps gzip s s
| io_steps_step s1 s2 s3 :
    io_steps gzip s1 s2 → io_step gzip s2 s3 → io_steps gzip s1 s3.

End sitemap_index.

(** ** An instance to run the code on

    A small document builder that keeps what it is given and prints it in
    order; [urljoin] is the join described above. *)

Record demo_builder := {
  db_name : string;
  db_attributes : list (string * string);
  db_children : list string;
  db_before : list string
}.

Definition concat_str (l : list string) : string :=
  foldr String.append EmptyString l.

Definition demo_end (r : demo_builder) : string :=
  concat_str (db_before r) +:+ "<" +:+ db_name r +:+
  concat_str (map (λ kv, " " +:+ kv.1 +:+ "=" +:+ quoted kv.2) (db_attributes r)) +:+ ">" +:+
  concat_str (db_children r) +:+ "</" +:+ db_name r +:+ ">".

#[local] Instance demo : Collaborators := {|
  urljoin := urljoin_spec;
  builder := demo_builder;
  create name := {| db_name := name; db_attributes := []; db_children := [];
                    db_before := [] |};
  attributes_length r := length (db_attributes r);
  attributes_clear r := {| db_name := db_name r; db_attributes := [];
                           db_children := db_children r; db_before := db_before r |};
  children_length r := length (db_children r);
  children_clear r := {| db_name := db_name r; db_attributes := db_attributes r;
                         db_children := []; db_before := db_before r |};
  att r k v := {| db_name := db_name r; db_attributes := db_attributes r ++ [(k, v)];
                  db_children := db_children r; db_before := db_before r |};
  instructionBefore r target value :=
    {| db_name := db_name r; db_attributes := db_attributes r;
       db_children := db_children r;
       db_before := db_before r ++ ["<?" +:+ target +:+ " " +:+ value +:+ "?>"] |};
  end_ := demo_end;
  buildXML smi _ r :=
    Ret {| db_name := db_name r; db_attributes := db_attributes r;
           db_children := db_children r ++ ["<url><loc>" +:+ url smi +:+ "</loc></url>"];
           db_before := db_before r |};
  gzipSync s := "gzip:" +:+ s;
  now_ISO := "1970-01-01T00:00:00.000Z";
  date_ISO d := if String.eqb d "garbage" then None else Some d
|}.

(** ** What the specification expects of the partitioner

    These definitions follow the words of the specification; the theorems
    below compare them with what the constructor computes. *)

(** Ceiling of [n / d]. *)
Definition ceil_div (n d : nat) : nat := ((n + d - 1) / d)%nat.

(** The spec: filename [namePrefix + '-' + sequentialId + '.xml'], with
    ['.gz'] added when compress is set. *)
Definition spec_filename (namePrefix : string) (compress : bool) (sequentialId : nat) : string :=
  namePrefix +:+ "-" +:+ num_str sequentialId +:+ ".xml" +:+
  (if compress then ".gz" else EmptyString).

(** The spec: the index manifest references every chunk filename as
    [hostname + '/' + filename]. *)
Definition spec_manifest_urls (hostname : option string) (filenames : list string) : list string :=
  map (λ filename, js_str hostname +:+ "/" +:+ filename) filenames.

(** The spec: written to [targetDirectory/<namePrefix>-index.xml]. *)
Definition spec_index_path (targetDirectory namePrefix : string) : string :=
  targetDirectory +:+ "/" +:+ namePrefix +:+ "-index.xml".

(** [self.sitemapName] for the argument [sitemapName]. *)
Definition name_or_default (sitemapName : option string) : string :=
  match sitemapName with
  | None => "sitemap"
  | Some n => n
  end.

(** The url list the [urls] argument stands for. *)
Definition urls_list (urls : urls_arg) : list elem :=
  if urls_truthy urls then
    match urls with
    | UrlsArray l => l
    | UrlsOne e => [e]
    | UrlsUndefined => []
    end
  else [].

(** URL rule of the normalizer: an absolute url is kept, a relative one is
    joined to the hostname. *)
Definition join_relative `{Collaborators} (h u : string) : string :=
  if reProto_test u then u else urljoin h u.

Definition joined_sub `{Collaborators} (h : string) (o : subrec) : subrec :=
  set_sub_url o (join_relative h (sub_url o)).

(** The locations an entry object refers to. *)
Definition img_locs (it : item) : list loc :=
  match img it with
  | Some (ImgObj l) => [l]
  | Some (ImgArr ls) => ls
  | _ => []
  end.

Definition links_locs (it : item) : list loc :=
  match links it with
  | Some ls => ls
  | None => []
  end.

(** An entry object whose sub-records are all in the store, and whose
    single image object has no [length] property. *)
Definition item_ok (σ : store) (it : item) : bool :=
  forallb (λ l, bool_decide (is_Some (subs σ !! l))) (img_locs it ++ links_locs it) &&
  match img it with
  | Some (ImgObj l) =>
      match subs σ !! l with
      | Some o => length_undefined o
      | None => true
      end
  | _ => true
  end.

(** The same as a proposition. *)
Definition item_wf (σ : store) (it : item) : Prop :=
  (∀ l, l ∈ img_locs it ++ links_locs it → is_Some (subs σ !! l)) ∧
  (∀ l o, img it = Some (ImgObj l) → subs σ !! l = Some o → length_undefined o = true).

(** The object [toString] starts from for an entry. *)
Definition entry_item (σ : store) (e : elem) : option item :=
  match e with
  | ElemStr s => Some {| url := s; img := None; links := None; meta := [] |}
  | ElemObj l => items σ !! l
  end.

(** Whether [del] takes the element for a match of [key], read off the
    store. *)
Definition matches_key (key : string) (σ : store) (e : elem) : bool :=
  match e with
  | ElemStr s => String.eqb s key
  | ElemObj l =>
      match items σ !! l with
      | Some it => String.eqb (url it) key
      | None => false
      end
  end.

(** The indices of the matches, counted from [index]. *)
Fixpoint matching_indices (key : string) (σ : store) (array : list elem)
    (index : nat) : list nat :=
  match array with
  | [] => []
  | e :: rest =>
      (if matches_key key σ e then [index] else []) ++
      matching_indices key σ rest (S index)
  end.

(** Every object of the array is in the store. *)
Definition elems_ok (σ : store) (array : list elem) : Prop :=
  ∀ l, ElemObj l ∈ array → is_Some (items σ !! l).

Section expected.
Context `{Collaborators}.

(** The stream created for the chunk [c] with sequential id [i]. *)
Definition chunk_stream (targetFolder : string) (hostname : option string)
    (sitemapName : string) (xslUrl : option string) (gzip : bool)
    (i : nat) (c : list elem) : write_stream :=
  {| ws_path := targetFolder +:+ "/" +:+ spec_filename sitemapName gzip i;
     ws_open := OpenChunk
       {| limit := 50000; hostname := hostname; urls := c;
          cacheResetPeriod := 0; cache := EmptyString;
          cacheSetTimestamp := None; xslUrl := xslUrl; xmlNs := None;
          root := create "urlset" |} |}.

(** The state an existing target directory leads to. *)
Definition SitemapIndex_state (urls : urls_arg) (targetFolder : string)
    (hostname : option string) (sitemapName : option string) (sitemapSize : nat)
    (xslUrl : option string) (gzip callback : bool) (σ : store) : loop_state :=
  let name := name_or_default sitemapName in
  let chunks := chunk (urls_list urls) sitemapSize in
  let sitemaps := imap (λ i _, spec_filename name gzip i) chunks in
  {| self := {| si_hostname := hostname; si_sitemapName := name;
                si_sitemapSize := sitemapSize; si_xslUrl := xslUrl;
                si_sitemapId := length chunks; si_sitemaps := sitemaps;
                si_targetFolder := targetFolder; si_urls := urls_list urls;
                si_chunks := chunks; si_callback := callback |};
     processesCount := Z.of_nat (length chunks) + 1;
     listeners :=
       imap (λ i c, chunk_stream targetFolder hostname name xslUrl gzip i c) chunks ++
       [{| ws_path := spec_index_path targetFolder name;
           ws_open := OpenIndex (join newline (buildSitemapIndex_lines
             {| ic_urls := spec_manifest_urls hostname sitemaps; ic_xslUrl := xslUrl;
                ic_xmlNs := None; ic_lastmodISO := None;
                ic_lastmodrealtime := false; ic_lastmod := None |} None)) |}];
     written := []; failed := []; calls := []; heap := σ |}.

(** What holds of every state the event loop reaches from the state
    [init] the constructor leaves. *)
Definition loop_inv (init st : loop_state) : Prop :=
  self st = self init ∧
  processesCount st
    = (Z.of_nat (length (listeners st)) + Z.of_nat (length (failed st)))%Z ∧
  map ws_path (listeners st) ++ map fst (written st) ++ failed st
    ≡ₚ map ws_path (listeners init) ∧
  calls st = if (processesCount st =? 0)%Z && si_callback (self init)
             then [(None, true)] else [].

(** The store after a whole inner loop. *)
Definition join_all (h : string) (ls : list loc) (m : gmap loc subrec) :
    gmap loc subrec :=
  foldl (λ m l, alter (joined_sub h) l m) m ls.

(** The [img] property after the image block, the store the block
    starts its loop in, and the locations the loop visits. *)
Definition img_promoted (σ : store) (v : option img_val) :
    option img_val * gmap loc subrec * list loc :=
  match v with
  | None => (None, subs σ, [])
  | Some (ImgStr s) =>
      if str_truthy s then
        let l := fresh (dom (subs σ)) in
        (Some (ImgArr [l]),
         <[l := {| sub_url := s; sub_attrs := [] |}]> (subs σ), [l])
      else (v, subs σ, [])
  | Some (ImgObj l) => (Some (ImgArr [l]), subs σ, [l])
  | Some (ImgArr ls) => (v, subs σ, ls)
  end.

End expected.

(** *** The join of a hostname and a path *)

(** [k] slashes. *)
Fixpoint slashes (k : nat) : string :=
  match k with
  | 0 => EmptyString
  | S k' => String "/" (slashes k')
  end.

Definition starts_with_slash (s : string) : bool :=
  match s with
  | String "/" _ => true
  | _ => false
  end.

Fixpoint ends_with_slash (s : string) : bool :=
  match s with
  | EmptyString => false
  | String c EmptyString => Ascii.eqb c "/"
  | String _ s' => ends_with_slash s'
  end.

(** ** Concrete inputs *)

(** The empty store, and a store with one entry object (at 1) that has
    one image object (at 2). *)
Definition no_objects : store := {| items := ∅; subs := ∅ |}.

Definition one_entry_store (im : img_val) : store :=
  {| items := {[ 1%positive := {| url := "/p"; img := Some im; links := None;
                                  meta := [] |} ]};
     subs := {[ 2%positive := {| sub_url := "/a.png"; sub_attrs := [] |} ]} |}.

(** A store with one entry object (at 1) that has an image object (at 2)
    and a link object (at 3). *)
Definition img_and_link_store : store :=
  {| items := {[ 1%positive := {| url := "/p"; img := Some (ImgArr [2%positive]);
                                  links := Some [3%positive]; meta := [] |} ]};
     subs := {[ 2%positive := {| sub_url := "/a.png"; sub_attrs := [] |};
                3%positive := {| sub_url := "/fr/p"; sub_attrs := [("lang", "fr")] |} ]} |}.

(** A file system with the directory [/tmp] and the file [/etc/passwd]. *)
Definition tmp_fs : filesystem :=
  λ path, if String.eqb path "/tmp" then Some true
          else if String.eqb path "/etc/passwd" then Some false
          else None.

(** A sitemap whose cache was filled at time 0 and lasts 100 ms. *)
Definition cached_sitemap : Sitemap :=
  {| limit := 50000; hostname := None; urls := [];
     cacheResetPeriod := 100; cache := "<urlset/>";
     cacheSetTimestamp := Some 0%Z; xslUrl := None; xmlNs := None;
     root := create "urlset" |}.

Definition three_urls : list elem := [ElemStr "a"; ElemStr "b"; ElemStr "c"].


(** ** What the further properties speak of *)

(** [σ'] has the entry objects of [σ], and every sub-record of [σ] is
    still there with the properties other than [url] it had. *)
Definition store_kept (σ σ' : store) : Prop :=
  items σ' = items σ ∧
  ∀ l o, subs σ !! l = Some o →
         ∃ o', subs σ' !! l = Some o' ∧ sub_attrs o' = sub_attrs o.

(** A computation that keeps the store in that sense, whatever it
    returns or throws. *)
Definition keeps {A} (m : M A) : Prop := ∀ σ, store_kept σ (m σ).2.

(** An entry whose [img] is a single object that has a [length]
    property. *)
Definition img_has_length (σ : store) (e : elem) : Prop :=
  ∃ it l o, entry_item σ e = Some it ∧ img it = Some (ImgObj l) ∧
            subs σ !! l = Some o ∧ length_undefined o = false.

(** [s] starts with [p]. *)
Fixpoint starts_with (p s : string) : bool :=
  match p with
  | EmptyString => true
  | String a p' =>
      match s with
      | EmptyString => false
      | String b s' => Ascii.eqb a b && starts_with p' s'
      end
  end.

(** The lines of an index document that give a location, and those that
    give a last modification date. *)
Definition loc_lines (xml : list string) : list string :=
  filter (λ line, starts_with "<loc>" line = true) xml.

Definition lastmod_lines (xml : list string) : list string :=
  filter (λ line, starts_with "<lastmod>" line = true) xml.

(** The character [c] occurs in [s]. *)
Fixpoint has_char (c : ascii) (s : string) : bool :=
  match s with
  | EmptyString => false
  | String a s' => Ascii.eqb a c || has_char c s'
  end.

(** [s] has no line break. *)
Definition one_line (s : string) : bool := negb (has_char (ascii_of_nat 10) s).

(** [s] with its ASCII capitals made small. *)
Fixpoint lower_string (s : string) : string :=
  match s with
  | EmptyString => EmptyString
  | String a s' => String (ascii_lower a) (lower_string s')
  end.

(** One namespace declaration [k='v'] of the [xmlNs] text, the value
    between two quote characters [q]. *)
Definition xmlNs_decl (q : ascii) (kv : string * string) : string :=
  kv.1 +:+ "=" +:+ String q (kv.2 +:+ String q EmptyString).

(** ** [Sitemap.prototype.toXML] *)

(** The callback given to [toXML], as far as [toXML] can tell: called
    with [(err, xml)] it returns ([None]) or throws. *)
Definition xml_callback := option js_error → option string → option js_error.

Section toXML.
Context `{Collaborators}.

(** What the function given to [process.nextTick] did: the calls of the
    callback it made with their arguments, the exception that left it,
    and the sitemap when the render returned. *)
Record tick_result := {
  tick_calls : list (option js_error * option string);
  tick_thrown : option js_error;
  tick_self : option Sitemap
}.

(** The function [toXML] gives to [process.nextTick]; [sm] is the
    sitemap as it is when the function runs:
    [try { return callback(null, self.toString()) }
     catch (err) { return callback(err) }]. *)
Definition toXML_tick (callback : xml_callback) (sm : Sitemap) (t_valid t_set : Z)
    (σ : store) : tick_result * store :=
  match toString sm t_valid t_set σ with
  | (Ret (xml, sm'), σ') =>
      match callback None (Some xml) with
      | None => ({| tick_calls := [(None, Some xml)]; tick_thrown := None;
                    tick_self := Some sm' |}, σ')
      | Some err =>
          ({| tick_calls := [(None, Some xml); (Some err, None)];
              tick_thrown := callback (Some err) None;
              tick_self := Some sm' |}, σ')
      end
  | (Throw err, σ') =>
      ({| tick_calls := [(Some err, None)];
          tick_thrown := callback (Some err) None;
          tick_self := None |}, σ')
  end.

(** [Sitemap.prototype.toXML]: without a callback the document; with one
    nothing is returned and the function above is left to the next
    tick. *)
Definition toXML (callback : option xml_callback) (sm : Sitemap) (t_valid t_set : Z) :
    M (option string * Sitemap * option xml_callback) :=
  match callback with
  | None =>
      let* res := toString sm t_valid t_set in
      ret (Some res.1, res.2, None)
  | Some cb => ret (None, sm, Some cb)
  end.

End toXML.

(** A sitemap with the given entries and hostname, no cache time and
    nothing rendered yet. *)
Definition sitemap_of (us : list elem) (h : option string) : Sitemap :=
  {| limit := 50000; hostname := h; urls := us;
     cacheResetPeriod := 0; cache := EmptyString;
     cacheSetTimestamp := None; xslUrl := None; xmlNs := None;
     root := create "urlset" |}.

(** A sitemap of three urls whose cache lasts 100 ms and is not filled
    yet. *)
Definition uncached_sitemap : Sitemap :=
  {| limit := 50000; hostname := None; urls := three_urls;
     cacheResetPeriod := 100; cache := EmptyString;
     cacheSetTimestamp := None; xslUrl := None; xmlNs := None;
     root := create "urlset" |}.

(** Two configurations of the index builder: one with a last
    modification date in ISO form, one whose [lastmod] is not a date. *)
Definition dated_conf : IndexConf :=
  {| ic_urls := ["https://example.com/sitemap-0.xml"];
     ic_xslUrl := None; ic_xmlNs := None;
     ic_lastmodISO := Some "2020-01-01T00:00:00.000Z";
     ic_lastmodrealtime := true; ic_lastmod := None |}.

Definition garbage_conf : IndexConf :=
  {| ic_urls := ["https://example.com/sitemap-0.xml"];
     ic_xslUrl := None; ic_xmlNs := None; ic_lastmodISO := None;
     ic_lastmodrealtime := false; ic_lastmod := Some "garbage" |}.

(** A store with one entry object (at 1) whose [img] is a single object
    (at 2) that has a [length] property. *)
Definition img_length_store : store :=
  {| items := {[ 1%positive := {| url := "/p"; img := Some (ImgObj 2%positive);
                                  links := None; meta := [] |} ]};
     subs := {[ 2%positive := {| sub_url := "/a.png";
                                 sub_attrs := [("length", "3")] |} ]} |}.

(** A callback that throws when it is given a document. *)
Definition throwing_callback : xml_callback :=
  λ err xml, match xml with
             | Some _ => Some (TypeError "callback failed")
             | None => None
             end.

(** * Theorems *)

(** *** Facts about [chunk] *)

Section chunk_facts.
Context {A : Type}.
Implicit Types (l : list A) (size fuel : nat).

Lemma ceil_div_step n size :
  (0 < size)%nat → (0 < n)%nat →
  ((n + size - 1) / size)%nat = S ((n - size + size - 1) / size)%nat.
Proof.
  intros Hs Hn. destruct (le_lt_dec n size) as [Hle|Hlt].
  - replace (n - size)%nat with 0%nat by lia. simpl.
    rewrite (Nat.div_small (size - 1) size) by lia.
    symmetry. apply (Nat.div_unique _ _ 1 (n - 1)); lia.
  - replace (n + size - 1)%nat with ((n - size + size - 1) + 1 * size)%nat by lia.
    rewrite Nat.div_add by lia. lia.
Qed.

Lemma chunk_loop_length fuel size l :
  (0 < size)%nat → (length l <= fuel)%nat →
  length (chunk_loop fuel size l) = ((length l + size - 1) / size)%nat.
Proof.
  intros Hs. revert l. induction fuel as [|fuel IH]; intros l Hf.
  - destruct l; [|simpl in Hf; lia]. simpl.
    symmetry. apply Nat.div_small. lia.
  - destruct l as [|x l].
    + simpl. symmetry. apply Nat.div_small. lia.
    + rewrite (ceil_div_step (length (x :: l)) size) by (simpl; lia).
      cbn [chunk_loop]. rewrite (length_cons (take size (x :: l))). rewrite IH.
      * by rewrite length_drop.
      * rewrite length_drop. simpl in *. lia.
Qed.

Lemma chunk_loop_concat fuel size l :
  (0 < size)%nat → (length l <= fuel)%nat →
  concat (chunk_loop fuel size l) = l.
Proof.
  intros Hs. revert l. induction fuel as [|fuel IH]; intros l Hf.
  - destruct l; [done|simpl in Hf; lia].
  - destruct l as [|x l]; [done|].
    cbn [chunk_loop concat]. rewrite IH.
    + apply take_drop.
    + rewrite length_drop. simpl in *. lia.
Qed.

(** The chunk at index [i] is the slice of [size] elements starting at
    [i * size]. *)
Lemma chunk_loop_lookup fuel size l i c :
  (0 < size)%nat → (length l <= fuel)%nat →
  chunk_loop fuel size l !! i = Some c →
  c = take size (drop (i * size) l) ∧ (i * size < length l)%nat.
Proof.
  intros Hs. revert l i. induction fuel as [|fuel IH]; intros l i Hf Hi.
  - destruct l; simpl in *; [done|lia].
  - destruct l as [|x l]; [done|].
    cbn [chunk_loop] in Hi. destruct i as [|i].
    + simpl in Hi. injection Hi as <-. simpl. split; [done|lia].
    + simpl in Hi. apply IH in Hi; [|rewrite length_drop; simpl in *; lia].
      destruct Hi as [-> Hlt]. rewrite length_drop in Hlt.
      rewrite drop_drop. split.
      * reflexivity.
      * simpl in *. lia.
Qed.

End chunk_facts.

Section chunk_of_list.
Context {A : Type}.
Implicit Types (l : list A) (size : nat).

Lemma chunk_length l size :
  (0 < size)%nat → length (chunk l size) = ceil_div (length l) size.
Proof.
  intros Hs. unfold chunk, ceil_div.
  destruct (Nat.ltb_spec size 1) as [?|_]; [lia|].
  by apply chunk_loop_length.
Qed.

Lemma chunk_concat l size : (0 < size)%nat → concat (chunk l size) = l.
Proof.
  intros Hs. unfold chunk.
  destruct (Nat.ltb_spec size 1) as [?|_]; [lia|].
  by apply chunk_loop_concat.
Qed.

Lemma chunk_lookup l size i c :
  (0 < size)%nat → chunk l size !! i = Some c →
  c = take size (drop (i * size) l) ∧ (i * size < length l)%nat.
Proof.
  intros Hs. unfold chunk.
  destruct (Nat.ltb_spec size 1) as [?|_]; [lia|].
  by apply chunk_loop_lookup.
Qed.

Lemma chunk_nil size : chunk (@nil A) size = [].
Proof. unfold chunk. by destruct (size <? 1)%nat. Qed.

Lemma ceil_div_bounds n size :
  (0 < size)%nat →
  (n ≤ ceil_div n size * size)%nat ∧ (ceil_div n size * size < n + size)%nat.
Proof.
  intros Hs. unfold ceil_div.
  pose proof (Nat.div_mod_eq (n + size - 1) size) as Hdm.
  pose proof (Nat.mod_upper_bound (n + size - 1) size) as Hub.
  split; nia.
Qed.

(** Every chunk is the slice its index says, is never empty, and only
    the last one can be short. *)
Lemma chunk_sizes l size i c :
  (0 < size)%nat → chunk l size !! i = Some c →
  (1 ≤ length c ≤ size)%nat ∧
  (S i < length (chunk l size) → length c = size)%nat.
Proof.
  intros Hs Hi. destruct (chunk_lookup _ _ _ _ Hs Hi) as [-> Hlt].
  rewrite length_take, length_drop. split; [lia|].
  intros Hnext. apply lookup_lt_is_Some_2 in Hnext as [c' Hc'].
  apply chunk_lookup in Hc' as [_ Hlt']; [|done]. simpl in Hlt'. lia.
Qed.

End chunk_of_list.

Section partitioner_facts.
Context `{Collaborators}.

(** The [Sitemap] document made for a chunk. *)
Lemma createSitemap_chunk hostname xslUrl (c : list elem) :
  createSitemap {| conf_urls := UrlsArray c; conf_hostname := hostname;
                   conf_cacheTime := None; conf_xslUrl := xslUrl;
                   conf_xmlNs := None |}
  = Ret {| limit := 50000; hostname := hostname; urls := c;
           cacheResetPeriod := 0; cache := EmptyString;
           cacheSetTimestamp := None; xslUrl := xslUrl; xmlNs := None;
           root := create "urlset" |}.
Proof. reflexivity. Qed.

Lemma SitemapIndex_chunks_spec targetFolder hostname sitemapName xslUrl gzip
    chunks sitemapId sitemaps streams :
  SitemapIndex_chunks targetFolder hostname sitemapName xslUrl gzip
    chunks sitemapId sitemaps streams
  = Ret (sitemapId + length chunks,
         sitemaps ++ imap (λ i _, spec_filename sitemapName gzip (sitemapId + i)) chunks,
         streams ++ imap (λ i c, chunk_stream targetFolder hostname sitemapName
                                   xslUrl gzip (sitemapId + i) c) chunks).
Proof.
  revert sitemapId sitemaps streams.
  induction chunks as [|c chunks IH]; intros sitemapId sitemaps streams.
  - simpl. by rewrite Nat.add_0_r, !app_nil_r.
  - cbn [SitemapIndex_chunks]. rewrite createSitemap_chunk, IH.
    rewrite !imap_cons, <- !app_assoc, Nat.add_0_r. cbn [app length].
    f_equal. f_equal; [f_equal; [lia|]|].
    + f_equal. f_equal. apply imap_ext. intros i x _. simpl. f_equal. lia.
    + f_equal. f_equal. apply imap_ext. intros i x _. simpl. f_equal. lia.
Qed.

Lemma SitemapIndex_ok fs urls targetFolder hostname cacheTime sitemapName
    sitemapSize xslUrl gzip callback σ :
  fs targetFolder = Some true →
  SitemapIndex fs urls targetFolder hostname cacheTime sitemapName sitemapSize
    xslUrl gzip callback σ
  = Ret (SitemapIndex_state urls targetFolder hostname sitemapName sitemapSize
           xslUrl gzip callback σ).
Proof.
  intros Hfs. unfold SitemapIndex, check_targetFolder, statSync_isDirectory.
  rewrite Hfs. cbn [negb]. rewrite SitemapIndex_chunks_spec.
  reflexivity.
Qed.

End partitioner_facts.

(** ** Appending strings *)

Lemma append_cons c s1 s2 : String c s1 +:+ s2 = String c (s1 +:+ s2).
Proof. reflexivity. Qed.

Lemma append_empty_l s : EmptyString +:+ s = s.
Proof. reflexivity. Qed.

Lemma append_empty_r s : s +:+ EmptyString = s.
Proof. induction s; rewrite ?append_cons; by f_equal. Qed.

Lemma append_assoc a b c : (a +:+ b) +:+ c = a +:+ b +:+ c.
Proof. induction a as [|x a IH]; [done|]. rewrite !append_cons. by f_equal. Qed.

(** ** The lines of the index document *)

Section index_lines.
Context `{Collaborators}.

Lemma loc_lines_app a b : loc_lines (a ++ b) = loc_lines a ++ loc_lines b.
Proof. apply filter_app. Qed.

Lemma lastmod_lines_app a b :
  lastmod_lines (a ++ b) = lastmod_lines a ++ lastmod_lines b.
Proof. apply filter_app. Qed.

Lemma loc_lines_block lastmod url :
  loc_lines (sitemap_block lastmod url) = ["<loc>" +:+ url +:+ "</loc>"].
Proof.
  unfold sitemap_block. rewrite !loc_lines_app.
  destruct (opt_truthy lastmod); reflexivity.
Qed.

Lemma lastmod_lines_block lastmod url :
  lastmod_lines (sitemap_block lastmod url)
  = if opt_truthy lastmod then ["<lastmod>" +:+ js_str lastmod +:+ "</lastmod>"] else [].
Proof.
  unfold sitemap_block. rewrite !lastmod_lines_app.
  destruct (opt_truthy lastmod); reflexivity.
Qed.

Lemma loc_lines_blocks lastmod urls :
  loc_lines (concat (map (sitemap_block lastmod) urls))
  = map (λ url, "<loc>" +:+ url +:+ "</loc>") urls.
Proof.
  induction urls as [|url urls IH]; [done|].
  cbn [map concat]. by rewrite loc_lines_app, loc_lines_block, IH.
Qed.

Lemma lastmod_lines_blocks lastmod urls :
  lastmod_lines (concat (map (sitemap_block lastmod) urls))
  = if opt_truthy lastmod
    then map (λ _, "<lastmod>" +:+ js_str lastmod +:+ "</lastmod>") urls else [].
Proof.
  induction urls as [|url urls IH]; [by destruct (opt_truthy lastmod)|].
  cbn [map concat]. rewrite lastmod_lines_app, lastmod_lines_block, IH.
  by destruct (opt_truthy lastmod).
Qed.

Lemma buildSitemapIndex_lines_loc conf lastmod :
  loc_lines (buildSitemapIndex_lines conf lastmod)
  = map (λ url, "<loc>" +:+ url +:+ "</loc>") (ic_urls conf).
Proof.
  unfold buildSitemapIndex_lines. rewrite !loc_lines_app, loc_lines_blocks.
  destruct (opt_truthy (ic_xslUrl conf)), (opt_truthy (ic_xmlNs conf));
    cbn [negb]; by rewrite app_nil_r.
Qed.

Lemma buildSitemapIndex_lines_lastmod conf lastmod :
  lastmod_lines (buildSitemapIndex_lines conf lastmod)
  = if opt_truthy lastmod
    then map (λ _, "<lastmod>" +:+ js_str lastmod +:+ "</lastmod>") (ic_urls conf)
    else [].
Proof.
  unfold buildSitemapIndex_lines. rewrite !lastmod_lines_app, lastmod_lines_blocks.
  destruct (opt_truthy (ic_xslUrl conf)), (opt_truthy (ic_xmlNs conf));
    cbn [negb]; by rewrite app_nil_r.
Qed.

(** The index of the constructor, which gives no last modification
    date, is always built. *)
Lemma buildSitemapIndex_no_lastmod urls xslUrl :
  buildSitemapIndex {| ic_urls := urls; ic_xslUrl := xslUrl; ic_xmlNs := None;
                       ic_lastmodISO := None; ic_lastmodrealtime := false;
                       ic_lastmod := None |}
  = Ret (join newline
           (buildSitemapIndex_lines
              {| ic_urls := urls; ic_xslUrl := xslUrl; ic_xmlNs := None;
                 ic_lastmodISO := None; ic_lastmodrealtime := false;
                 ic_lastmod := None |} None)).
Proof. reflexivity. Qed.

End index_lines.

Section partitioner_claims.
Context `{Collaborators}.

(** C1.  For a url list [allUrls] of length N and a positive
    [partitionSize], the constructor splits the list into contiguous
    chunks in input order: chunk [i] is the slice of [partitionSize]
    entries starting at [i * partitionSize], every chunk has
    [partitionSize] entries except a possibly smaller (never empty) last
    one, the number of chunks is the ceiling of N / partitionSize, the
    chunks concatenated give back [allUrls], and an empty list gives no
    chunk. *)
Theorem SitemapIndex_partition fs (allUrls : list elem) targetFolder hostname
    cacheTime sitemapName partitionSize xslUrl gzip callback σ :
  (0 < partitionSize)%nat →
  fs targetFolder = Some true →
  ∃ st,
    SitemapIndex fs (UrlsArray allUrls) targetFolder hostname cacheTime sitemapName
      partitionSize xslUrl gzip callback σ = Ret st ∧
    let chunks := si_chunks (self st) in
    length chunks = ceil_div (length allUrls) partitionSize ∧
    (length allUrls ≤ length chunks * partitionSize < length allUrls + partitionSize)%nat ∧
    concat chunks = allUrls ∧
    (∀ i c, chunks !! i = Some c →
       c = take partitionSize (drop (i * partitionSize) allUrls) ∧
       (1 ≤ length c ≤ partitionSize)%nat ∧
       (S i < length chunks → length c = partitionSize)%nat) ∧
    (allUrls = [] → chunks = []).
Proof.
  intros Hsize Hfs. eexists. split; [by apply SitemapIndex_ok|].
  cbn [SitemapIndex_state self si_chunks urls_list urls_truthy].
  split; [by apply chunk_length|].
  split; [rewrite chunk_length by done; by apply ceil_div_bounds|].
  split; [by apply chunk_concat|].
  split.
  - intros i c Hc. split; [by eapply chunk_lookup|by apply chunk_sizes].
  - intros ->. apply chunk_nil.
Qed.

(** C5.  The chunk at index [i] gets the file name
    [namePrefix + '-' + i + '.xml'] (plus ['.gz'] when [gzip] is set),
    the ids starting at 0 and growing by one per chunk; its stream is
    opened at [targetFolder + '/' + filename] for a document holding
    just that chunk.  The index manifest is built from the urls
    [hostname + '/' + filename] of all chunk file names in the same
    order: it is a document of lines whose location lines are
    ['<loc>' + hostname + '/' + filename + '</loc>'], one per chunk and in
    the order of the chunks; and it is written to
    [targetFolder/<namePrefix>-index.xml]. *)
Theorem SitemapIndex_filenames fs allUrls targetFolder hostname cacheTime
    sitemapName sitemapSize xslUrl gzip callback σ :
  fs targetFolder = Some true →
  ∃ st xmlString,
    SitemapIndex fs allUrls targetFolder hostname cacheTime sitemapName sitemapSize
      xslUrl gzip callback σ = Ret st ∧
    let chunks := si_chunks (self st) in
    let namePrefix := si_sitemapName (self st) in
    let generatedFilenames := si_sitemaps (self st) in
    namePrefix = name_or_default sitemapName ∧
    length generatedFilenames = length chunks ∧
    (∀ i c, chunks !! i = Some c →
       generatedFilenames !! i = Some (spec_filename namePrefix gzip i) ∧
       ∃ sitemap,
         listeners st !! i =
           Some {| ws_path := targetFolder +:+ "/" +:+ spec_filename namePrefix gzip i;
                   ws_open := OpenChunk sitemap |} ∧
         urls sitemap = c) ∧
    buildSitemapIndex
      {| ic_urls := spec_manifest_urls hostname generatedFilenames;
         ic_xslUrl := xslUrl; ic_xmlNs := None; ic_lastmodISO := None;
         ic_lastmodrealtime := false; ic_lastmod := None |} = Ret xmlString ∧
    (∃ lines,
       xmlString = join newline lines ∧
       loc_lines lines
       = map (λ filename, "<loc>" +:+ js_str hostname +:+ "/" +:+ filename +:+ "</loc>")
           generatedFilenames ∧
       length (loc_lines lines) = length chunks) ∧
    listeners st !! length chunks =
      Some {| ws_path := spec_index_path targetFolder namePrefix;
              ws_open := OpenIndex xmlString |} ∧
    length (listeners st) = S (length chunks) ∧
    (∀ t_valid t_set st',
       written (run_open gzip t_valid t_set
                  {| ws_path := spec_index_path targetFolder namePrefix;
                     ws_open := OpenIndex xmlString |} st')
       = written st' ++ [(spec_index_path targetFolder namePrefix, xmlString)]) ∧
    si_sitemapId (self st) = length chunks.
Proof.
  intros Hfs. eexists. eexists. split; [by apply SitemapIndex_ok|].
  cbn [SitemapIndex_state self si_chunks si_sitemapName si_sitemaps listeners].
  split; [done|]. split; [by rewrite length_imap|].
  split.
  - intros i c Hc. split.
    + by rewrite list_lookup_imap, Hc.
    + eexists. split.
      * rewrite lookup_app_l by (rewrite length_imap; by eapply lookup_lt_Some).
        rewrite list_lookup_imap, Hc. reflexivity.
      * reflexivity.
  - split; [reflexivity|]. split.
    { eexists. split; [reflexivity|].
      rewrite buildSitemapIndex_lines_loc. cbn [ic_urls]. unfold spec_manifest_urls.
      rewrite map_map. split.
      - apply map_ext. intros filename. by rewrite !append_assoc.
      - by rewrite length_map, length_imap. }
    split.
    + rewrite lookup_app_r by (by rewrite length_imap).
      by rewrite length_imap, Nat.sub_diag.
    + split; [rewrite length_app, length_imap; simpl; lia|]. split; done.
Qed.

End partitioner_claims.

Section completion.
Context `{Collaborators}.

Lemma loop_inv_init init :
  written init = [] → failed init = [] → calls init = [] →
  processesCount init = Z.of_nat (length (listeners init)) →
  (0 < length (listeners init))%nat →
  loop_inv init init.
Proof.
  intros Hw Hf Hc Hp Hl. unfold loop_inv. rewrite Hw, Hf, Hc, Hp. simpl.
  rewrite app_nil_r. split; [done|]. split; [lia|]. split; [done|].
  destruct (Z.eqb_spec (Z.of_nat (length (listeners init))) 0); [lia|done].
Qed.

Lemma loop_inv_finish init st k stream data σ :
  loop_inv init st → listeners st !! k = Some stream →
  loop_inv init (finish_write (set_listeners st (delete k (listeners st)))
                   (ws_path stream) data σ).
Proof.
  intros (Hself & Hcount & Hperm & Hcalls) Hk.
  pose proof (lookup_lt_Some _ _ _ Hk) as Hlt.
  unfold loop_inv, finish_write, set_listeners; simpl.
  rewrite length_delete by eauto.
  split; [done|]. split; [lia|]. split.
  - rewrite <- Hperm, map_app. simpl.
    rewrite (delete_Permutation (listeners st) k stream Hk) at 2. simpl.
    rewrite <- !app_assoc. simpl.
    rewrite <- Permutation_middle.
    apply Permutation_sym, Permutation_cons_app.
    by rewrite app_assoc.
  - rewrite Hcalls, Hself.
    destruct (Z.eqb_spec (processesCount st) 0) as [?|_]; [lia|]. simpl.
    by destruct (processesCount st - 1 =? 0)%Z, (si_callback (self init)).
Qed.

Lemma loop_inv_fail init st k stream σ :
  loop_inv init st → listeners st !! k = Some stream →
  loop_inv init (fail_write (set_listeners st (delete k (listeners st)))
                   (ws_path stream) σ).
Proof.
  intros (Hself & Hcount & Hperm & Hcalls) Hk.
  pose proof (lookup_lt_Some _ _ _ Hk) as Hlt.
  unfold loop_inv, fail_write, set_listeners; simpl.
  rewrite length_delete by eauto. rewrite length_app. simpl.
  split; [done|]. split; [lia|]. split; [|done].
  rewrite <- Hperm.
  rewrite (delete_Permutation (listeners st) k stream Hk) at 2. simpl.
  rewrite !app_assoc. rewrite <- Permutation_middle.
  by rewrite app_nil_r.
Qed.

Lemma loop_inv_step gzip init st st' :
  loop_inv init st → step gzip st st' → loop_inv init st'.
Proof.
  intros Hinv Hstep. destruct Hstep as [st k stream t_valid t_set Hk|st k stream Hk].
  - unfold run_open. destruct (ws_open stream) as [sitemap|xmlString].
    + destruct ((if gzip then toGzip sitemap t_valid t_set
                 else toString sitemap t_valid t_set) _) as [[[data sm']|e] σ'].
      * by apply loop_inv_finish.
      * by apply loop_inv_fail.
    + by apply loop_inv_finish.
  - by apply loop_inv_fail.
Qed.

Lemma loop_inv_steps gzip init st :
  loop_inv init init → steps gzip init st → loop_inv init st.
Proof.
  intros Hinit Hsteps. induction Hsteps as [|st1 st2 st3 _ IH Hstep]; [done|].
  eapply loop_inv_step; [by apply IH|done].
Qed.

End completion.

Section completion_claims.
Context `{Collaborators}.

Lemma SitemapIndex_state_inv urls targetFolder hostname sitemapName sitemapSize
    xslUrl gzip callback σ :
  let init := SitemapIndex_state urls targetFolder hostname sitemapName
                sitemapSize xslUrl gzip callback σ in
  loop_inv init init.
Proof.
  intros init. apply loop_inv_init; try done; subst init; simpl.
  - rewrite length_app, length_imap. simpl. lia.
  - rewrite length_app. simpl. lia.
Qed.

Lemma no_step_without_listener gzip st st' :
  listeners st = [] → ¬ step gzip st st'.
Proof.
  intros Hnil Hstep. destruct Hstep as [st k stream ? ? Hk|st k stream Hk];
    rewrite Hnil in Hk; by destruct k.
Qed.

Lemma steps_trans gzip st1 st2 st3 :
  steps gzip st1 st2 → steps gzip st2 st3 → steps gzip st1 st3.
Proof.
  intros H12 H23. induction H23 as [|st2 st3 st4 _ IH Hstep]; [done|].
  eapply steps_step; [by apply IH|done].
Qed.

(** What the listener of [stream] does to the state. *)
Lemma run_open_effect gzip t_valid t_set stream st :
  let st' := run_open gzip t_valid t_set stream st in
  listeners st' = listeners st ∧
  match ws_open stream with
  | OpenIndex xmlString =>
      processesCount st' = (processesCount st - 1)%Z ∧
      written st' = written st ++ [(ws_path stream, xmlString)] ∧
      failed st' = failed st
  | OpenChunk sitemap =>
      match chunk_data gzip sitemap t_valid t_set (heap st) with
      | (Ret (data, _), _) =>
          processesCount st' = (processesCount st - 1)%Z ∧
          written st' = written st ++ [(ws_path stream, data)] ∧
          failed st' = failed st
      | (Throw _, _) =>
          processesCount st' = processesCount st ∧
          written st' = written st ∧
          failed st' = failed st ++ [ws_path stream]
      end
  end.
Proof.
  cbv zeta. unfold run_open, chunk_data.
  destruct (ws_open stream) as [sitemap|xmlString].
  - by destruct ((if gzip then toGzip sitemap t_valid t_set
                  else toString sitemap t_valid t_set) (heap st)) as [[[data sm']|e] σ'].
  - done.
Qed.

(** When the render of every waiting chunk returns, the streams can be
    opened one after the other until none waits, without a failure. *)
Lemma run_all gzip st :
  (∀ stream sitemap, stream ∈ listeners st → ws_open stream = OpenChunk sitemap →
     ∀ t_valid t_set σ0, ∃ res σ',
       chunk_data gzip sitemap t_valid t_set σ0 = (Ret res, σ')) →
  ∃ st', steps gzip st st' ∧ listeners st' = [] ∧ failed st' = failed st.
Proof.
  remember (listeners st) as ls eqn:Hls. revert st Hls.
  induction ls as [|stream rest IH]; intros st Hls Hrender.
  - exists st. split; [apply steps_refl|done].
  - set (st0 := set_listeners st (delete 0 (listeners st))).
    set (st1 := run_open gzip 0 0 stream st0).
    assert (Hstep : step gzip st st1).
    { apply (step_open gzip st 0 stream 0%Z 0%Z). by rewrite <- Hls. }
    pose proof (run_open_effect gzip 0 0 stream st0) as [Hl Heffect].
    fold st1 in Hl, Heffect.
    assert (Hrest : rest = listeners st1).
    { rewrite Hl. subst st0. cbn [listeners set_listeners]. by rewrite <- Hls. }
    assert (Hfailed : failed st1 = failed st).
    { destruct (ws_open stream) as [sitemap|xmlString] eqn:Hopen.
      - destruct (Hrender stream sitemap (list_elem_of_here _ _) Hopen 0%Z 0%Z (heap st0))
          as ([data sm'] & σ' & Hrun).
        rewrite Hrun in Heffect. by destruct Heffect as (_ & _ & ->).
      - by destruct Heffect as (_ & _ & ->). }
    destruct (IH st1 Hrest) as (st' & Hsteps & Hnil & Hsame).
    { intros stream' sitemap Hin. apply Hrender. by right. }
    exists st'. split; [|split; [done|by rewrite Hsame]].
    eapply steps_trans; [|exact Hsteps].
    eapply steps_step; [apply steps_refl|exact Hstep].
Qed.

(** C6 (as amended).  The counter [processesCount] starts at the number
    of chunks plus one and is decremented by the [open] listener of a
    stream, once, right after the listener has handed its data to
    [stream.write] (chunk files and index file alike): in every state the
    event loop reaches it is the start value less the number of writes
    so issued.  [self.callback(null, true)] is called exactly when the
    counter reaches zero; it has then been called once, every stream has
    been opened and has issued its write, and no further turn of a
    listener can happen, so it is never called twice nor before all
    writes are issued.  A run in which all streams have opened without a
    failure ends with the counter at zero and the callback called, and
    such a run exists when the renders of the chunks return. *)
Theorem SitemapIndex_completion fs allUrls targetFolder hostname cacheTime
    sitemapName sitemapSize xslUrl gzip callback σ :
  fs targetFolder = Some true →
  ∃ init,
    SitemapIndex fs allUrls targetFolder hostname cacheTime sitemapName sitemapSize
      xslUrl gzip callback σ = Ret init ∧
    let n := length (si_chunks (self init)) in
    processesCount init = (Z.of_nat n + 1)%Z ∧
    length (listeners init) = S n ∧
    calls init = [] ∧
    (∀ st, steps gzip init st →
      processesCount st = (Z.of_nat n + 1 - Z.of_nat (length (written st)))%Z ∧
      (calls st = [] ∨ calls st = [(None, true)]) ∧
      (calls st = [(None, true)] ↔ processesCount st = 0%Z ∧ callback = true) ∧
      (calls st ≠ [] →
         listeners st = [] ∧ failed st = [] ∧ length (written st) = S n ∧
         map fst (written st) ≡ₚ map ws_path (listeners init)) ∧
      (processesCount st = 0%Z → ∀ st', ¬ step gzip st st') ∧
      (listeners st = [] → failed st = [] →
         processesCount st = 0%Z ∧ length (written st) = S n ∧
         (callback = true → calls st = [(None, true)])) ∧
      (∀ k stream t_valid t_set,
         listeners st !! k = Some stream →
         let st' := run_open gzip t_valid t_set stream
                      (set_listeners st (delete k (listeners st))) in
         step gzip st st' ∧
         match ws_open stream with
         | OpenIndex xmlString =>
             processesCount st' = (processesCount st - 1)%Z ∧
             written st' = written st ++ [(ws_path stream, xmlString)]
         | OpenChunk sitemap =>
             match chunk_data gzip sitemap t_valid t_set (heap st) with
             | (Ret (data, _), _) =>
                 processesCount st' = (processesCount st - 1)%Z ∧
                 written st' = written st ++ [(ws_path stream, data)]
             | (Throw _, _) =>
                 processesCount st' = processesCount st ∧
                 written st' = written st ∧ calls st' = calls st
             end
         end)) ∧
    ((∀ k stream sitemap,
        listeners init !! k = Some stream → ws_open stream = OpenChunk sitemap →
        ∀ t_valid t_set σ0, ∃ res σ',
          chunk_data gzip sitemap t_valid t_set σ0 = (Ret res, σ')) →
     ∃ st, steps gzip init st ∧
           listeners st = [] ∧ failed st = [] ∧
           processesCount st = 0%Z ∧ length (written st) = S n ∧
           (callback = true → calls st = [(None, true)])).
Proof.
  intros Hfs. eexists. split; [by apply SitemapIndex_ok|].
  set (init := SitemapIndex_state _ _ _ _ _ _ _ _ _).
  assert (Hlen : length (listeners init) = S (length (si_chunks (self init)))).
  { subst init. simpl. rewrite length_app, length_imap. simpl. lia. }
  cbv zeta. split; [done|]. split; [done|]. split; [done|].
  assert (Hdone : ∀ st, steps gzip init st → listeners st = [] → failed st = [] →
            processesCount st = 0%Z ∧
            length (written st) = S (length (si_chunks (self init))) ∧
            (callback = true → calls st = [(None, true)])).
  { intros st Hsteps Hl Hf.
    destruct (loop_inv_steps gzip init st (SitemapIndex_state_inv _ _ _ _ _ _ _ _ _) Hsteps)
      as (_ & Hcount & Hperm & Hcalls).
    pose proof (Permutation_length Hperm) as Hplen.
    rewrite !length_app, !length_map, Hlen, Hl, Hf in Hplen.
    rewrite Hl, Hf in Hcount. cbn [length] in Hcount, Hplen.
    split; [lia|]. split; [lia|]. intros ->. rewrite Hcalls, Hcount. done. }
  split.
  - intros st Hsteps.
    destruct (loop_inv_steps gzip init st (SitemapIndex_state_inv _ _ _ _ _ _ _ _ _) Hsteps)
      as (Hself & Hcount & Hperm & Hcalls).
    pose proof (Permutation_length Hperm) as Hplen.
    rewrite !length_app, !length_map, Hlen in Hplen.
    assert (Hcb : si_callback (self init) = callback) by done.
    rewrite Hcb in Hcalls.
    assert (Hzero : processesCount st = 0%Z → listeners st = [] ∧ failed st = []).
    { intros Hz. split; apply length_zero_iff_nil; lia. }
    split; [lia|]. split; [|split; [|split; [|split; [|split]]]].
    + rewrite Hcalls. destruct (_ && _); auto.
    + rewrite Hcalls. destruct (Z.eqb_spec (processesCount st) 0), callback;
        simpl; split; try done; intros [? ?]; done.
    + intros Hne. rewrite Hcalls in Hne.
      destruct (Z.eqb_spec (processesCount st) 0) as [Hz|]; [|done].
      destruct (Hzero Hz) as [Hl Hf]. rewrite Hl, Hf in *. simpl in *.
      split; [done|]. split; [done|]. split; [lia|].
      by rewrite app_nil_r in Hperm.
    + intros Hz st'. apply no_step_without_listener. by apply Hzero.
    + by apply Hdone.
    + intros k stream t_valid t_set Hk. cbv zeta. split; [by apply step_open|].
      pose proof (run_open_effect gzip t_valid t_set stream
                    (set_listeners st (delete k (listeners st)))) as [_ Heffect].
      cbn [heap set_listeners processesCount written] in Heffect.
      destruct (ws_open stream) as [sitemap|xmlString] eqn:Hopen.
      * destruct (chunk_data gzip sitemap t_valid t_set (heap st))
          as [[[data sm']|e] σ'] eqn:Hrun.
        -- by destruct Heffect as (? & ? & _).
        -- destruct Heffect as (? & ? & _). split; [done|]. split; [done|].
           unfold run_open. rewrite Hopen. cbn [heap set_listeners].
           unfold chunk_data in Hrun. by rewrite Hrun.
      * by destruct Heffect as (? & ? & _).
  - intros Hrender.
    destruct (run_all gzip init) as (st & Hsteps & Hl & Hf).
    { intros stream sitemap Hin Hopen.
      apply list_elem_of_lookup in Hin as [k Hk]. by eapply Hrender. }
    exists st. split; [done|]. split; [done|]. split; [done|].
    by apply Hdone.
Qed.

End completion_claims.

Section empty_and_invalid.
Context `{Collaborators}.

Lemma sitemap_tag_not_in_empty_index xslUrl :
  "<sitemap>" ∉ buildSitemapIndex_lines
    {| ic_urls := []; ic_xslUrl := xslUrl; ic_xmlNs := None; ic_lastmodISO := None;
       ic_lastmodrealtime := false; ic_lastmod := None |} None.
Proof.
  unfold buildSitemapIndex_lines. cbn [ic_urls ic_xslUrl ic_xmlNs map concat opt_truthy negb].
  intros Hin. repeat (apply elem_of_app in Hin as [Hin|Hin]).
  - apply list_elem_of_singleton in Hin. discriminate Hin.
  - destruct (opt_truthy xslUrl).
    + apply list_elem_of_singleton in Hin. discriminate Hin.
    + by apply elem_of_nil in Hin.
  - apply list_elem_of_singleton in Hin. discriminate Hin.
  - by apply elem_of_nil in Hin.
  - apply list_elem_of_singleton in Hin. discriminate Hin.
Qed.

(** C10.  For an empty url list the constructor makes no chunk and no
    chunk file: the only stream is the one of the index file
    [<namePrefix>-index.xml], whose content has no [<sitemap>] line, and
    the counter starts at 1.  The first turn of the event loop is the
    open event of that stream; its listener writes the document and
    calls the callback with [(null, true)], and no further turn follows,
    so it is called once. *)
Theorem SitemapIndex_empty fs targetFolder hostname cacheTime sitemapName
    sitemapSize xslUrl gzip σ :
  fs targetFolder = Some true →
  ∃ init xmlString lines,
    SitemapIndex fs (UrlsArray []) targetFolder hostname cacheTime sitemapName
      sitemapSize xslUrl gzip true σ = Ret init ∧
    si_chunks (self init) = [] ∧
    si_sitemaps (self init) = [] ∧
    processesCount init = 1%Z ∧
    listeners init =
      [{| ws_path := spec_index_path targetFolder (name_or_default sitemapName);
          ws_open := OpenIndex xmlString |}] ∧
    lines = buildSitemapIndex_lines
              {| ic_urls := []; ic_xslUrl := xslUrl; ic_xmlNs := None;
                 ic_lastmodISO := None; ic_lastmodrealtime := false;
                 ic_lastmod := None |} None ∧
    xmlString = join newline lines ∧
    ("<sitemap>" ∉ lines) ∧
    (∃ st, step gzip init st ∧
           written st = [(spec_index_path targetFolder (name_or_default sitemapName),
                          xmlString)] ∧
           calls st = [(None, true)]) ∧
    (∀ st, step gzip init st →
       (written st = [(spec_index_path targetFolder (name_or_default sitemapName),
                       xmlString)] ∧
        calls st = [(None, true)] ∧ processesCount st = 0%Z
        ∨ written st = [] ∧ calls st = [] ∧ failed st ≠ []) ∧
       ∀ st', ¬ step gzip st st').
Proof.
  intros Hfs. eexists. eexists. eexists. split; [by apply SitemapIndex_ok|].
  unfold SitemapIndex_state.
  cbn [urls_list urls_truthy]. rewrite chunk_nil.
  cbn [self si_chunks si_sitemaps processesCount listeners imap app length
       spec_manifest_urls map].
  split; [done|]. split; [done|]. split; [done|]. split; [reflexivity|].
  split; [reflexivity|]. split; [reflexivity|].
  split; [apply sitemap_tag_not_in_empty_index|]. split.
  - eexists. split.
    + eapply (step_open _ _ 0 _ 0%Z 0%Z). reflexivity.
    + by cbn.
  - intros st Hstep. split.
    + inversion Hstep as [st0 k stream t_valid t_set Hk|st0 k stream Hk]; subst;
        destruct k; simpl in Hk; try done; injection Hk as <-.
      * left. by cbn.
      * right. by cbn.
    + intros st'. apply no_step_without_listener.
      inversion Hstep as [st0 k stream t_valid t_set Hk|st0 k stream Hk]; subst;
        destruct k; simpl in Hk; try done; injection Hk as <-; by cbn.
Qed.

(** C7 (what the code does).  When [targetFolder] does not exist or is
    not a directory the constructor throws at once, before any chunk is
    made, but the exception is a [TypeError]: inside [catch (err)] the
    name [err] is the caught exception, which has no
    [UndefinedTargetFolder] constructor. *)
Theorem SitemapIndex_invalid_targetFolder fs allUrls targetFolder hostname
    cacheTime sitemapName sitemapSize xslUrl gzip callback σ :
  fs targetFolder ≠ Some true →
  SitemapIndex fs allUrls targetFolder hostname cacheTime sitemapName sitemapSize
    xslUrl gzip callback σ
  = Throw (TypeError "err.UndefinedTargetFolder is not a constructor").
Proof.
  intros Hfs. unfold SitemapIndex, check_targetFolder, statSync_isDirectory.
  destruct (fs targetFolder) as [[|]|]; done.
Qed.

End empty_and_invalid.

Section normalizer_facts.
Context `{Collaborators}.
Implicit Types (σ : store) (m : gmap loc subrec) (ls : list loc) (h : string).

Lemma set_subs_id σ : set_subs σ (subs σ) = σ.
Proof. by destruct σ. Qed.

Lemma joined_sub_absolute h o :
  reProto_test (sub_url o) = true → joined_sub h o = o.
Proof.
  intros Habs. unfold joined_sub, join_relative. rewrite Habs. by destruct o.
Qed.

Lemma insert_joined_alter h l o m :
  m !! l = Some o → <[l := joined_sub h o]> m = alter (joined_sub h) l m.
Proof.
  intros Ho. apply map_eq. intros j.
  rewrite lookup_insert, lookup_alter. case_decide; subst; by rewrite ?Ho.
Qed.

(** One run of the callback of the inner loops. *)
Lemma join_sub_run h l σ o :
  subs σ !! l = Some o →
  join_sub h l σ = (Ret tt, set_subs σ (alter (joined_sub h) l (subs σ))).
Proof.
  intros Ho. rewrite <- (insert_joined_alter h l o) by done.
  unfold join_sub, bind, get_sub. rewrite Ho.
  destruct (reProto_test (sub_url o)) eqn:Habs.
  - rewrite joined_sub_absolute by done. rewrite insert_id by done.
    by rewrite set_subs_id.
  - unfold put_sub_url. rewrite Ho. unfold joined_sub, join_relative.
    by rewrite Habs.
Qed.

Lemma join_all_is_Some h ls m l :
  is_Some (join_all h ls m !! l) ↔ is_Some (m !! l).
Proof.
  revert m. induction ls as [|l' ls IH]; intros m; [done|].
  simpl. rewrite IH, lookup_alter. case_decide; subst; [|done].
  by rewrite fmap_is_Some.
Qed.

Lemma join_all_other h ls m l :
  l ∉ ls → join_all h ls m !! l = m !! l.
Proof.
  revert m. induction ls as [|l' ls IH]; intros m Hnot; [done|].
  apply not_elem_of_cons in Hnot as [Hne Hnot]. simpl.
  rewrite IH by done. by rewrite lookup_alter_ne.
Qed.

Lemma join_all_once h ls m l :
  NoDup ls → l ∈ ls → join_all h ls m !! l = joined_sub h <$> m !! l.
Proof.
  revert m. induction ls as [|l' ls IH]; intros m Hnd Hin.
  - by apply elem_of_nil in Hin.
  - apply NoDup_cons in Hnd as [Hnot Hnd]. simpl.
    apply elem_of_cons in Hin as [->|Hin].
    + rewrite join_all_other by done. by rewrite lookup_alter_eq.
    + rewrite IH by done. rewrite lookup_alter_ne; [done|].
      intros ->. done.
Qed.

Lemma join_all_app h ls1 ls2 m :
  join_all h (ls1 ++ ls2) m = join_all h ls2 (join_all h ls1 m).
Proof. apply foldl_app. Qed.

Lemma forEach_join_sub h ls σ :
  (∀ l, l ∈ ls → is_Some (subs σ !! l)) →
  forEach (join_sub h) ls σ = (Ret tt, set_subs σ (join_all h ls (subs σ))).
Proof.
  revert σ. induction ls as [|l ls IH]; intros σ Hin.
  - simpl. by rewrite set_subs_id.
  - destruct (Hin l) as [o Ho]; [by left|].
    cbn [forEach]. unfold bind. rewrite (join_sub_run h l σ o Ho).
    rewrite IH; [done|].
    intros l' Hl'. cbn [subs set_subs]. rewrite lookup_alter.
    case_decide; subst; [by rewrite Ho|]. apply Hin. by right.
Qed.

End normalizer_facts.

Section make_smi_facts.
Context `{Collaborators}.
Implicit Types (σ : store) (it smi : item) (e : elem).

Lemma item_ok_wf σ it : item_ok σ it = true → item_wf σ it.
Proof.
  unfold item_ok, item_wf. rewrite andb_true_iff, forallb_forall.
  intros [Hall Hobj]. split.
  - intros l Hl%list_elem_of_In. apply Hall in Hl. by apply bool_decide_eq_true in Hl.
  - intros l o Himg Ho. by rewrite Himg, Ho in Hobj.
Qed.

Lemma entry_item_run e σ it (k : item → M item) :
  entry_item σ e = Some it →
  bind (match e with
        | ElemStr s => ret {| url := s; img := None; links := None; meta := [] |}
        | ElemObj l => get_item l
        end) k σ = k it σ.
Proof.
  destruct e as [s|l]; simpl; intros Hit.
  - by injection Hit as <-.
  - unfold bind, get_item. by rewrite Hit.
Qed.

(** Without a hostname the entry is handed on as it is and the store is
    not touched. *)
Lemma make_smi_no_hostname hostname e σ it :
  opt_truthy hostname = false → entry_item σ e = Some it →
  make_smi hostname e σ = (Ret it, σ).
Proof.
  intros Hh Hit. unfold make_smi. rewrite (entry_item_run e σ it) by done.
  by rewrite Hh.
Qed.

Lemma bind_run {A B} (m : M A) (k : A → M B) σ a σ' :
  m σ = (Ret a, σ') → bind m k σ = k a σ'.
Proof. intros Hm. unfold bind. by rewrite Hm. Qed.

(** The image block. *)
Lemma join_img_run h smi v σ :
  img smi = Some v →
  (∀ l, l ∈ img_locs smi → is_Some (subs σ !! l)) →
  (∀ l o, v = ImgObj l → subs σ !! l = Some o → length_undefined o = true) →
  let '(v', m0, ls) := img_promoted σ (Some v) in
  join_img h smi v σ
  = (Ret {| url := url smi; img := v'; links := links smi; meta := meta smi |},
     set_subs σ (join_all h ls m0)).
Proof.
  intros Himg Hin Hobj. unfold img_locs in Hin. rewrite Himg in Hin.
  unfold img_promoted, join_img. destruct v as [s|l1|ls1]; cbn [img_truthy].
  - destruct (str_truthy s) eqn:Hs.
    + unfold bind, new_sub. cbn [ret].
      set (l := fresh (dom (subs σ))).
      rewrite forEach_join_sub; [done|].
      intros l' ->%list_elem_of_singleton. cbn [subs set_subs].
      rewrite lookup_insert_eq. eauto.
    + cbn [ret join_all foldl]. rewrite set_subs_id.
      by destruct smi; simpl in *; subst.
  - destruct (Hin l1) as [o Ho]; [by left|].
    unfold bind, get_sub. cbn [ret]. rewrite Ho, (Hobj l1 o eq_refl Ho).
    cbn [ret]. by rewrite forEach_join_sub.
  - unfold bind. cbn [ret]. by rewrite forEach_join_sub.
Qed.

(** The links block. *)
Lemma join_links_run h smi σ :
  (∀ l, l ∈ links_locs smi → is_Some (subs σ !! l)) →
  (match links smi with
   | Some ls => let* _ := forEach (join_sub h) ls in ret smi
   | None => ret smi
   end) σ = (Ret smi, set_subs σ (join_all h (links_locs smi) (subs σ))).
Proof.
  intros Hin. unfold links_locs in *. destruct (links smi) as [ls|].
  - unfold bind. by rewrite forEach_join_sub.
  - cbn [ret join_all foldl]. by rewrite set_subs_id.
Qed.

Lemma img_promoted_is_Some σ v l :
  is_Some (subs σ !! l) → is_Some ((img_promoted σ v).1.2 !! l).
Proof.
  intros Hl. destruct v as [[s|l1|ls1]|]; simpl; try done.
  destruct (str_truthy s); simpl; [|done].
  rewrite lookup_insert. by case_decide.
Qed.

(** With a hostname: the object handed to [SitemapItem] and the store
    left behind. *)
Lemma make_smi_hostname hostname e σ it :
  opt_truthy hostname = true → entry_item σ e = Some it → item_wf σ it →
  let h := js_str hostname in
  let '(v, m0, ls) := img_promoted σ (img it) in
  make_smi hostname e σ
  = (Ret {| url := join_relative h (url it); img := v; links := links it;
            meta := meta it |},
     set_subs σ (join_all h (ls ++ links_locs it) m0)).
Proof.
  intros Hh Hit [Hin Hobj]. cbv zeta.
  unfold make_smi. rewrite (entry_item_run e σ it) by done. rewrite Hh.
  assert (Hurl : (if reProto_test (url it) then it
                  else set_url it (urljoin (js_str hostname) (url it)))
                 = set_url it (join_relative (js_str hostname) (url it))).
  { unfold join_relative. destruct (reProto_test (url it)); [by destruct it|done]. }
  rewrite Hurl. clear Hurl. cbn [img set_url].
  set (smi0 := set_url it (join_relative (js_str hostname) (url it))).
  pose proof (img_promoted_is_Some σ (img it)) as Hkeep.
  destruct (img it) as [v|] eqn:Himg.
  - pose proof (join_img_run (js_str hostname) smi0 v σ) as Hrun.
    destruct (img_promoted σ (Some v)) as [[v' m0] ls] eqn:Hprom.
    erewrite bind_run; cycle 1.
    { apply Hrun; [done| |].
      - intros l Hl. apply Hin. apply elem_of_app. left.
        exact Hl.
      - intros l o ->. by apply Hobj. }
    pose proof (join_links_run (js_str hostname)
                  {| url := url smi0; img := v'; links := links smi0;
                     meta := meta smi0 |}
                  (set_subs σ (join_all (js_str hostname) ls m0))) as Hl.
    rewrite Hl; cycle 1.
    { intros l Hll. cbn [subs set_subs]. apply join_all_is_Some.
      apply (Hkeep l). apply Hin. apply elem_of_app. by right. }
    cbn [subs set_subs]. by rewrite join_all_app.
  - cbn [img_promoted]. erewrite bind_run by reflexivity.
    pose proof (join_links_run (js_str hostname) smi0 σ) as Hl.
    rewrite Hl; cycle 1.
    { intros l Hll. apply Hin. apply elem_of_app. by right. }
    subst smi0. unfold set_url. by rewrite Himg.
Qed.

End make_smi_facts.

Lemma lstrip_slash_spec s :
  ∃ k, s = slashes k +:+ lstrip_slash s ∧ starts_with_slash (lstrip_slash s) = false.
Proof.
  induction s as [|c s (k & Heq & Hno)].
  - by exists 0.
  - destruct (Ascii.eqb_spec c "/") as [->|Hne].
    + exists (S k). cbn [slashes lstrip_slash]. rewrite append_cons.
      split; [by f_equal|done].
    + exists 0. split; [|]; cbn.
      * destruct c as [[] [] [] [] [] [] [] []]; try done.
      * destruct c as [[] [] [] [] [] [] [] []]; try done.
Qed.

Lemma rstrip_slash_spec s :
  ∃ k, s = rstrip_slash s +:+ slashes k ∧ ends_with_slash (rstrip_slash s) = false.
Proof.
  induction s as [|c s (k & Heq & Hno)].
  - by exists 0.
  - cbn [rstrip_slash]. destruct (rstrip_slash s) as [|c' r] eqn:Hr.
    + destruct (Ascii.eqb_spec c "/") as [->|Hne].
      * exists (S k). cbn [slashes]. rewrite append_empty_l in *.
        split; [by f_equal|done].
      * exists k. rewrite append_cons. split; [by f_equal|].
        by apply Ascii.eqb_neq.
    + exists k. rewrite append_cons. split; [by f_equal|].
      exact Hno.
Qed.

Section normalizer_claims.
Context `{Collaborators}.

(** C2.  For an entry whose primary url is [u] and a configured
    hostname, the object handed to [SitemapItem] keeps [u] when [u]
    matches [^https?://] whatever the case of its letters; when [u] is
    relative its url is the hostname without its trailing slashes, one
    slash, and [u] without its leading slashes; and when no hostname is
    configured the entry and the store (so every url, primary or
    nested) are passed on unchanged.  The join is that of [url-join] as
    the specification describes it. *)
Theorem make_smi_primary_url hostname e σ it :
  (∀ a b, urljoin a b = urljoin_spec a b) →
  entry_item σ e = Some it → item_ok σ it = true →
  ∃ smi σ',
    make_smi hostname e σ = (Ret smi, σ') ∧
    (reProto_test (url it) = true → url smi = url it) ∧
    (opt_truthy hostname = true → reProto_test (url it) = false →
       ∃ base path i j,
         js_str hostname = base +:+ slashes i ∧
         url it = slashes j +:+ path ∧
         ends_with_slash base = false ∧
         starts_with_slash path = false ∧
         url smi = base +:+ "/" +:+ path) ∧
    (opt_truthy hostname = false → smi = it ∧ σ' = σ).
Proof.
  intros Hjoin Hit Hok%item_ok_wf. destruct (opt_truthy hostname) eqn:Hh.
  - pose proof (make_smi_hostname hostname e σ it Hh Hit Hok) as Hrun.
    cbv zeta in Hrun. destruct (img_promoted σ (img it)) as [[v m0] ls].
    eexists. eexists. split; [exact Hrun|]. cbn [url].
    unfold join_relative. split; [by intros ->|]. split; [|done].
    intros _ Hrel. rewrite Hrel, Hjoin. unfold urljoin_spec.
    destruct (rstrip_slash_spec (js_str hostname)) as (i & Hbase & Hend).
    destruct (lstrip_slash_spec (url it)) as (j & Hpath & Hstart).
    by exists (rstrip_slash (js_str hostname)), (lstrip_slash (url it)), i, j.
  - exists it, σ. split; [by apply make_smi_no_hostname|].
    split; [done|]. split; [done|]. done.
Qed.

(** C8 (amended).  When a hostname is configured and the sub-records of
    the entry are distinct objects: an [img] that is a non-empty string
    [s] becomes the array of one new object [{url: s}] with the url rule
    applied; an [img] that is a single object (without a [length]
    property) becomes the array of that one object; and every object of
    the array gets the url rule applied, the same rule as the primary
    url: absolute urls are kept and relative ones are joined to the
    hostname. *)
Theorem make_smi_images hostname e σ it :
  opt_truthy hostname = true →
  entry_item σ e = Some it → item_ok σ it = true →
  NoDup (img_locs it ++ links_locs it) →
  let h := js_str hostname in
  ∃ smi σ',
    make_smi hostname e σ = (Ret smi, σ') ∧
    url smi = join_relative h (url it) ∧
    match img it with
    | Some (ImgStr s) =>
        str_truthy s = true →
        ∃ l, subs σ !! l = None ∧
             img smi = Some (ImgArr [l]) ∧
             subs σ' !! l = Some {| sub_url := join_relative h s; sub_attrs := [] |}
    | Some (ImgObj l) =>
        img smi = Some (ImgArr [l]) ∧
        ∃ o, subs σ !! l = Some o ∧ subs σ' !! l = Some (joined_sub h o)
    | Some (ImgArr ls) =>
        img smi = Some (ImgArr ls) ∧
        ∀ l, l ∈ ls →
             ∃ o, subs σ !! l = Some o ∧ subs σ' !! l = Some (joined_sub h o)
    | None => img smi = None
    end.
Proof.
  intros Hh Hit Hok%item_ok_wf Hnd. cbv zeta.
  pose proof (make_smi_hostname hostname e σ it Hh Hit Hok) as Hrun.
  cbv zeta in Hrun. destruct Hok as [Hin Hobj].
  unfold img_promoted in Hrun. unfold img_locs in Hnd, Hin.
  destruct (img it) as [[s|l1|ls1]|] eqn:Himg.
  - destruct (str_truthy s) eqn:Hs.
    + eexists. eexists. split; [exact Hrun|]. split; [done|]. intros _.
      set (l := fresh (dom (subs σ))).
      assert (Hfresh : subs σ !! l = None).
      { apply not_elem_of_dom. apply is_fresh. }
      exists l. split; [done|]. split; [done|]. cbn [subs set_subs].
      rewrite join_all_once.
      * by rewrite lookup_insert_eq.
      * apply NoDup_app. split; [apply NoDup_singleton|]. split; [|done].
        intros l' ->%list_elem_of_singleton Hl'.
        destruct (Hin l Hl') as [o Ho]. by rewrite Hfresh in Ho.
      * apply elem_of_app. left. by left.
    + eexists. eexists. split; [exact Hrun|]. split; [done|]. by intros.
  - eexists. eexists. split; [exact Hrun|]. split; [done|]. split; [done|].
    destruct (Hin l1) as [o Ho]; [apply elem_of_app; left; by left|].
    exists o. split; [done|]. cbn [subs set_subs].
    rewrite join_all_once; [by rewrite Ho|done|].
    apply elem_of_app. left. by left.
  - eexists. eexists. split; [exact Hrun|]. split; [done|]. split; [done|].
    intros l Hl.
    destruct (Hin l) as [o Ho]; [apply elem_of_app; by left|].
    exists o. split; [done|]. cbn [subs set_subs].
    rewrite join_all_once; [by rewrite Ho|done|].
    apply elem_of_app. by left.
  - eexists. eexists. split; [exact Hrun|]. by split.
Qed.

(** What [toString] never writes: the entry objects themselves. *)
Lemma make_smi_items hostname e σ it :
  entry_item σ e = Some it → item_wf σ it →
  items (make_smi hostname e σ).2 = items σ.
Proof.
  intros Hit Hok. destruct (opt_truthy hostname) eqn:Hh.
  - pose proof (make_smi_hostname hostname e σ it Hh Hit Hok) as Hrun.
    cbv zeta in Hrun. destruct (img_promoted σ (img it)) as [[v m0] ls].
    by rewrite Hrun.
  - by rewrite (make_smi_no_hostname hostname e σ it).
Qed.

End normalizer_claims.

Section cache_claims.
Context `{Collaborators}.

Lemma str_truthy_iff s : str_truthy s = true ↔ s ≠ EmptyString.
Proof. by destruct s. Qed.

Lemma isCacheValid_set_root sm r now :
  isCacheValid (set_root sm r) now = isCacheValid sm now.
Proof. reflexivity. Qed.

(** A cache hit returns the cached string and leaves cache and store
    alone. *)
Lemma toString_hit sm now t_set σ :
  isCacheValid sm now = true →
  toString sm now t_set σ = (Ret (cache sm, set_root sm (toString_root sm)), σ).
Proof.
  intros Hvalid. unfold toString. by rewrite isCacheValid_set_root, Hvalid.
Qed.

(** Whatever a render returns is what the cache holds afterwards. *)
Lemma toString_cache sm t_valid t_set σ out sm' σ' :
  toString sm t_valid t_set σ = (Ret (out, sm'), σ') →
  cache sm' = out ∧ cacheResetPeriod sm' = cacheResetPeriod sm ∧
  (isCacheValid sm t_valid = false → cacheSetTimestamp sm' = Some t_set).
Proof.
  unfold toString. rewrite isCacheValid_set_root.
  destruct (isCacheValid sm t_valid) eqn:Hvalid.
  - intros [= <- <- <-]. done.
  - unfold bind.
    destruct (toString_urls _ _ _ σ) as [[r'|err] σ1]; [|done].
    intros [= <- <- <-]. done.
Qed.


End cache_claims.

Section del_facts.
Context `{Collaborators}.

Lemma del_matches_run key σ e :
  elems_ok σ [e] → del_matches key e σ = (Ret (matches_key key σ e), σ).
Proof.
  intros Hok. destruct e as [s|l]; [done|].
  destruct (Hok l) as [it Hit]; [by left|].
  unfold del_matches, matches_key, bind, get_item. by rewrite Hit.
Qed.

Lemma del_find_run key σ array index index_to_remove :
  elems_ok σ array →
  del_find key array index index_to_remove σ
  = (Ret (index_to_remove ++ matching_indices key σ array index), σ).
Proof.
  revert index index_to_remove.
  induction array as [|e rest IH]; intros index index_to_remove Hok.
  - simpl. by rewrite app_nil_r.
  - cbn [del_find matching_indices]. unfold bind.
    rewrite del_matches_run; cycle 1.
    { intros l Hl%list_elem_of_singleton. apply Hok. rewrite Hl. by left. }
    rewrite IH; cycle 1.
    { intros l Hl. apply Hok. by right. }
    destruct (matches_key key σ e); by rewrite <- ?app_assoc.
Qed.

Lemma matching_indices_length key σ array index :
  length (matching_indices key σ array index)
  = length (filter (λ e, matches_key key σ e = true) array).
Proof.
  revert index. induction array as [|e rest IH]; intros index; [done|].
  cbn [matching_indices]. rewrite length_app, IH, filter_cons.
  by destruct (matches_key key σ e).
Qed.

(** What [del] gets right: it returns the number of entries whose url is
    the key. *)
Lemma del_returns_match_count sm key σ :
  elems_ok σ (urls sm) →
  ∃ sm', del sm (ElemStr key) σ
         = (Ret (length (filter (λ e, matches_key key σ e = true) (urls sm)), sm'), σ).
Proof.
  intros Hok. unfold del. eexists.
  erewrite bind_run by reflexivity. erewrite bind_run by (by apply del_find_run).
  cbn [ret app]. by rewrite matching_indices_length.
Qed.

End del_facts.

(** ** The code on concrete inputs *)

(** C3 (what the code does).  After two [add]s of ['page1'] to an empty
    sitemap, [del('page1')] returns 2 but one ['page1'] is still there:
    the second [splice] uses an index found before the first one shifted
    the array. *)
Lemma del_after_two_adds :
  match new_Sitemap UrlsUndefined None None None None with
  | Throw _ => False
  | Ret sm0 =>
      let sm2 := (add (add sm0 (ElemStr "page1")).2 (ElemStr "page1")).2 in
      urls sm2 = [ElemStr "page1"; ElemStr "page1"] ∧
      ∃ sm3, del sm2 (ElemStr "page1") no_objects = (Ret (2, sm3), no_objects) ∧
             urls sm3 = [ElemStr "page1"]
  end.
Proof. simpl. split; [reflexivity|]. eexists. split; reflexivity. Qed.

(** The same slip removes an entry that does not match: from
    [['a', 'a', 'b']], [del('a')] leaves [['a']]. *)
Lemma del_removes_other_entry :
  match new_Sitemap (UrlsArray [ElemStr "a"; ElemStr "a"; ElemStr "b"])
          None None None None with
  | Throw _ => False
  | Ret sm =>
      ∃ sm', del sm (ElemStr "a") no_objects = (Ret (2, sm'), no_objects) ∧
             urls sm' = [ElemStr "a"]
  end.
Proof. simpl. eexists. split; reflexivity. Qed.

(** C9 (what the code does).  A render with a hostname rewrites the urls
    of the caller's image and link objects in the store: the entry object
    itself is copied, its sub-records are not. *)
Lemma toString_mutates_sub_record :
  let σ := img_and_link_store in
  match new_Sitemap (UrlsArray [ElemObj 1%positive]) (Some "https://example.com")
          None None None with
  | Throw _ => False
  | Ret sm =>
      match toString sm 0 0 σ with
      | (Throw _, _) => False
      | (Ret _, σ') =>
          subs σ !! 2%positive = Some {| sub_url := "/a.png"; sub_attrs := [] |} ∧
          subs σ' !! 2%positive
            = Some {| sub_url := "https://example.com/a.png"; sub_attrs := [] |} ∧
          subs σ !! 3%positive
            = Some {| sub_url := "/fr/p"; sub_attrs := [("lang", "fr")] |} ∧
          subs σ' !! 3%positive
            = Some {| sub_url := "https://example.com/fr/p";
                      sub_attrs := [("lang", "fr")] |} ∧
          items σ' = items σ
      end
  end.
Proof. vm_compute. repeat split; reflexivity. Qed.

(** C8 (counterexample).  Without a hostname an [img] string is handed on
    as a string, not as an array of one object. *)
Lemma make_smi_images_no_hostname :
  let σ := one_entry_store (ImgStr "x.png") in
  ∃ smi, make_smi None (ElemObj 1%positive) σ = (Ret smi, σ) ∧
         img smi = Some (ImgStr "x.png") ∧
         ¬ ∃ l, img smi = Some (ImgArr [l]).
Proof.
  eexists. split; [reflexivity|]. split; [reflexivity|].
  intros [l Hl]. discriminate Hl.
Qed.

(** A whole run for three urls in chunks of two: the index stream opens
    first, the chunk streams after it in reverse order; the callback is
    called once, at the last write. *)
Lemma SitemapIndex_run_example :
  ∃ init st,
    SitemapIndex tmp_fs (UrlsArray three_urls) "/tmp" (Some "https://example.com")
      None None 2 None false true no_objects = Ret init ∧
    steps false init st ∧
    map fst (written st)
      = ["/tmp/sitemap-index.xml"; "/tmp/sitemap-1.xml"; "/tmp/sitemap-0.xml"] ∧
    calls st = [(None, true)] ∧
    processesCount st = 0%Z.
Proof.
  eexists. eexists. split; [reflexivity|]. split.
  - eapply steps_step; [eapply steps_step; [eapply steps_step; [apply steps_refl|]|]|].
    + eapply (step_open _ _ 2 _ 0%Z 0%Z). reflexivity.
    + eapply (step_open _ _ 1 _ 0%Z 0%Z). reflexivity.
    + eapply (step_open _ _ 0 _ 0%Z 0%Z). reflexivity.
  - vm_compute. split; [reflexivity|]. split; reflexivity.
Qed.

(** *** The theorems at concrete inputs *)


(** C6 (counterexample).  The callback does not wait for the writes: for
    an empty url list the [open] listener of the index stream hands the
    document to [stream.write], brings the counter to zero and calls the
    callback in one turn, when no write has reached its file; and with
    two chunks the callback is called when all three writes are issued
    and none has completed. *)
Lemma SitemapIndex_callback_before_completion :
  (∃ init s,
     SitemapIndex tmp_fs (UrlsArray []) "/tmp" (Some "https://example.com")
       None None 2 None false true no_objects = Ret init ∧
     io_steps false {| io_loop := init; io_done := [] |} s ∧
     calls (io_loop s) = [(None, true)] ∧ processesCount (io_loop s) = 0%Z ∧
     length (written (io_loop s)) = 1 ∧ io_done s = []) ∧
  (∃ init s,
     SitemapIndex tmp_fs (UrlsArray three_urls) "/tmp" (Some "https://example.com")
       None None 2 None false true no_objects = Ret init ∧
     io_steps false {| io_loop := init; io_done := [] |} s ∧
     calls (io_loop s) = [(None, true)] ∧ processesCount (io_loop s) = 0%Z ∧
     length (written (io_loop s)) = 3 ∧ io_done s = []).
Proof.
  split.
  - eexists. eexists. split; [by rewrite SitemapIndex_ok|]. split.
    + eapply io_steps_step; [apply io_steps_refl|].
      apply io_listener. cbn [io_loop].
      eapply (step_open _ _ 0 _ 0%Z 0%Z). reflexivity.
    + cbn [io_loop io_done]. repeat split; reflexivity.
  - eexists. eexists. split; [by rewrite SitemapIndex_ok|]. split.
    + eapply io_steps_step.
      * eapply io_steps_step.
        -- eapply io_steps_step; [apply io_steps_refl|].
           apply io_listener. cbn [io_loop].
           eapply (step_open _ _ 0 _ 0%Z 0%Z). reflexivity.
        -- apply io_listener. cbn [io_loop].
           eapply (step_open _ _ 0 _ 0%Z 0%Z). reflexivity.
      * apply io_listener. cbn [io_loop].
        eapply (step_open _ _ 0 _ 0%Z 0%Z). reflexivity.
    + cbn [io_loop io_done]. repeat split; reflexivity.
Qed.


Lemma SitemapIndex_partition_witness :
  (0 < 2)%nat ∧ tmp_fs "/tmp" = Some true ∧
  ∃ st, SitemapIndex tmp_fs (UrlsArray three_urls) "/tmp" (Some "https://example.com")
          None None 2 None false true no_objects = Ret st ∧
        length (si_chunks (self st)) = 2 ∧
        concat (si_chunks (self st)) = three_urls.
Proof.
  split; [lia|]. split; [reflexivity|].
  destruct (SitemapIndex_partition tmp_fs three_urls "/tmp" (Some "https://example.com")
              None None 2 None false true no_objects)
    as (st & Hst & Hlen & _ & Hcat & _); [lia|reflexivity|].
  exists st. split; [exact Hst|]. split; [exact Hlen|exact Hcat].
Defined.

Lemma SitemapIndex_filenames_witness :
  tmp_fs "/tmp" = Some true ∧
  ∃ st xmlString lines,
    SitemapIndex tmp_fs (UrlsArray three_urls) "/tmp" (Some "https://example.com")
      None None 2 None true true no_objects = Ret st ∧
    si_sitemaps (self st) !! 1 = Some "sitemap-1.xml.gz" ∧
    listeners st !! 2 = Some {| ws_path := "/tmp/sitemap-index.xml";
                                ws_open := OpenIndex xmlString |} ∧
    xmlString = join newline lines ∧
    loc_lines lines = ["<loc>https://example.com/sitemap-0.xml.gz</loc>";
                       "<loc>https://example.com/sitemap-1.xml.gz</loc>"].
Proof.
  split; [reflexivity|].
  destruct (SitemapIndex_filenames tmp_fs (UrlsArray three_urls) "/tmp"
              (Some "https://example.com") None None 2 None true true no_objects)
    as (st & xml & Hst & Hname & _ & Hfiles & _ & (lines & Hxml & Hloc & _) & Hindex & _);
    [reflexivity|].
  exists st, xml, lines. split; [exact Hst|].
  assert (Hstate : st = SitemapIndex_state (UrlsArray three_urls) "/tmp"
                          (Some "https://example.com") None 2 None true true no_objects).
  { rewrite SitemapIndex_ok in Hst by reflexivity. by injection Hst as <-. }
  assert (Hc : si_chunks (self st) !! 1 = Some [ElemStr "c"]) by (by rewrite Hstate).
  destruct (Hfiles 1 _ Hc) as [Hfile _].
  split; [by rewrite Hfile, Hname|].
  split.
  - rewrite Hstate in Hindex. rewrite Hstate. exact (eq_trans Hindex eq_refl).
  - split; [exact Hxml|]. rewrite Hloc, Hstate. reflexivity.
Defined.

Lemma SitemapIndex_completion_witness :
  tmp_fs "/tmp" = Some true ∧
  ∃ init, SitemapIndex tmp_fs (UrlsArray three_urls) "/tmp" (Some "https://example.com")
            None None 2 None false true no_objects = Ret init ∧
          processesCount init = 3%Z ∧
          (∀ st, steps false init st → calls st = [] ∨ calls st = [(None, true)]) ∧
          (∀ k stream sitemap,
             listeners init !! k = Some stream → ws_open stream = OpenChunk sitemap →
             ∀ t_valid t_set σ0, ∃ res σ',
               chunk_data false sitemap t_valid t_set σ0 = (Ret res, σ')) ∧
          ∃ st, steps false init st ∧ processesCount st = 0%Z ∧
                length (written st) = 3 ∧ calls st = [(None, true)].
Proof.
  split; [reflexivity|].
  destruct (SitemapIndex_completion tmp_fs (UrlsArray three_urls) "/tmp"
              (Some "https://example.com") None None 2 None false true no_objects)
    as (init & Hinit & Hcount & _ & _ & Hreach & Hlive); [reflexivity|].
  assert (Hstate : init = SitemapIndex_state (UrlsArray three_urls) "/tmp"
                            (Some "https://example.com") None 2 None false true
                            no_objects).
  { rewrite SitemapIndex_ok in Hinit by reflexivity. by injection Hinit as <-. }
  assert (Hrender : ∀ k stream sitemap,
            listeners init !! k = Some stream → ws_open stream = OpenChunk sitemap →
            ∀ t_valid t_set σ0, ∃ res σ',
              chunk_data false sitemap t_valid t_set σ0 = (Ret res, σ')).
  { rewrite Hstate. intros k stream sitemap Hk Hopen t_valid t_set σ0.
    destruct k as [|[|[|k]]]; vm_compute in Hk; try discriminate Hk;
      injection Hk as <-; vm_compute in Hopen; try discriminate Hopen;
      injection Hopen as <-; eexists; eexists; reflexivity. }
  exists init. split; [exact Hinit|]. split.
  { rewrite Hcount, Hstate. reflexivity. }
  split.
  { intros st Hst. by destruct (Hreach st Hst) as (_ & Hcalls & _). }
  split; [exact Hrender|].
  destruct (Hlive Hrender) as (st & Hst & _ & _ & Hzero & Hlen & Hcalls).
  exists st. split; [exact Hst|]. split; [exact Hzero|]. split.
  - rewrite Hlen, Hstate. reflexivity.
  - exact (Hcalls eq_refl).
Defined.

Lemma SitemapIndex_empty_witness :
  tmp_fs "/tmp" = Some true ∧
  ∃ init, SitemapIndex tmp_fs (UrlsArray []) "/tmp" (Some "https://example.com")
            None None 2 None false true no_objects = Ret init ∧
          processesCount init = 1%Z ∧
          map ws_path (listeners init) = ["/tmp/sitemap-index.xml"].
Proof.
  split; [reflexivity|].
  destruct (SitemapIndex_empty tmp_fs "/tmp" (Some "https://example.com")
              None None 2 None false no_objects)
    as (init & xml & lines & Hinit & _ & _ & Hcount & Hl & _); [reflexivity|].
  exists init. split; [exact Hinit|]. split; [exact Hcount|].
  rewrite Hl. reflexivity.
Defined.

Lemma SitemapIndex_invalid_targetFolder_witness :
  tmp_fs "/tmp2" ≠ Some true ∧
  SitemapIndex tmp_fs (UrlsArray three_urls) "/tmp2" (Some "https://example.com")
    None None 2 None false true no_objects
  = Throw (TypeError "err.UndefinedTargetFolder is not a constructor").
Proof.
  assert (Hfs : tmp_fs "/tmp2" ≠ Some true) by (vm_compute; discriminate).
  split; [exact Hfs|].
  by apply (SitemapIndex_invalid_targetFolder tmp_fs (UrlsArray three_urls) "/tmp2").
Defined.

Lemma make_smi_primary_url_witness :
  (∀ a b, urljoin a b = urljoin_spec a b) ∧
  entry_item no_objects (ElemStr "/page1")
    = Some {| url := "/page1"; img := None; links := None; meta := [] |} ∧
  item_ok no_objects {| url := "/page1"; img := None; links := None; meta := [] |} = true ∧
  ∃ smi σ', make_smi (Some "https://example.com/") (ElemStr "/page1") no_objects
              = (Ret smi, σ') ∧
            url smi = "https://example.com/page1".
Proof.
  split; [reflexivity|]. split; [reflexivity|]. split; [reflexivity|].
  destruct (make_smi_primary_url (Some "https://example.com/") (ElemStr "/page1")
              no_objects {| url := "/page1"; img := None; links := None; meta := [] |})
    as (smi & σ' & Hrun & _ & Hrel & _); [reflexivity|reflexivity|reflexivity|].
  exists smi, σ'. split; [exact Hrun|].
  assert (Hsame : make_smi (Some "https://example.com/") (ElemStr "/page1") no_objects
                  = (Ret {| url := "https://example.com/page1"; img := None;
                            links := None; meta := [] |}, no_objects))
    by reflexivity.
  rewrite Hsame in Hrun. by injection Hrun as <- <-.
Defined.

Lemma make_smi_images_witness :
  let σ := one_entry_store (ImgObj 2%positive) in
  let it := {| url := "/p"; img := Some (ImgObj 2%positive); links := None; meta := [] |} in
  opt_truthy (Some "https://example.com") = true ∧
  entry_item σ (ElemObj 1%positive) = Some it ∧
  item_ok σ it = true ∧
  NoDup (img_locs it ++ links_locs it) ∧
  ∃ smi σ', make_smi (Some "https://example.com") (ElemObj 1%positive) σ = (Ret smi, σ') ∧
            img smi = Some (ImgArr [2%positive]).
Proof.
  intros σ it.
  assert (Hnd : NoDup (img_locs it ++ links_locs it)) by (apply NoDup_singleton).
  split; [reflexivity|]. split; [reflexivity|]. split; [reflexivity|]. split; [exact Hnd|].
  destruct (make_smi_images (Some "https://example.com") (ElemObj 1%positive) σ it)
    as (smi & σ' & Hrun & _ & Himg & _); [reflexivity|reflexivity|reflexivity|exact Hnd|].
  by exists smi, σ'.
Defined.


(** * Further properties of the code *)

(** ** [Sitemap.prototype.del] and [add] *)

Section del_more.
Context `{Collaborators}.

Lemma matching_indices_app key σ a b index :
  matching_indices key σ (a ++ b) index
  = matching_indices key σ a index ++ matching_indices key σ b (index + length a).
Proof.
  revert index. induction a as [|e a IH]; intros index.
  - simpl. by rewrite Nat.add_0_r.
  - cbn [app matching_indices length]. rewrite IH, <- app_assoc.
    do 2 f_equal. f_equal. lia.
Qed.

Lemma matching_indices_none key σ array index :
  (∀ e, e ∈ array → matches_key key σ e = false) →
  matching_indices key σ array index = [].
Proof.
  revert index. induction array as [|e array IH]; intros index Hno; [done|].
  cbn [matching_indices]. rewrite (Hno e) by (by left).
  apply IH. intros e' He'. apply Hno. by right.
Qed.

Lemma matching_indices_ge key σ array index i :
  i ∈ matching_indices key σ array index → (index ≤ i)%nat.
Proof.
  revert index. induction array as [|e array IH]; intros index Hi.
  - by apply elem_of_nil in Hi.
  - cbn [matching_indices] in Hi. apply elem_of_app in Hi as [Hi|Hi].
    + destruct (matches_key key σ e); [|by apply elem_of_nil in Hi].
      apply list_elem_of_singleton in Hi. lia.
    + apply IH in Hi. lia.
Qed.

(** [del] with a string key, in one equation. *)
Lemma del_run sm key σ :
  elems_ok σ (urls sm) →
  del sm (ElemStr key) σ
  = (Ret (length (matching_indices key σ (urls sm) 0),
          set_urls sm (foldl (λ us index, splice1 index us) (urls sm)
                         (matching_indices key σ (urls sm) 0))), σ).
Proof.
  intros Hok. unfold del.
  erewrite bind_run by reflexivity. erewrite bind_run by (by apply del_find_run).
  reflexivity.
Qed.

Lemma set_urls_id sm : set_urls sm (urls sm) = sm.
Proof. by destruct sm. Qed.

Lemma splice1_middle {A} (pre post : list A) x :
  splice1 (length pre) (pre ++ x :: post) = pre ++ post.
Proof.
  unfold splice1. rewrite take_app_length, drop_app_ge by lia.
  by replace (S (length pre) - length pre)%nat with 1%nat by lia.
Qed.

Lemma splice1_after_prefix {A} (P d : list A) j :
  (length P ≤ j)%nat → splice1 j (P ++ d) = P ++ splice1 (j - length P) d.
Proof.
  intros Hj. unfold splice1.
  rewrite take_app_ge, drop_app_ge by lia. rewrite <- app_assoc.
  do 2 f_equal. f_equal. lia.
Qed.

(** Splices at indices beyond a prefix leave the prefix alone. *)
Lemma foldl_splice1_after_prefix {A} (P d : list A) idxs :
  (∀ j, j ∈ idxs → (length P ≤ j)%nat) →
  foldl (λ us index, splice1 index us) (P ++ d) idxs
  = P ++ foldl (λ us index, splice1 index us) d (map (λ j, j - length P)%nat idxs).
Proof.
  revert d. induction idxs as [|j idxs IH]; intros d Hge; [done|].
  cbn [foldl map]. rewrite splice1_after_prefix by (apply Hge; by left).
  apply IH. intros j' Hj'. apply Hge. by right.
Qed.

(** X1.  A key that matches no entry: [del] returns 0 and the sitemap is
    as before. *)
Theorem del_no_match sm key σ :
  elems_ok σ (urls sm) →
  (∀ e, e ∈ urls sm → matches_key key σ e = false) →
  del sm (ElemStr key) σ = (Ret (0, sm), σ).
Proof.
  intros Hok Hno. rewrite del_run by done.
  rewrite matching_indices_none by done. cbn [length foldl].
  by rewrite set_urls_id.
Qed.

(** X2.  A key that matches exactly one entry: [del] returns 1 and
    removes that entry; the others stay in their order. *)
Theorem del_single_match sm key σ pre e post :
  urls sm = pre ++ e :: post →
  elems_ok σ (urls sm) →
  matches_key key σ e = true →
  (∀ e', e' ∈ pre ++ post → matches_key key σ e' = false) →
  del sm (ElemStr key) σ = (Ret (1, set_urls sm (pre ++ post)), σ).
Proof.
  intros Hurls Hok He Hno. rewrite del_run by done. rewrite Hurls.
  rewrite matching_indices_app. cbn [matching_indices]. rewrite He.
  rewrite (matching_indices_none _ _ pre), (matching_indices_none _ _ post);
    [|intros e' He'; apply Hno, elem_of_app; by right
     |intros e' He'; apply Hno, elem_of_app; by left].
  cbn [app length foldl]. by rewrite Nat.add_0_l, splice1_middle.
Qed.

(** X3.  [add] returns the new number of entries, and a [del] of a url
    that was not in the sitemap before it was added gives the sitemap
    back. *)
Theorem add_del_round_trip sm s σ :
  elems_ok σ (urls sm) →
  (∀ e, e ∈ urls sm → matches_key s σ e = false) →
  (add sm (ElemStr s)).1 = S (length (urls sm)) ∧
  del (add sm (ElemStr s)).2 (ElemStr s) σ = (Ret (1, sm), σ).
Proof.
  intros Hok Hno. split.
  - cbn [add fst]. rewrite length_app. simpl. lia.
  - rewrite del_run.
    + cbn [add snd set_urls urls]. rewrite matching_indices_app.
      cbn [matches_key matching_indices]. rewrite String.eqb_refl.
      rewrite (matching_indices_none _ _ (urls sm)) by done.
      cbn [app length foldl]. rewrite Nat.add_0_l, splice1_middle.
      rewrite app_nil_r. destruct sm. reflexivity.
    + intros l Hl. cbn [add snd set_urls urls] in Hl.
      apply elem_of_app in Hl as [Hl|Hl]; [by apply Hok|].
      by apply list_elem_of_singleton in Hl.
Qed.

(** X4.  A key that matches two entries or more: [del] removes the first
    match but keeps the second one, because the index it uses for it was
    found before the first removal; the count it returns is the number of
    matches all the same.  With exactly two matches the entry after the
    second match (if there is one) is removed in its place. *)
Theorem del_keeps_second_match sm key σ pre e1 mid e2 post :
  urls sm = pre ++ e1 :: mid ++ e2 :: post →
  elems_ok σ (urls sm) →
  matches_key key σ e1 = true → matches_key key σ e2 = true →
  (∀ e, e ∈ pre ++ mid → matches_key key σ e = false) →
  ∃ n sm' rest,
    del sm (ElemStr key) σ = (Ret (n, sm'), σ) ∧
    n = (2 + length (filter (λ e, matches_key key σ e = true) post))%nat ∧
    urls sm' = pre ++ mid ++ e2 :: rest ∧
    ((∀ e, e ∈ post → matches_key key σ e = false) → rest = drop 1 post).
Proof.
  intros Hurls Hok He1 He2 Hno. rewrite del_run by done. rewrite Hurls.
  rewrite matching_indices_app. cbn [matching_indices]. rewrite He1.
  rewrite matching_indices_app. cbn [matching_indices]. rewrite He2.
  rewrite (matching_indices_none _ _ pre), (matching_indices_none _ _ mid);
    [|intros e He; apply Hno, elem_of_app; by right
     |intros e He; apply Hno, elem_of_app; by left].
  cbn [app foldl length]. rewrite Nat.add_0_l.
  set (idxs := matching_indices key σ post _).
  eexists. eexists. eexists. split; [reflexivity|]. split.
  { subst idxs. by rewrite matching_indices_length. }
  rewrite splice1_middle.
  replace (pre ++ mid ++ e2 :: post) with ((pre ++ mid) ++ e2 :: post)
    by (by rewrite <- app_assoc).
  replace (S (length pre) + length mid)%nat with (S (length (pre ++ mid)))
    by (rewrite length_app; lia).
  assert (Hsplice : splice1 (S (length (pre ++ mid))) ((pre ++ mid) ++ e2 :: post)
                    = (pre ++ mid ++ [e2]) ++ drop 1 post).
  { replace ((pre ++ mid) ++ e2 :: post) with ((pre ++ mid ++ [e2]) ++ post)
      by (by rewrite <- !app_assoc).
    rewrite splice1_after_prefix by (rewrite !length_app; simpl; lia).
    f_equal. replace (_ - _)%nat with 0%nat by (rewrite !length_app; simpl; lia).
    by destruct post. }
  rewrite Hsplice. rewrite foldl_splice1_after_prefix; cycle 1.
  { intros j Hj. subst idxs. apply matching_indices_ge in Hj.
    rewrite !length_app in *. simpl in *. lia. }
  cbn [set_urls urls]. split.
  - rewrite <- !app_assoc. cbn [app]. reflexivity.
  - intros Hpost. subst idxs. by rewrite matching_indices_none.
Qed.

End del_more.

(** ** The cache *)

Section cache_more.
Context `{Collaborators}.

(** What the constructor leaves in the fields. *)
Lemma new_Sitemap_fields us h cacheTime xsl ns sm :
  new_Sitemap us h cacheTime xsl ns = Ret sm →
  urls sm = urls_list us ∧ hostname sm = h ∧ cache sm = EmptyString ∧
  cacheSetTimestamp sm = None ∧ xslUrl sm = xsl ∧ xmlNs sm = ns ∧
  cacheResetPeriod sm = match cacheTime with Some t => t | None => 0%Z end.
Proof.
  unfold new_Sitemap. destruct (opt_truthy ns).
  - destruct (xmlNs_attributes _ _) as [r'|e]; [|done]. by intros [= <-].
  - by intros [= <-].
Qed.

(** A render that misses the cache. *)
Lemma toString_miss sm t t' σ :
  isCacheValid sm t = false →
  toString sm t t' σ
  = match toString_urls (hostname sm) (urls sm) (toString_root sm) σ with
    | (Ret r', σ') =>
        (Ret (end_ r', set_cache (set_root sm r') (end_ r') (Some t')), σ')
    | (Throw e, σ') => (Throw e, σ')
    end.
Proof.
  intros Hmiss. unfold toString. rewrite isCacheValid_set_root, Hmiss.
  unfold bind. cbn [hostname urls set_root].
  by destruct (toString_urls _ _ _ σ) as [[r'|e] σ'].
Qed.

(** X5.  A sitemap just constructed has no valid cache, whatever its
    cache time: its first render builds the document from the entries
    and stores it with the time of the render. *)
Theorem new_Sitemap_first_render us h cacheTime xsl ns sm :
  new_Sitemap us h cacheTime xsl ns = Ret sm →
  (∀ now, isCacheValid sm now = false) ∧
  ∀ t t' σ out sm' σ',
    toString sm t t' σ = (Ret (out, sm'), σ') →
    ∃ r', toString_urls h (urls_list us) (toString_root sm) σ = (Ret r', σ') ∧
          out = end_ r' ∧ cache sm' = out ∧ cacheSetTimestamp sm' = Some t'.
Proof.
  intros Hnew. apply new_Sitemap_fields in Hnew as (Hurls & Hh & Hcache & _).
  assert (Hnever : ∀ now, isCacheValid sm now = false).
  { intros now. unfold isCacheValid. rewrite Hcache. cbn [str_truthy].
    by rewrite andb_false_r. }
  split; [done|]. intros t t' σ out sm' σ'.
  rewrite toString_miss by done. rewrite Hurls, Hh.
  destruct (toString_urls _ _ _ σ) as [[r'|e] σ1]; [|done].
  intros [= <- <- <-]. by exists r'.
Qed.

(** X6.  A cache time of 0 (or none given) disables the cache for good:
    after any render the cache is still not valid. *)
Theorem cache_disabled us h cacheTime xsl ns sm t t' σ out sm' σ' :
  new_Sitemap us h cacheTime xsl ns = Ret sm →
  cacheTime = None ∨ cacheTime = Some 0%Z →
  toString sm t t' σ = (Ret (out, sm'), σ') →
  ∀ now, isCacheValid sm' now = false.
Proof.
  intros Hnew Hzero Hrender now.
  apply new_Sitemap_fields in Hnew as (_ & _ & _ & _ & _ & _ & Hperiod).
  apply toString_cache in Hrender as (_ & Hsame & _).
  unfold isCacheValid. rewrite Hsame, Hperiod. by destruct Hzero as [->| ->].
Qed.

(** X7.  The cache expires: once more than the cache period has passed
    since the render that filled it, the cache is no longer valid and the
    next render stores a new document with its own time. *)
Theorem cache_expires sm t1 t1' σ out1 sm1 σ1 t2 t2' σ2 out2 sm2 σ2' :
  isCacheValid sm t1 = false →
  toString sm t1 t1' σ = (Ret (out1, sm1), σ1) →
  (t1' + cacheResetPeriod sm < t2)%Z →
  toString sm1 t2 t2' σ2 = (Ret (out2, sm2), σ2') →
  isCacheValid sm1 t2 = false ∧ cacheSetTimestamp sm2 = Some t2'.
Proof.
  intros Hmiss Hfirst Hlate Hsecond.
  apply toString_cache in Hfirst as (_ & Hperiod & Hts).
  assert (Hexpired : isCacheValid sm1 t2 = false).
  { unfold isCacheValid. rewrite (Hts Hmiss), Hperiod.
    destruct (Z.leb_spec t2 (t1' + cacheResetPeriod sm)); [lia|].
    by rewrite andb_false_r. }
  split; [done|].
  apply toString_cache in Hsecond as (_ & _ & Hts2). by apply Hts2.
Qed.

(** X8.  After [clearCache] the cache is not valid at any time, and the
    next render builds the document from the entries again and refills
    the cache. *)
Theorem clearCache_recomputes sm :
  (∀ now, isCacheValid (clearCache sm) now = false) ∧
  ∀ t t' σ out sm' σ',
    toString (clearCache sm) t t' σ = (Ret (out, sm'), σ') →
    ∃ r', toString_urls (hostname sm) (urls sm) (toString_root sm) σ = (Ret r', σ') ∧
          out = end_ r' ∧ cache sm' = out ∧ cacheSetTimestamp sm' = Some t'.
Proof.
  assert (Hnever : ∀ now, isCacheValid (clearCache sm) now = false).
  { intros now. unfold isCacheValid, clearCache. cbn [cache set_cache str_truthy].
    by rewrite andb_false_r. }
  split; [done|]. intros t t' σ out sm' σ'.
  rewrite toString_miss by done.
  change (toString_root (clearCache sm)) with (toString_root sm).
  cbn [clearCache set_cache hostname urls].
  destruct (toString_urls _ _ _ σ) as [[r'|e] σ1]; [|done].
  intros [= <- <- <-]. by exists r'.
Qed.

(** X9.  Neither [add] nor [del] touches the cache: while the cache is
    valid a render after them still returns the document cached before,
    without the added entry and with the deleted one. *)
Theorem add_del_keep_cache sm now t' σ :
  isCacheValid sm now = true →
  (∀ u, ∃ sm', toString (add sm u).2 now t' σ = (Ret (cache sm, sm'), σ) ∧
               urls sm' = urls sm ++ [u]) ∧
  (∀ u n sm1 σ1,
     del sm u σ = (Ret (n, sm1), σ1) →
     ∃ sm', toString sm1 now t' σ1 = (Ret (cache sm, sm'), σ1) ∧
            urls sm' = urls sm1).
Proof.
  intros Hvalid. split.
  - intros u. eexists. split.
    + exact (toString_hit (add sm u).2 now t' σ Hvalid).
    + reflexivity.
  - intros u n sm1 σ1. unfold del, bind.
    destruct (match u with
              | ElemStr s => ret s
              | ElemObj l => _
              end σ) as [[key|e] σ0]; [|done].
    destruct (del_find key (urls sm) 0 [] σ0) as [[idxs|e] σ0']; [|done].
    intros [= <- <- <-]. eexists. split.
    + exact (toString_hit (set_urls sm _) now t' σ0' Hvalid).
    + reflexivity.
Qed.

End cache_more.

(** ** What a render does to the store *)

Section render_frame.
Context `{Collaborators}.

Lemma store_kept_refl σ : store_kept σ σ.
Proof. split; [done|]. intros l o Ho. by exists o. Qed.

Lemma store_kept_trans σ1 σ2 σ3 :
  store_kept σ1 σ2 → store_kept σ2 σ3 → store_kept σ1 σ3.
Proof.
  intros [Hi12 Hs12] [Hi23 Hs23]. split; [congruence|].
  intros l o Ho. destruct (Hs12 l o Ho) as (o2 & Ho2 & Ha2).
  destruct (Hs23 l o2 Ho2) as (o3 & Ho3 & Ha3). exists o3. split; [done|congruence].
Qed.

Lemma keeps_ret {A} (a : A) : keeps (ret a).
Proof. intros σ. apply store_kept_refl. Qed.

Lemma keeps_throw {A} e : keeps (@throw A e).
Proof. intros σ. apply store_kept_refl. Qed.

Lemma keeps_bind {A B} (m : M A) (k : A → M B) :
  keeps m → (∀ a, keeps (k a)) → keeps (bind m k).
Proof.
  intros Hm Hk σ. unfold bind. specialize (Hm σ).
  destruct (m σ) as [[a|e] σ1]; [|done].
  eapply store_kept_trans; [exact Hm|apply Hk].
Qed.

Lemma keeps_forEach {A} (f : A → M unit) array :
  (∀ x, keeps (f x)) → keeps (forEach f array).
Proof.
  intros Hf. induction array as [|x array IH]; [apply keeps_ret|].
  cbn [forEach]. apply keeps_bind; [apply Hf|by intros _].
Qed.

Lemma keeps_get_item l : keeps (get_item l).
Proof. intros σ. unfold get_item. destruct (items σ !! l); apply store_kept_refl. Qed.

Lemma keeps_get_sub l : keeps (get_sub l).
Proof. intros σ. unfold get_sub. destruct (subs σ !! l); apply store_kept_refl. Qed.

Lemma keeps_put_sub_url l u : keeps (put_sub_url l u).
Proof.
  intros σ. unfold put_sub_url. destruct (subs σ !! l) as [s|] eqn:Hs;
    [|apply store_kept_refl].
  split; [done|]. intros l' o Ho. cbn [snd subs set_subs].
  rewrite lookup_insert. case_decide; subst; [|by exists o].
  exists (set_sub_url s u). split; [done|].
  rewrite Hs in Ho. by injection Ho as <-.
Qed.

Lemma keeps_new_sub u : keeps (new_sub u).
Proof.
  intros σ. split; [done|]. intros l o Ho. cbn [new_sub snd subs set_subs].
  rewrite lookup_insert. case_decide as Heq; [|by exists o].
  exfalso. pose proof (is_fresh (dom (subs σ))) as Hfresh.
  apply Hfresh. rewrite Heq. apply elem_of_dom. by exists o.
Qed.

Lemma keeps_join_sub h l : keeps (join_sub h l).
Proof.
  unfold join_sub. apply keeps_bind; [apply keeps_get_sub|].
  intros x. destruct (reProto_test (sub_url x)); [apply keeps_ret|apply keeps_put_sub_url].
Qed.

Lemma keeps_join_img h smi v : keeps (join_img h smi v).
Proof.
  unfold join_img. destruct (img_truthy v); [|apply keeps_ret].
  apply keeps_bind.
  { destruct v; try apply keeps_ret.
    apply keeps_bind; [apply keeps_new_sub|intros; apply keeps_ret]. }
  intros v1. apply keeps_bind.
  { destruct v1; try apply keeps_ret.
    apply keeps_bind; [apply keeps_get_sub|].
    intros o. destruct (length_undefined o); apply keeps_ret. }
  intros v2. destruct v2; try apply keeps_throw.
  apply keeps_bind; [|intros; apply keeps_ret].
  apply keeps_forEach. intros l'. apply keeps_join_sub.
Qed.

Lemma keeps_make_smi hostname e : keeps (make_smi hostname e).
Proof.
  unfold make_smi. apply keeps_bind.
  { destruct e; [apply keeps_ret|apply keeps_get_item]. }
  intros smi. destruct (opt_truthy hostname); [|apply keeps_ret].
  cbv zeta. apply keeps_bind.
  { destruct (img _); [apply keeps_join_img|apply keeps_ret]. }
  intros smi'. destruct (links smi'); [|apply keeps_ret].
  apply keeps_bind; [|intros; apply keeps_ret].
  apply keeps_forEach. intros l'. apply keeps_join_sub.
Qed.

Lemma keeps_toString_urls hostname array r : keeps (toString_urls hostname array r).
Proof.
  revert r. induction array as [|e array IH]; intros r; [apply keeps_ret|].
  cbn [toString_urls]. apply keeps_bind; [apply keeps_make_smi|].
  intros smi. apply keeps_bind; [|intros; apply IH].
  intros σ. apply store_kept_refl.
Qed.

Lemma keeps_toString sm t t' : keeps (toString sm t t').
Proof.
  unfold toString. destruct (isCacheValid _ _); [apply keeps_ret|].
  apply keeps_bind; [apply keeps_toString_urls|intros; apply keeps_ret].
Qed.

(** X10.  A render, whether it returns or throws, never writes an entry
    object and never removes a sub-record or changes a property of it
    other than [url]; and the sitemap it leaves has the same entries,
    hostname, cache period, stylesheet and namespaces. *)
Theorem toString_frame sm t t' σ :
  store_kept σ (toString sm t t' σ).2 ∧
  ∀ out sm' σ',
    toString sm t t' σ = (Ret (out, sm'), σ') →
    urls sm' = urls sm ∧ hostname sm' = hostname sm ∧
    cacheResetPeriod sm' = cacheResetPeriod sm ∧
    xslUrl sm' = xslUrl sm ∧ xmlNs sm' = xmlNs sm.
Proof.
  split; [apply keeps_toString|]. intros out sm' σ'. unfold toString.
  destruct (isCacheValid _ _).
  - by intros [= <- <- <-].
  - unfold bind. destruct (toString_urls _ _ _ σ) as [[r'|e] σ1]; [|done].
    by intros [= <- <- <-].
Qed.

Lemma make_smi_plain hostname e σ :
  opt_truthy hostname = false → (make_smi hostname e σ).2 = σ.
Proof.
  intros Hh. unfold make_smi, bind.
  destruct e as [s|l]; cbn [ret]; [by rewrite Hh|].
  unfold get_item. destruct (items σ !! l); [by rewrite Hh|done].
Qed.

Lemma toString_urls_plain hostname array r σ :
  opt_truthy hostname = false → (toString_urls hostname array r σ).2 = σ.
Proof.
  intros Hh. revert r. induction array as [|e array IH]; intros r; [done|].
  cbn [toString_urls]. unfold bind at 1.
  pose proof (make_smi_plain hostname e σ Hh) as Hsmi.
  destruct (make_smi hostname e σ) as [[smi|err] σ1]; simpl in Hsmi; subst σ1; [|done].
  unfold bind. destruct (buildXML smi (subs σ) r) as [r'|err]; [apply IH|done].
Qed.

(** X11.  Without a hostname a render leaves the whole store as it
    found it, whatever the entries are and whether it returns or
    throws. *)
Theorem toString_no_hostname sm t t' σ :
  opt_truthy (hostname sm) = false → (toString sm t t' σ).2 = σ.
Proof.
  intros Hh. unfold toString. destruct (isCacheValid _ _); [done|].
  unfold bind. cbn [hostname urls set_root].
  pose proof (toString_urls_plain (hostname sm) (urls sm) (toString_root sm) σ Hh) as Hu.
  by destruct (toString_urls _ _ _ σ) as [[r'|e] σ1].
Qed.

End render_frame.

(** ** Links, repeated renders and an image with a [length] *)

Section normalizer_more.
Context `{Collaborators}.

(** The sub-records the entry refers to, after the loop body ran with a
    hostname: each one has had the url rule applied once. *)
Lemma make_smi_caller_subs hostname e σ it l :
  opt_truthy hostname = true →
  entry_item σ e = Some it → item_wf σ it →
  NoDup (img_locs it ++ links_locs it) →
  l ∈ img_locs it ++ links_locs it →
  subs (make_smi hostname e σ).2 !! l = joined_sub (js_str hostname) <$> subs σ !! l.
Proof.
  intros Hh Hit Hok Hnd Hl.
  pose proof (make_smi_hostname hostname e σ it Hh Hit Hok) as Hrun.
  cbv zeta in Hrun. destruct Hok as [Hin Hobj].
  unfold img_promoted in Hrun. unfold img_locs in Hnd, Hin, Hl.
  destruct (img it) as [[s|l1|ls1]|] eqn:Himg.
  - destruct (str_truthy s) eqn:Hs; rewrite Hrun; cbn [snd subs set_subs].
    + set (lf := fresh (dom (subs σ))) in *.
      assert (Hfresh : subs σ !! lf = None).
      { apply not_elem_of_dom. apply is_fresh. }
      assert (Hne : lf ≠ l).
      { intros <-. destruct (Hin lf Hl) as [o Ho]. by rewrite Hfresh in Ho. }
      rewrite join_all_once.
      * by rewrite lookup_insert_ne.
      * apply NoDup_app. split; [apply NoDup_singleton|]. split; [|done].
        intros l' ->%list_elem_of_singleton Hl'.
        destruct (Hin lf Hl') as [o Ho]. by rewrite Hfresh in Ho.
      * apply elem_of_app. by right.
    + by rewrite join_all_once.
  - rewrite Hrun. cbn [snd subs set_subs]. by rewrite join_all_once.
  - rewrite Hrun. cbn [snd subs set_subs]. by rewrite join_all_once.
  - rewrite Hrun. cbn [snd subs set_subs]. by rewrite join_all_once.
Qed.

(** X12.  With a hostname, the [links] of an entry are handed on as
    they are and every link object (the sub-records being distinct
    objects) gets the url rule of the primary url: an absolute url is
    kept, a relative one is joined to the hostname. *)
Theorem make_smi_links hostname e σ it :
  opt_truthy hostname = true →
  entry_item σ e = Some it → item_ok σ it = true →
  NoDup (img_locs it ++ links_locs it) →
  ∃ smi σ',
    make_smi hostname e σ = (Ret smi, σ') ∧
    links smi = links it ∧
    ∀ l, l ∈ links_locs it →
         ∃ o, subs σ !! l = Some o ∧
              subs σ' !! l = Some (set_sub_url o (join_relative (js_str hostname) (sub_url o))).
Proof.
  intros Hh Hit Hok%item_ok_wf Hnd.
  pose proof (λ l, make_smi_caller_subs hostname e σ it l Hh Hit Hok Hnd) as Hsubs.
  pose proof (make_smi_hostname hostname e σ it Hh Hit Hok) as Hrun.
  cbv zeta in Hrun. destruct (img_promoted σ (img it)) as [[v m0] ls].
  rewrite Hrun in Hsubs. cbn [snd] in Hsubs.
  eexists. eexists. split; [exact Hrun|]. split; [done|].
  intros l Hl. destruct Hok as [Hin _].
  destruct (Hin l) as [o Ho]; [apply elem_of_app; by right|].
  exists o. split; [done|].
  rewrite (Hsubs l) by (apply elem_of_app; by right).
  by rewrite Ho.
Qed.

Lemma length_undefined_joined h o :
  length_undefined (joined_sub h o) = length_undefined o.
Proof. reflexivity. Qed.

(** X13.  The loop body run twice on the same entry with a hostname (as
    two renders do) applies the url rule twice to the sub-records of the
    entry: when the joined url is not itself absolute, as with a
    hostname that has no scheme, the second run joins the hostname to it
    once more. *)
Theorem make_smi_twice hostname e σ it :
  opt_truthy hostname = true →
  entry_item σ e = Some it → item_ok σ it = true →
  NoDup (img_locs it ++ links_locs it) →
  let h := js_str hostname in
  let σ1 := (make_smi hostname e σ).2 in
  let σ2 := (make_smi hostname e σ1).2 in
  ∀ l, l ∈ img_locs it ++ links_locs it →
       ∃ o, subs σ !! l = Some o ∧
            subs σ1 !! l = Some (joined_sub h o) ∧
            subs σ2 !! l = Some (joined_sub h (joined_sub h o)) ∧
            (reProto_test (sub_url o) = false →
             reProto_test (urljoin h (sub_url o)) = false →
             sub_url (joined_sub h (joined_sub h o)) = urljoin h (urljoin h (sub_url o))).
Proof.
  intros Hh Hit Hok%item_ok_wf Hnd h σ1 σ2 l Hl.
  pose proof Hok as [Hin Hobj].
  destruct (Hin l Hl) as [o Ho]. exists o. split; [done|].
  assert (Hfirst : ∀ l', l' ∈ img_locs it ++ links_locs it →
            subs σ1 !! l' = joined_sub h <$> subs σ !! l').
  { intros l' Hl'. by apply (make_smi_caller_subs hostname e σ it). }
  assert (Hit1 : entry_item σ1 e = Some it).
  { destruct e as [s|l0]; [done|]. cbn [entry_item] in *.
    subst σ1. by rewrite (make_smi_items hostname (ElemObj l0) σ it). }
  assert (Hok1 : item_wf σ1 it).
  { split.
    - intros l' Hl'. rewrite Hfirst by done. destruct (Hin l' Hl') as [o' ->]. eauto.
    - intros l' o' Himg Ho'.
      assert (Hl' : l' ∈ img_locs it ++ links_locs it).
      { apply elem_of_app. left. unfold img_locs. rewrite Himg. by left. }
      rewrite Hfirst in Ho' by done. destruct (Hin l' Hl') as [o0 Ho0].
      rewrite Ho0 in Ho'. injection Ho' as <-.
      rewrite length_undefined_joined. by eapply Hobj. }
  split; [by rewrite Hfirst, Ho|]. split.
  - subst σ2. rewrite (make_smi_caller_subs hostname e σ1 it) by done.
    by rewrite Hfirst, Ho.
  - intros Hrel Hrel'. unfold joined_sub, join_relative. cbn [sub_url set_sub_url].
    by rewrite Hrel, Hrel'.
Qed.

(** X14.  When every url joined to the hostname is absolute, the loop
    body run a second time on the same entry leaves its sub-records as
    the first run left them. *)
Theorem make_smi_twice_same hostname e σ it :
  opt_truthy hostname = true →
  entry_item σ e = Some it → item_ok σ it = true →
  NoDup (img_locs it ++ links_locs it) →
  (∀ u, reProto_test (urljoin (js_str hostname) u) = true) →
  let σ1 := (make_smi hostname e σ).2 in
  let σ2 := (make_smi hostname e σ1).2 in
  ∀ l, l ∈ img_locs it ++ links_locs it → subs σ2 !! l = subs σ1 !! l.
Proof.
  intros Hh Hit Hok Hnd Habs σ1 σ2 l Hl.
  assert (Hwf := item_ok_wf _ _ Hok). destruct Hwf as [Hin Hobj].
  destruct (Hin l Hl) as [o Ho].
  assert (Hfirst : ∀ l', l' ∈ img_locs it ++ links_locs it →
            subs σ1 !! l' = joined_sub (js_str hostname) <$> subs σ !! l').
  { intros l' Hl'. by apply (make_smi_caller_subs hostname e σ it). }
  assert (Hit1 : entry_item σ1 e = Some it).
  { destruct e as [s|l0]; [done|]. cbn [entry_item] in *.
    subst σ1. by rewrite (make_smi_items hostname (ElemObj l0) σ it). }
  assert (Hok1 : item_wf σ1 it).
  { split.
    - intros l' Hl'. rewrite Hfirst by done. destruct (Hin l' Hl') as [o' ->]. eauto.
    - intros l' o' Himg Ho'.
      assert (Hl' : l' ∈ img_locs it ++ links_locs it).
      { apply elem_of_app. left. unfold img_locs. rewrite Himg. by left. }
      rewrite Hfirst in Ho' by done. destruct (Hin l' Hl') as [o0 Ho0].
      rewrite Ho0 in Ho'. injection Ho' as <-.
      rewrite length_undefined_joined. by eapply Hobj. }
  subst σ2. rewrite (make_smi_caller_subs hostname e σ1 it) by done.
  rewrite Hfirst, Ho by done. cbn [fmap option_fmap option_map]. f_equal.
  apply joined_sub_absolute. unfold joined_sub, join_relative. cbn [sub_url set_sub_url].
  destruct (reProto_test (sub_url o)) eqn:Hrel; [done|apply Habs].
Qed.

Lemma img_has_length_kept σ σ' e :
  store_kept σ σ' → img_has_length σ e → img_has_length σ' e.
Proof.
  intros [Hitems Hsubs] (it & l & o & Hit & Himg & Ho & Hlen).
  destruct (Hsubs l o Ho) as (o' & Ho' & Hattrs).
  exists it, l, o'. split; [|split; [done|split; [done|]]].
  - destruct e; [done|]. cbn [entry_item] in *. by rewrite Hitems.
  - unfold length_undefined in *. by rewrite Hattrs.
Qed.

Lemma make_smi_img_has_length hostname e σ :
  opt_truthy hostname = true → img_has_length σ e →
  make_smi hostname e σ = (Throw (TypeError "smi.img.forEach is not a function"), σ).
Proof.
  intros Hh (it & l & o & Hit & Himg & Ho & Hlen).
  unfold make_smi. rewrite (entry_item_run e σ it) by done. rewrite Hh.
  cbv zeta.
  assert (Himg' : ∀ u, img (if reProto_test (url it) then it else set_url it u) = Some (ImgObj l)).
  { intros u. by destruct (reProto_test (url it)). }
  unfold bind at 1. rewrite Himg'. unfold join_img. cbn [img_truthy].
  unfold bind, get_sub. cbn [ret]. rewrite Ho, Hlen. reflexivity.
Qed.

Lemma toString_urls_img_has_length hostname array r σ e :
  opt_truthy hostname = true → e ∈ array → img_has_length σ e →
  ∃ err σ', toString_urls hostname array r σ = (Throw err, σ').
Proof.
  intros Hh. revert r σ. induction array as [|e' array IH]; intros r σ He Hbad.
  - by apply elem_of_nil in He.
  - cbn [toString_urls]. unfold bind at 1.
    apply elem_of_cons in He as [<-|He].
    + rewrite make_smi_img_has_length by done. eauto.
    + pose proof (keeps_make_smi hostname e' σ) as Hkept.
      destruct (make_smi hostname e' σ) as [[smi|err] σ1]; [|eauto].
      unfold bind. destruct (buildXML smi (subs σ1) r) as [r'|err]; [|eauto].
      apply IH; [done|]. by eapply img_has_length_kept.
Qed.

(** X15.  With a hostname, a render that has to build the document
    throws when some entry has for [img] a single object with a [length]
    property: the object is taken for an array and has no [forEach]. *)
Theorem toString_img_has_length sm t t' σ e :
  opt_truthy (hostname sm) = true →
  isCacheValid sm t = false →
  e ∈ urls sm → img_has_length σ e →
  ∃ err σ', toString sm t t' σ = (Throw err, σ') ∧
    (∀ rest, urls sm = e :: rest →
       err = TypeError "smi.img.forEach is not a function" ∧ σ' = σ).
Proof.
  intros Hh Hmiss He Hbad. rewrite toString_miss by done.
  destruct (toString_urls_img_has_length (hostname sm) (urls sm) (toString_root sm) σ e)
    as (err & σ' & Hrun); try done.
  rewrite Hrun. exists err, σ'. split; [done|].
  intros rest Hurls. rewrite Hurls in Hrun. cbn [toString_urls] in Hrun.
  unfold bind at 1 in Hrun. rewrite make_smi_img_has_length in Hrun by done.
  by injection Hrun as <- <-.
Qed.

End normalizer_more.

(** ** File names and failures of the partitioner *)

Lemma append_inj_l s a b : s +:+ a = s +:+ b → a = b.
Proof.
  induction s as [|c s IH]; [done|]. rewrite !append_cons. intros [= Heq]. by apply IH.
Qed.

Lemma append_length s t : String.length (s +:+ t) = (String.length s + String.length t)%nat.
Proof. induction s as [|c s IH]; [done|]. rewrite append_cons. simpl. by rewrite IH. Qed.

Lemma append_inj_r s a b : a +:+ s = b +:+ s → a = b.
Proof.
  revert b. induction a as [|c a IH]; intros [|c' b] Heq; [done| | |].
  - apply (f_equal String.length) in Heq. rewrite append_empty_l, append_length in Heq.
    simpl in Heq. lia.
  - apply (f_equal String.length) in Heq. rewrite append_empty_l, append_length in Heq.
    simpl in Heq. lia.
  - rewrite !append_cons in Heq. injection Heq as -> Heq. f_equal. by apply IH.
Qed.

Lemma to_uint_nonnil n : Nat.to_uint n ≠ Decimal.Nil.
Proof.
  rewrite <- (DecimalNat.Unsigned.of_to n) at 1.
  rewrite DecimalNat.Unsigned.to_of. apply DecimalFacts.unorm_nonnil.
Qed.

Lemma num_str_parse n : NilZero.uint_of_string (num_str n) = Some (Nat.to_uint n).
Proof. apply NilZero.usu, to_uint_nonnil. Qed.

Lemma num_str_inj i j : num_str i = num_str j → i = j.
Proof.
  intros Heq. apply (f_equal NilZero.uint_of_string) in Heq.
  rewrite !num_str_parse in Heq. injection Heq as Heq.
  apply (f_equal Nat.of_uint) in Heq. by rewrite !DecimalNat.Unsigned.of_to in Heq.
Qed.

(** A number never prints as the empty text nor as a text that starts
    with the letter i. *)
Lemma num_str_head n : ∃ c s, num_str n = String c s ∧ c ≠ "i"%char.
Proof.
  pose proof (num_str_parse n) as Hparse.
  destruct (num_str n) as [|c s] eqn:Hn; [done|].
  exists c, s. split; [done|]. intros ->.
  unfold NilZero.uint_of_string in Hparse. cbn [NilEmpty.uint_of_string] in Hparse.
  by destruct (NilEmpty.uint_of_string s).
Qed.

Lemma spec_filename_inj name gzip i j :
  spec_filename name gzip i = spec_filename name gzip j → i = j.
Proof.
  unfold spec_filename. intros Heq. apply append_inj_l, append_inj_l in Heq.
  by apply append_inj_r, num_str_inj in Heq.
Qed.

Section partitioner_more.
Context `{Collaborators}.

(** X18.  The files of one construction have different paths: no two
    chunks get the same file name, and the index file is none of the
    chunk files, so no write lands on the file of another. *)
Theorem SitemapIndex_paths_distinct fs allUrls targetFolder hostname cacheTime
    sitemapName sitemapSize xslUrl gzip callback σ :
  fs targetFolder = Some true →
  ∃ st,
    SitemapIndex fs allUrls targetFolder hostname cacheTime sitemapName sitemapSize
      xslUrl gzip callback σ = Ret st ∧
    NoDup (si_sitemaps (self st)) ∧
    NoDup (map ws_path (listeners st)).
Proof.
  intros Hfs. eexists. split; [by apply SitemapIndex_ok|].
  cbn [SitemapIndex_state self si_sitemaps listeners]. split.
  - apply NoDup_alt. intros i j x. rewrite !list_lookup_imap.
    destruct (chunk _ _ !! i) eqn:Hi, (chunk _ _ !! j) eqn:Hj; try done.
    cbn. intros [= <-] [= Heq]. by apply spec_filename_inj in Heq.
  - rewrite map_app. apply NoDup_app. split; [|split; [|apply NoDup_singleton]].
    + apply NoDup_alt. intros i j x. rewrite !list_lookup_fmap, !list_lookup_imap.
      destruct (chunk _ _ !! i) eqn:Hi, (chunk _ _ !! j) eqn:Hj; try done.
      cbn. intros [= <-] [= Heq].
      apply append_inj_l, append_inj_l in Heq. by apply spec_filename_inj in Heq.
    + intros path Hchunk Hindex. cbn [map] in Hindex.
      apply list_elem_of_singleton in Hindex. subst path.
      apply list_elem_of_fmap in Hchunk as (stream & Hpath & Hstream).
      apply list_elem_of_lookup in Hstream as (i & Hstream).
      rewrite list_lookup_imap in Hstream.
      destruct (chunk _ _ !! i); [|done]. injection Hstream as <-.
      cbn [ws_path chunk_stream] in Hpath. unfold spec_index_path, spec_filename in Hpath.
      apply append_inj_l, append_inj_l, append_inj_l in Hpath.
      destruct (num_str_head i) as (c & s & Hn & Hc). rewrite Hn in Hpath.
      rewrite !append_cons in Hpath. by injection Hpath as <- _.
Qed.

(** X19.  The index document the constructor writes lists the chunk
    files, one location line [hostname + '/' + filename] per chunk in the
    order of the chunks, and gives no last modification date. *)
Theorem SitemapIndex_manifest fs allUrls targetFolder hostname cacheTime
    sitemapName sitemapSize xslUrl gzip callback σ :
  fs targetFolder = Some true →
  ∃ st lines path,
    SitemapIndex fs allUrls targetFolder hostname cacheTime sitemapName sitemapSize
      xslUrl gzip callback σ = Ret st ∧
    last (listeners st)
      = Some {| ws_path := path; ws_open := OpenIndex (join newline lines) |} ∧
    loc_lines lines
      = imap (λ i _, "<loc>" +:+ js_str hostname +:+ "/" +:+
                     spec_filename (name_or_default sitemapName) gzip i +:+ "</loc>")
          (si_chunks (self st)) ∧
    lastmod_lines lines = [].
Proof.
  intros Hfs. eexists. eexists. eexists. split; [by apply SitemapIndex_ok|].
  cbn [SitemapIndex_state self si_chunks listeners]. split.
  - rewrite last_snoc. reflexivity.
  - split.
    + match goal with
      | |- loc_lines (buildSitemapIndex_lines ?conf None) = _ =>
          assert (Hloc : loc_lines (buildSitemapIndex_lines conf None)
                         = map (λ url, "<loc>" +:+ url +:+ "</loc>") (ic_urls conf))
      end.
      { apply buildSitemapIndex_lines_loc. }
      rewrite Hloc. cbn [ic_urls]. unfold spec_manifest_urls.
      apply list_eq. intros i.
      rewrite !list_lookup_fmap, !list_lookup_imap.
      destruct (chunk _ _ !! i); [|done]. cbn. f_equal.
      by rewrite !append_assoc.
    + by rewrite buildSitemapIndex_lines_lastmod.
Qed.

Lemma step_failed_grows gzip st st' :
  step gzip st st' → failed st ≠ [] → failed st' ≠ [].
Proof.
  intros Hstep Hne. destruct Hstep as [st k stream t_valid t_set Hk|st k stream Hk].
  - unfold run_open. destruct (ws_open stream) as [sitemap|xmlString]; [|done].
    destruct ((if gzip then toGzip sitemap t_valid t_set
               else toString sitemap t_valid t_set) _) as [[[data sm']|e] σ']; [done|].
    cbn [failed fail_write set_listeners]. by destruct (failed st).
  - cbn [failed fail_write set_listeners]. by destruct (failed st).
Qed.

Lemma steps_failed_grows gzip st st' :
  steps gzip st st' → failed st ≠ [] → failed st' ≠ [].
Proof.
  intros Hsteps Hne. induction Hsteps as [|st1 st2 st3 _ IH Hstep]; [done|].
  eapply step_failed_grows; [done|by apply IH].
Qed.

(** X20.  A write that fails is never reported: once a stream has failed
    to open, or the listener of a chunk has thrown while rendering, the
    counter can no more reach zero and the callback is not called in
    any later state, neither with an error nor with success. *)
Theorem SitemapIndex_failure_silent fs allUrls targetFolder hostname cacheTime
    sitemapName sitemapSize xslUrl gzip callback σ :
  fs targetFolder = Some true →
  ∃ init,
    SitemapIndex fs allUrls targetFolder hostname cacheTime sitemapName sitemapSize
      xslUrl gzip callback σ = Ret init ∧
    ∀ st, steps gzip init st → failed st ≠ [] →
      ∀ st', steps gzip st st' → calls st' = [] ∧ (0 < processesCount st')%Z.
Proof.
  intros Hfs. eexists. split; [by apply SitemapIndex_ok|].
  intros st Hst Hfailed st' Hst'.
  pose proof (steps_failed_grows gzip st st' Hst' Hfailed) as Hfailed'.
  destruct (loop_inv_steps gzip _ st' (SitemapIndex_state_inv _ _ _ _ _ _ _ _ _)
              (steps_trans gzip _ _ _ Hst Hst'))
    as (_ & Hcount & _ & Hcalls).
  assert (Hpos : (0 < processesCount st')%Z).
  { rewrite Hcount. destruct (failed st'); [done|]. simpl. lia. }
  split; [|done]. rewrite Hcalls.
  destruct (Z.eqb_spec (processesCount st') 0); [lia|done].
Qed.

End partitioner_more.

(** ** The namespaces given to the constructor *)

Lemma split_on_none c s : has_char c s = false → split_on c s = [s].
Proof.
  induction s as [|a s IH]; [done|]. cbn [has_char split_on].
  intros [Ha Hs]%orb_false_iff. rewrite Ha, IH by done. reflexivity.
Qed.

Lemma split_on_sep c a b :
  has_char c a = false → split_on c (a +:+ String c b) = a :: split_on c b.
Proof.
  induction a as [|x a IH].
  - intros _. rewrite append_empty_l. cbn [split_on]. by rewrite Ascii.eqb_refl.
  - cbn [has_char]. intros [Hx Ha]%orb_false_iff.
    rewrite append_cons. cbn [split_on]. by rewrite Hx, IH.
Qed.

(** [split] undoes [join]: the parts of a text joined with a separator
    that none of them contains. *)
Lemma split_on_join c xs :
  xs ≠ [] → (∀ x, x ∈ xs → has_char c x = false) →
  split_on c (join (String c EmptyString) xs) = xs.
Proof.
  induction xs as [|x xs IH]; [done|]. intros _ Hno.
  destruct xs as [|y xs].
  - cbn [join]. apply split_on_none, Hno. by left.
  - change (join (String c EmptyString) (x :: y :: xs))
      with (x +:+ String c EmptyString +:+ join (String c EmptyString) (y :: xs)).
    rewrite append_cons, append_empty_l.
    rewrite split_on_sep by (apply Hno; by left).
    rewrite IH; [done|done|]. intros z Hz. apply Hno. by right.
Qed.

Lemma drop_last_quote_snoc q v :
  is_quote q = true → drop_last_quote (v +:+ String q EmptyString) = v.
Proof.
  intros Hq. induction v as [|a v IH].
  - rewrite append_empty_l. cbn [drop_last_quote]. by rewrite Hq.
  - rewrite append_cons. cbn [drop_last_quote].
    destruct (v +:+ String q EmptyString) eqn:Hv; [by destruct v|by rewrite IH].
Qed.

Lemma strip_quotes_quoted q v :
  is_quote q = true → strip_quotes (String q (v +:+ String q EmptyString)) = v.
Proof. intros Hq. cbn [strip_quotes]. rewrite Hq. by apply drop_last_quote_snoc. Qed.

Lemma has_char_app c a b : has_char c (a +:+ b) = has_char c a || has_char c b.
Proof.
  induction a as [|x a IH]; [done|]. rewrite append_cons. cbn [has_char].
  by rewrite IH, orb_assoc.
Qed.

(** ** The index document *)

Lemma one_line_app a b : one_line (a +:+ b) = one_line a && one_line b.
Proof. unfold one_line. by rewrite has_char_app, negb_orb. Qed.

Lemma one_line_quoted s : one_line (quoted s) = one_line s.
Proof.
  unfold quoted. change (String dquote (s +:+ String dquote EmptyString))
    with (String dquote EmptyString +:+ s +:+ String dquote EmptyString).
  rewrite !one_line_app. change (one_line (String dquote EmptyString)) with true.
  by rewrite andb_true_r.
Qed.

Section index_more.
Context `{Collaborators}.

Lemma sitemap_block_one_line lastmod url line :
  one_line url = true → one_line (js_str lastmod) = true →
  line ∈ sitemap_block lastmod url → one_line line = true.
Proof.
  intros Hurl Hmod. unfold sitemap_block.
  intros [Hin|[Hin|Hin]%elem_of_app]%elem_of_app.
  - apply elem_of_cons in Hin as [->|Hin]; [done|].
    apply list_elem_of_singleton in Hin as ->.
    by rewrite !one_line_app, Hurl.
  - destruct (opt_truthy lastmod); [|by apply elem_of_nil in Hin].
    apply list_elem_of_singleton in Hin as ->.
    by rewrite !one_line_app, Hmod.
  - by apply list_elem_of_singleton in Hin as ->.
Qed.

Lemma buildSitemapIndex_lines_one_line conf lastmod line :
  (∀ url, url ∈ ic_urls conf → one_line url = true) →
  one_line (js_str (ic_xslUrl conf)) = true →
  one_line (js_str (ic_xmlNs conf)) = true →
  one_line (js_str lastmod) = true →
  line ∈ buildSitemapIndex_lines conf lastmod → one_line line = true.
Proof.
  intros Hurls Hxsl Hns Hmod. unfold buildSitemapIndex_lines.
  intros [Hin|[Hin|[Hin|[Hin|Hin]%elem_of_app]%elem_of_app]%elem_of_app]%elem_of_app.
  - by apply list_elem_of_singleton in Hin as ->.
  - destruct (opt_truthy (ic_xslUrl conf)); [|by apply elem_of_nil in Hin].
    apply list_elem_of_singleton in Hin as ->.
    by rewrite !one_line_app, !one_line_quoted, Hxsl.
  - destruct (negb (opt_truthy (ic_xmlNs conf)));
      apply list_elem_of_singleton in Hin as ->; [done|].
    by rewrite !one_line_app, Hns.
  - induction (ic_urls conf) as [|url urls IH]; [by apply elem_of_nil in Hin|].
    cbn [map concat] in Hin. apply elem_of_app in Hin as [Hin|Hin].
    + apply (sitemap_block_one_line lastmod url); [|done|done].
      apply Hurls. by left.
    + apply IH; [|done]. intros url' Hurl'. apply Hurls. by right.
  - by apply list_elem_of_singleton in Hin as ->.
Qed.

(** When [buildSitemapIndex] throws. *)
Lemma buildSitemapIndex_throws conf e :
  buildSitemapIndex conf = Throw e ↔
  e = RangeError "Invalid time value" ∧
  opt_truthy (ic_lastmodISO conf) = false ∧ ic_lastmodrealtime conf = false ∧
  opt_truthy (ic_lastmod conf) = true ∧ date_ISO (js_str (ic_lastmod conf)) = None.
Proof.
  unfold buildSitemapIndex, resolve_lastmod.
  destruct (opt_truthy (ic_lastmodISO conf)); [split; [done|by intros (_ & ? & _)]|].
  destruct (ic_lastmodrealtime conf); [split; [done|by intros (_ & _ & ? & _)]|].
  destruct (opt_truthy (ic_lastmod conf)); [|split; [done|by intros (_ & _ & _ & ? & _)]].
  destruct (date_ISO (js_str (ic_lastmod conf))) as [d|].
  - split; [done|by intros (_ & _ & _ & _ & ?)].
  - split; [by intros [= <-]|by intros (-> & _)].
Qed.

(** X16.  [buildSitemapIndex] throws only the [RangeError] of a
    [conf.lastmod] that is not a date.  The document it returns is its
    lines joined by line breaks, and the lines that give a location are
    the urls given, each one once and in their order, whatever the
    stylesheet, the namespaces and the last modification date are; when
    none of these texts has a line break in it, those are the location
    lines found by cutting the document at its line breaks. *)
Theorem buildSitemapIndex_loc_lines conf :
  (∀ e, buildSitemapIndex conf = Throw e →
     e = RangeError "Invalid time value" ∧
     date_ISO (js_str (ic_lastmod conf)) = None) ∧
  ∀ xml, buildSitemapIndex conf = Ret xml →
    (∃ lines,
       xml = join newline lines ∧
       loc_lines lines = map (λ url, "<loc>" +:+ url +:+ "</loc>") (ic_urls conf)) ∧
    ((∀ url, url ∈ ic_urls conf → one_line url = true) →
     one_line (js_str (ic_xslUrl conf)) = true →
     one_line (js_str (ic_xmlNs conf)) = true →
     (∀ d, resolve_lastmod conf = Ret (Some d) → one_line d = true) →
     loc_lines (split_on (ascii_of_nat 10) xml)
     = map (λ url, "<loc>" +:+ url +:+ "</loc>") (ic_urls conf)).
Proof.
  split.
  { intros e He. apply buildSitemapIndex_throws in He as (-> & _ & _ & _ & Hd). done. }
  intros xml. unfold buildSitemapIndex.
  destruct (resolve_lastmod conf) as [lastmod|e] eqn:Hres; [|done].
  intros Hxml.
  assert (xml = join newline (buildSitemapIndex_lines conf lastmod)) as ->
    by congruence.
  clear Hxml. split.
  - exists (buildSitemapIndex_lines conf lastmod). split; [reflexivity|].
    apply buildSitemapIndex_lines_loc.
  - intros Hurls Hxsl Hns Hd. unfold newline. rewrite split_on_join.
    + apply buildSitemapIndex_lines_loc.
    + done.
    + intros line Hline. apply negb_true_iff.
      apply (buildSitemapIndex_lines_one_line conf lastmod); try done.
      destruct lastmod as [d|]; [by apply Hd|done].
Qed.

(** X17.  The last modification date of the index document is the ISO
    text given if there is one, else the current time if asked for, else
    the ISO text of the date given, and [buildSitemapIndex] throws a
    [RangeError] exactly when it comes to that last case with a text that
    is not a date.  In the document it returns every url gets that same
    date line, and none gets one when no date is given (or when its text
    is empty). *)
Theorem buildSitemapIndex_lastmod_lines conf :
  (buildSitemapIndex conf = Throw (RangeError "Invalid time value") ↔
   opt_truthy (ic_lastmodISO conf) = false ∧ ic_lastmodrealtime conf = false ∧
   opt_truthy (ic_lastmod conf) = true ∧ date_ISO (js_str (ic_lastmod conf)) = None) ∧
  (∀ e, buildSitemapIndex conf = Throw e → e = RangeError "Invalid time value") ∧
  ∀ xml, buildSitemapIndex conf = Ret xml →
    ∃ lastmod lines,
      xml = join newline lines ∧
      lastmod_lines lines
      = (if opt_truthy lastmod
         then map (λ _, "<lastmod>" +:+ js_str lastmod +:+ "</lastmod>") (ic_urls conf)
         else []) ∧
      (opt_truthy (ic_lastmodISO conf) = true → lastmod = ic_lastmodISO conf) ∧
      (opt_truthy (ic_lastmodISO conf) = false → ic_lastmodrealtime conf = true →
       lastmod = Some now_ISO) ∧
      (opt_truthy (ic_lastmodISO conf) = false → ic_lastmodrealtime conf = false →
       opt_truthy (ic_lastmod conf) = true →
       ∃ d, date_ISO (js_str (ic_lastmod conf)) = Some d ∧ lastmod = Some d) ∧
      (opt_truthy (ic_lastmodISO conf) = false → ic_lastmodrealtime conf = false →
       opt_truthy (ic_lastmod conf) = false → lastmod = None).
Proof.
  split.
  { rewrite buildSitemapIndex_throws. split; [by intros (_ & ?)|done]. }
  split.
  { intros e He. by apply buildSitemapIndex_throws in He as (-> & _). }
  intros xml. unfold buildSitemapIndex.
  destruct (resolve_lastmod conf) as [lastmod|e] eqn:Hres; [|done].
  intros [= <-]. exists lastmod, (buildSitemapIndex_lines conf lastmod).
  split; [reflexivity|].
  split; [apply buildSitemapIndex_lines_lastmod|].
  unfold resolve_lastmod in Hres.
  destruct (opt_truthy (ic_lastmodISO conf)).
  { injection Hres as <-. done. }
  destruct (ic_lastmodrealtime conf).
  { injection Hres as <-. done. }
  destruct (opt_truthy (ic_lastmod conf)).
  - destruct (date_ISO (js_str (ic_lastmod conf))) as [d|]; [|done].
    injection Hres as <-. split; [done|]. split; [done|]. split; [|done].
    intros _ _ _. by exists d.
  - injection Hres as <-. done.
Qed.

End index_more.

Section xmlNs_more.
Context `{Collaborators}.

Lemma is_quote_not_eq q : is_quote q = true → Ascii.eqb q "=" = false.
Proof. destruct q as [[] [] [] [] [] [] [] []]; done. Qed.

Lemma is_quote_not_space q : is_quote q = true → Ascii.eqb q " " = false.
Proof. destruct q as [[] [] [] [] [] [] [] []]; done. Qed.

Lemma xmlNs_attributes_decls q kvs r :
  is_quote q = true →
  (∀ kv, kv ∈ kvs → has_char "=" kv.1 = false ∧ has_char "=" kv.2 = false) →
  xmlNs_attributes (map (xmlNs_decl q) kvs) r
  = Ret (foldl (λ r kv, att r kv.1 kv.2) r kvs).
Proof.
  intros Hq. revert r. induction kvs as [|[k v] kvs IH]; intros r Hno; [done|].
  destruct (Hno (k, v)) as [Hk Hv]; [by left|]. cbn [fst snd] in Hk, Hv.
  cbn [map xmlNs_attributes foldl]. unfold xmlNs_decl at 1. cbn [fst snd].
  change (k +:+ "=" +:+ String q (v +:+ String q EmptyString))
    with (k +:+ String "=" (String q (v +:+ String q EmptyString))).
  rewrite split_on_sep by done.
  rewrite split_on_none; cycle 1.
  { cbn [has_char]. rewrite has_char_app, Hv, is_quote_not_eq by done.
    cbn [has_char]. by rewrite is_quote_not_eq. }
  rewrite strip_quotes_quoted by done. apply IH.
  intros kv Hkv. apply Hno. by right.
Qed.

(** X21.  Namespace declarations [k='v'] (or with double quotes) given
    to the constructor in one text, with one space between them, become
    the attributes of the root in their order, each value without its
    quotes. *)
Theorem new_Sitemap_xmlNs us h cacheTime xsl q kvs :
  is_quote q = true → kvs ≠ [] →
  (∀ kv, kv ∈ kvs →
     has_char "=" kv.1 = false ∧ has_char "=" kv.2 = false ∧
     has_char " " kv.1 = false ∧ has_char " " kv.2 = false) →
  ∃ sm,
    new_Sitemap us h cacheTime xsl (Some (join " " (map (xmlNs_decl q) kvs))) = Ret sm ∧
    root sm = foldl (λ r kv, att r kv.1 kv.2) (create "urlset") kvs.
Proof.
  intros Hq Hne Hno. unfold new_Sitemap.
  assert (Htruthy : opt_truthy (Some (join " " (map (xmlNs_decl q) kvs))) = true).
  { destruct kvs as [|[k v] kvs]; [done|]. cbn [map opt_truthy].
    assert (Hd : ∀ rest, str_truthy (xmlNs_decl q (k, v) +:+ rest) = true).
    { intros rest. unfold xmlNs_decl. cbn [fst snd]. by destruct k. }
    destruct (map (xmlNs_decl q) kvs) as [|d ds].
    - cbn [join]. rewrite <- (append_empty_r (xmlNs_decl q (k, v))). apply Hd.
    - change (join " " (xmlNs_decl q (k, v) :: d :: ds))
        with (xmlNs_decl q (k, v) +:+ " " +:+ join " " (d :: ds)). apply Hd. }
  rewrite Htruthy. cbn [js_str].
  rewrite (split_on_join " "%char); cycle 1.
  { by destruct kvs. }
  { intros x (kv & -> & Hkv)%list_elem_of_fmap.
    destruct (Hno kv Hkv) as (_ & _ & Hk & Hv).
    unfold xmlNs_decl. rewrite has_char_app, Hk, append_cons, append_empty_l.
    cbn [has_char orb].
    rewrite has_char_app, Hv. cbn [has_char orb].
    rewrite !(is_quote_not_space q Hq). reflexivity. }
  rewrite xmlNs_attributes_decls; [|done|].
  - eexists. split; reflexivity.
  - intros kv Hkv. destruct (Hno kv Hkv) as (? & ? & _). done.
Qed.

Lemma xmlNs_attributes_throws ns r attr :
  attr ∈ ns → has_char "=" attr = false →
  xmlNs_attributes ns r
  = Throw (TypeError "Cannot read properties of undefined (reading 'replace')").
Proof.
  revert r. induction ns as [|a ns IH]; intros r Hin Hno.
  - by apply elem_of_nil in Hin.
  - cbn [xmlNs_attributes]. apply elem_of_cons in Hin as [<-|Hin].
    + by rewrite split_on_none.
    + destruct (split_on "=" a) as [|k [|v ws]]; [done|done|]. by apply IH.
Qed.

(** X22.  The constructor throws a [TypeError] when a part of the
    namespace text, cut at the spaces, has no [=]: so does a text with
    two spaces in a row or with a space at its end. *)
Theorem new_Sitemap_xmlNs_throws us h cacheTime xsl ns attr :
  attr ∈ split_on " " ns → has_char "=" attr = false →
  ns ≠ EmptyString →
  new_Sitemap us h cacheTime xsl (Some ns)
  = Throw (TypeError "Cannot read properties of undefined (reading 'replace')").
Proof.
  intros Hin Hno Hne. unfold new_Sitemap.
  assert (Htruthy : opt_truthy (Some ns) = true) by (by destruct ns).
  rewrite Htruthy. cbn [js_str].
  by rewrite (xmlNs_attributes_throws _ _ attr).
Qed.

End xmlNs_more.

(** ** The test for an absolute url *)

Lemma ascii_lower_colon a : Ascii.eqb ":" (ascii_lower a) = Ascii.eqb ":" a.
Proof. destruct a as [[] [] [] [] [] [] [] []]; reflexivity. Qed.

Lemma ascii_lower_slash a : Ascii.eqb "/" (ascii_lower a) = Ascii.eqb "/" a.
Proof. destruct a as [[] [] [] [] [] [] [] []]; reflexivity. Qed.

Lemma prefix_starts_with p s : String.prefix p s = starts_with p s.
Proof.
  revert p. induction s as [|b s IH]; intros [|a p]; try reflexivity.
  cbn [String.prefix starts_with]. destruct (ascii_dec a b) as [->|Hne].
  - by rewrite Ascii.eqb_refl, IH.
  - apply Ascii.eqb_neq in Hne. by rewrite Hne.
Qed.

Lemma starts_with_sep_lower s :
  starts_with "://" (lower_string s) = starts_with "://" s.
Proof.
  destruct s as [|c1 [|c2 [|c3 s]]]; cbn [lower_string starts_with];
    by rewrite ?ascii_lower_colon, ?ascii_lower_slash.
Qed.

Lemma starts_with_cons a p b s :
  starts_with (String a p) (String b s) = Ascii.eqb a b && starts_with p s.
Proof. reflexivity. Qed.

Lemma starts_with_nil_r a p : starts_with (String a p) EmptyString = false.
Proof. reflexivity. Qed.

(** X23.  A url counts as absolute exactly when, its capitals made
    small, it starts with [http://] or with [https://]; every other url,
    one that starts with [//] or has another scheme among them, is
    joined to the hostname. *)
Theorem reProto_test_spec s :
  reProto_test s
  = starts_with "http://" (lower_string s) || starts_with "https://" (lower_string s).
Proof.
  unfold reProto_test.
  destruct s as [|c1 [|c2 [|c3 [|c4 rest]]]];
    cbn [imatch lower_string];
    change (ascii_lower "h") with "h"%char; change (ascii_lower "t") with "t"%char;
    change (ascii_lower "p") with "p"%char;
    rewrite ?starts_with_cons, ?starts_with_nil_r;
    try reflexivity;
    destruct (Ascii.eqb "h" (ascii_lower c1)); try reflexivity;
    try (destruct (Ascii.eqb "t" (ascii_lower c2)); try reflexivity);
    try (destruct (Ascii.eqb "t" (ascii_lower c3)); try reflexivity).
  destruct (Ascii.eqb "p" (ascii_lower c4)); [|reflexivity]. cbn [andb].
  destruct rest as [|c5 rest5]; [reflexivity|].
  cbn [imatch lower_string]. change (ascii_lower "s") with "s"%char.
  rewrite !prefix_starts_with.
  assert (R1 : starts_with "://" (String (ascii_lower c5) (lower_string rest5))
               = starts_with "://" (String c5 rest5))
    by apply (starts_with_sep_lower (String c5 rest5)).
  assert (R2 : starts_with "s://" (String (ascii_lower c5) (lower_string rest5))
               = Ascii.eqb "s" (ascii_lower c5) && starts_with "://" rest5)
    by (by rewrite starts_with_cons, starts_with_sep_lower).
  rewrite R1, R2.
  destruct (Ascii.eqb "s" (ascii_lower c5)); cbn [andb].
  - rewrite prefix_starts_with. apply orb_comm.
  - by rewrite orb_false_r.
Qed.

(** ** [toXML] with a callback *)

Section toXML_more.
Context `{Collaborators}.

(** X24.  With a callback [toXML] renders nothing at once.  In the next
    tick the callback gets the document, or the exception of the render,
    which does not reach the caller; a callback that throws when given
    the document is called a second time, with its own exception, and an
    exception leaves the tick only when the callback throws on being
    given an error. *)
Theorem toXML_callback callback sm t_valid t_set σ :
  toXML (Some callback) sm t_valid t_set σ = (Ret (None, sm, Some callback), σ) ∧
  let r := (toXML_tick callback sm t_valid t_set σ).1 in
  (∀ err σ', toString sm t_valid t_set σ = (Throw err, σ') →
     tick_calls r = [(Some err, None)] ∧ tick_thrown r = callback (Some err) None) ∧
  (∀ xml sm' σ', toString sm t_valid t_set σ = (Ret (xml, sm'), σ') →
     callback None (Some xml) = None →
     tick_calls r = [(None, Some xml)] ∧ tick_thrown r = None ∧ tick_self r = Some sm') ∧
  (∀ xml sm' σ' err, toString sm t_valid t_set σ = (Ret (xml, sm'), σ') →
     callback None (Some xml) = Some err →
     tick_calls r = [(None, Some xml); (Some err, None)] ∧
     tick_thrown r = callback (Some err) None) ∧
  ((∀ err, callback (Some err) None = None) → tick_thrown r = None).
Proof.
  split; [reflexivity|]. cbv zeta. unfold toXML_tick.
  destruct (toString sm t_valid t_set σ) as [[[xml sm']|err] σ'].
  - split; [done|]. split; [|split].
    + intros ? ? ? [= <- <- <-] Hcb. by rewrite Hcb.
    + intros ? ? ? err [= <- <- <-] Hcb. by rewrite Hcb.
    + intros Hquiet. destruct (callback None (Some xml)); [apply Hquiet|done].
  - split; [by intros ? ? [= <- <-]|]. split; [done|]. split; [done|].
    intros Hquiet. apply Hquiet.
Qed.

End toXML_more.

(** ** The cache of the chunk sitemaps, and [toGzip] *)

Section cache_users.
Context `{Collaborators}.

Lemma isCacheValid_no_period sm now :
  cacheResetPeriod sm = 0%Z → isCacheValid sm now = false.
Proof. intros Hzero. unfold isCacheValid. by rewrite Hzero. Qed.

(** X25.  The constructor of the index never uses its [cacheTime]
    argument: the state it leaves is the same for every value of it, and
    each chunk sitemap has the cache period 0 and the default namespaces,
    so that no render of a chunk ever leaves a valid cache. *)
Theorem SitemapIndex_cacheTime_unused fs allUrls targetFolder hostname
    sitemapName sitemapSize xslUrl gzip callback σ :
  fs targetFolder = Some true →
  ∃ st,
    (∀ cacheTime', SitemapIndex fs allUrls targetFolder hostname cacheTime' sitemapName
                     sitemapSize xslUrl gzip callback σ = Ret st) ∧
    ∀ k stream sitemap,
      listeners st !! k = Some stream → ws_open stream = OpenChunk sitemap →
      cacheResetPeriod sitemap = 0%Z ∧ xmlNs sitemap = None ∧
      ∀ t t' σ0 out sm' σ',
        toString sitemap t t' σ0 = (Ret (out, sm'), σ') →
        ∀ now, isCacheValid sm' now = false.
Proof.
  intros Hfs. eexists. split; [intros cacheTime'; by apply SitemapIndex_ok|].
  intros k stream sitemap Hk Hopen.
  assert (Hzero : cacheResetPeriod sitemap = 0%Z ∧ xmlNs sitemap = None).
  { cbn [SitemapIndex_state listeners] in Hk.
    apply lookup_app_Some in Hk as [Hk|[_ Hk]].
    - rewrite list_lookup_imap in Hk.
      destruct (chunk _ _ !! k) as [c|]; [|done]. injection Hk as <-.
      cbn [chunk_stream ws_open] in Hopen. by injection Hopen as <-.
    - apply list_lookup_singleton_Some in Hk as [_ <-]. done. }
  destruct Hzero as [Hzero Hns]. split; [done|]. split; [done|].
  intros t t' σ0 out sm' σ' Hrender now.
  apply toString_cache in Hrender as (_ & Hperiod & _).
  apply isCacheValid_no_period. by rewrite Hperiod.
Qed.

(** X26.  [toGzip] and [toString] share the cache, which holds the
    document as text: after a [toGzip] that had to build the document,
    and within the cache period, [toString] returns the text of which
    the first result is the compression and [toGzip] returns that
    compression again, both without a look at the entries or the
    store. *)
Theorem toGzip_shares_cache sm t1 t1' σ gz sm1 σ1 t2 t2' σ2 :
  isCacheValid sm t1 = false →
  toGzip sm t1 t1' σ = (Ret (gz, sm1), σ1) →
  cacheResetPeriod sm ≠ 0%Z → cache sm1 ≠ EmptyString →
  (t2 ≤ t1' + cacheResetPeriod sm)%Z →
  gz = gzipSync (cache sm1) ∧
  ∃ sm2 sm3,
    toString sm1 t2 t2' σ2 = (Ret (cache sm1, sm2), σ2) ∧
    toGzip sm1 t2 t2' σ2 = (Ret (gz, sm3), σ2).
Proof.
  intros Hmiss Hgzip Hperiod Hcache Hsoon. unfold toGzip, bind in Hgzip.
  destruct (toString sm t1 t1' σ) as [[[out sm']|e] σ'] eqn:Hrender; [|done].
  cbn [ret fst snd] in Hgzip. injection Hgzip as <- <- <-.
  apply toString_cache in Hrender as (Hout & Hsame & Hts).
  assert (Hvalid : isCacheValid sm' t2 = true).
  { unfold isCacheValid. rewrite Hsame, (Hts Hmiss).
    apply str_truthy_iff in Hcache. rewrite Hcache.
    destruct (Z.eqb_spec (cacheResetPeriod sm) 0); [done|].
    destruct (Z.leb_spec t2 (t1' + cacheResetPeriod sm)); [done|lia]. }
  split; [by rewrite Hout|].
  eexists. eexists. split; [by apply toString_hit|].
  unfold toGzip, bind. rewrite toString_hit by done. cbn [ret fst snd].
  by rewrite Hout.
Qed.

End cache_users.

(** ** The further properties at concrete inputs *)

Lemma elems_ok_strings σ ss : elems_ok σ (map ElemStr ss).
Proof.
  intros l Hl. apply list_elem_of_fmap in Hl as (s & Heq & _). discriminate Heq.
Qed.

Lemma del_no_match_witness :
  let sm := sitemap_of (map ElemStr ["a"; "b"]) None in
  elems_ok no_objects (urls sm) ∧
  (∀ e, e ∈ urls sm → matches_key "c" no_objects e = false) ∧
  del sm (ElemStr "c") no_objects = (Ret (0, sm), no_objects).
Proof.
  intros sm.
  assert (Hok : elems_ok no_objects (urls sm)) by apply elems_ok_strings.
  assert (Hno : ∀ e, e ∈ urls sm → matches_key "c" no_objects e = false).
  { apply Forall_forall. repeat constructor. }
  split; [exact Hok|]. split; [exact Hno|].
  exact (del_no_match sm "c" no_objects Hok Hno).
Defined.

Lemma del_single_match_witness :
  let sm := sitemap_of (map ElemStr ["a"; "b"; "c"]) None in
  urls sm = [ElemStr "a"] ++ ElemStr "b" :: [ElemStr "c"] ∧
  elems_ok no_objects (urls sm) ∧
  matches_key "b" no_objects (ElemStr "b") = true ∧
  (∀ e, e ∈ [ElemStr "a"] ++ [ElemStr "c"] → matches_key "b" no_objects e = false) ∧
  del sm (ElemStr "b") no_objects
  = (Ret (1, set_urls sm ([ElemStr "a"] ++ [ElemStr "c"])), no_objects).
Proof.
  intros sm.
  assert (Hok : elems_ok no_objects (urls sm)) by apply elems_ok_strings.
  assert (Hno : ∀ e, e ∈ [ElemStr "a"] ++ [ElemStr "c"] →
                     matches_key "b" no_objects e = false).
  { apply Forall_forall. repeat constructor. }
  split; [reflexivity|]. split; [exact Hok|]. split; [reflexivity|]. split; [exact Hno|].
  exact (del_single_match sm "b" no_objects [ElemStr "a"] (ElemStr "b") [ElemStr "c"]
           eq_refl Hok eq_refl Hno).
Defined.

Lemma add_del_round_trip_witness :
  let sm := sitemap_of (map ElemStr ["a"]) None in
  elems_ok no_objects (urls sm) ∧
  (∀ e, e ∈ urls sm → matches_key "b" no_objects e = false) ∧
  (add sm (ElemStr "b")).1 = 2 ∧
  del (add sm (ElemStr "b")).2 (ElemStr "b") no_objects = (Ret (1, sm), no_objects).
Proof.
  intros sm.
  assert (Hok : elems_ok no_objects (urls sm)) by apply elems_ok_strings.
  assert (Hno : ∀ e, e ∈ urls sm → matches_key "b" no_objects e = false).
  { apply Forall_forall. repeat constructor. }
  split; [exact Hok|]. split; [exact Hno|].
  exact (add_del_round_trip sm "b" no_objects Hok Hno).
Defined.

Lemma del_keeps_second_match_witness :
  let sm := sitemap_of (map ElemStr ["a"; "a"; "b"]) None in
  urls sm = [] ++ ElemStr "a" :: [] ++ ElemStr "a" :: [ElemStr "b"] ∧
  elems_ok no_objects (urls sm) ∧
  matches_key "a" no_objects (ElemStr "a") = true ∧
  (∀ e, e ∈ @nil elem ++ [] → matches_key "a" no_objects e = false) ∧
  ∃ sm', del sm (ElemStr "a") no_objects = (Ret (2, sm'), no_objects) ∧
         urls sm' = [ElemStr "a"].
Proof.
  intros sm.
  assert (Hok : elems_ok no_objects (urls sm)) by apply elems_ok_strings.
  assert (Hno : ∀ e, e ∈ @nil elem ++ [] → matches_key "a" no_objects e = false).
  { apply Forall_forall. constructor. }
  split; [reflexivity|]. split; [exact Hok|]. split; [reflexivity|]. split; [exact Hno|].
  destruct (del_keeps_second_match sm "a" no_objects [] (ElemStr "a") [] (ElemStr "a")
              [ElemStr "b"] eq_refl Hok eq_refl eq_refl Hno)
    as (n & sm' & rest & Hdel & Hn & Hurls & Hrest).
  exists sm'. split.
  - rewrite Hdel, Hn. reflexivity.
  - rewrite Hurls, Hrest; [reflexivity|]. apply Forall_forall. repeat constructor.
Defined.

Lemma new_Sitemap_first_render_witness :
  ∃ sm, new_Sitemap (UrlsArray three_urls) None (Some 100%Z) None None = Ret sm ∧
        isCacheValid sm 5 = false ∧
        ∃ out sm', toString sm 5 6 no_objects = (Ret (out, sm'), no_objects) ∧
                   cache sm' = out ∧ cacheSetTimestamp sm' = Some 6%Z.
Proof.
  eexists. split; [reflexivity|].
  destruct (new_Sitemap_first_render (UrlsArray three_urls) None (Some 100%Z) None None _
              eq_refl) as [Hnever Hrender].
  split; [exact (Hnever 5%Z)|].
  eexists. eexists. split; [reflexivity|].
  destruct (Hrender 5%Z 6%Z no_objects _ _ _ eq_refl) as (r' & _ & _ & Hcache & Hts).
  split; [exact Hcache|exact Hts].
Defined.

Lemma cache_disabled_witness :
  ∃ sm out sm',
    new_Sitemap (UrlsArray three_urls) None (Some 0%Z) None None = Ret sm ∧
    (Some 0%Z = None ∨ Some 0%Z = Some 0%Z) ∧
    toString sm 5 6 no_objects = (Ret (out, sm'), no_objects) ∧
    isCacheValid sm' 6 = false.
Proof.
  eexists. eexists. eexists.
  split; [reflexivity|]. split; [right; reflexivity|]. split; [reflexivity|].
  exact (cache_disabled (UrlsArray three_urls) None (Some 0%Z) None None _ 5%Z 6%Z
           no_objects _ _ no_objects eq_refl (or_intror eq_refl) eq_refl 6%Z).
Defined.

Lemma cache_expires_witness :
  let sm := uncached_sitemap in
  ∃ out1 sm1 out2 sm2,
    isCacheValid sm 5 = false ∧
    toString sm 5 6 no_objects = (Ret (out1, sm1), no_objects) ∧
    (6 + cacheResetPeriod sm < 200)%Z ∧
    toString sm1 200 201 no_objects = (Ret (out2, sm2), no_objects) ∧
    isCacheValid sm1 200 = false ∧ cacheSetTimestamp sm2 = Some 201%Z.
Proof.
  intros sm. eexists. eexists. eexists. eexists.
  split; [reflexivity|]. split; [reflexivity|]. split; [simpl; lia|].
  split; [reflexivity|].
  refine (cache_expires sm 5%Z 6%Z no_objects _ _ no_objects 200%Z 201%Z no_objects
            _ _ no_objects eq_refl eq_refl _ eq_refl).
  simpl. lia.
Defined.

Lemma clearCache_recomputes_witness :
  isCacheValid (clearCache cached_sitemap) 50 = false ∧
  ∃ out sm', toString (clearCache cached_sitemap) 50 51 no_objects
             = (Ret (out, sm'), no_objects) ∧
             cache sm' = out ∧ cacheSetTimestamp sm' = Some 51%Z.
Proof.
  destruct (clearCache_recomputes cached_sitemap) as [Hnever Hrender].
  split; [exact (Hnever 50%Z)|].
  eexists. eexists. split; [reflexivity|].
  destruct (Hrender 50%Z 51%Z no_objects _ _ _ eq_refl) as (r' & _ & _ & Hcache & Hts).
  split; [exact Hcache|exact Hts].
Defined.

Lemma add_del_keep_cache_witness :
  isCacheValid cached_sitemap 50 = true ∧
  ∃ sm', toString (add cached_sitemap (ElemStr "/new")).2 50 51 no_objects
         = (Ret ("<urlset/>", sm'), no_objects) ∧
         urls sm' = [ElemStr "/new"].
Proof.
  split; [reflexivity|].
  destruct (add_del_keep_cache cached_sitemap 50%Z 51%Z no_objects eq_refl) as [Hadd _].
  exact (Hadd (ElemStr "/new")).
Defined.

Lemma toString_frame_witness :
  let sm := sitemap_of [ElemObj 1%positive] (Some "https://example.com") in
  let σ := img_and_link_store in
  items (toString sm 5 6 σ).2 = items σ ∧
  ∃ out sm' σ', toString sm 5 6 σ = (Ret (out, sm'), σ') ∧ urls sm' = urls sm.
Proof.
  intros sm σ. destruct (toString_frame sm 5 6 σ) as [[Hitems _] Hsm].
  split; [exact Hitems|].
  destruct (toString sm 5 6 σ) as [[[out sm']|e] σ'] eqn:Hrun.
  - exists out, sm', σ'. split; [reflexivity|].
    by destruct (Hsm out sm' σ' eq_refl) as [Hurls _].
  - vm_compute in Hrun. discriminate Hrun.
Defined.

Lemma toString_no_hostname_witness :
  let sm := sitemap_of [ElemObj 1%positive] None in
  opt_truthy (hostname sm) = false ∧
  (toString sm 5 6 img_and_link_store).2 = img_and_link_store.
Proof.
  intros sm. split; [reflexivity|].
  exact (toString_no_hostname sm 5 6 img_and_link_store eq_refl).
Defined.

Lemma make_smi_links_witness :
  let σ := img_and_link_store in
  let it := {| url := "/p"; img := Some (ImgArr [2%positive]);
               links := Some [3%positive]; meta := [] |} in
  opt_truthy (Some "https://example.com") = true ∧
  entry_item σ (ElemObj 1%positive) = Some it ∧
  item_ok σ it = true ∧
  NoDup (img_locs it ++ links_locs it) ∧
  ∃ smi σ', make_smi (Some "https://example.com") (ElemObj 1%positive) σ = (Ret smi, σ') ∧
            links smi = Some [3%positive] ∧
            subs σ' !! 3%positive
            = Some {| sub_url := "https://example.com/fr/p";
                      sub_attrs := [("lang", "fr")] |}.
Proof.
  intros σ it.
  assert (Hnd : NoDup (img_locs it ++ links_locs it)).
  { apply NoDup_cons. split; [|apply NoDup_singleton].
    intros Hin%list_elem_of_singleton. discriminate Hin. }
  split; [reflexivity|]. split; [reflexivity|]. split; [reflexivity|]. split; [exact Hnd|].
  destruct (make_smi_links (Some "https://example.com") (ElemObj 1%positive) σ it
              eq_refl eq_refl eq_refl Hnd) as (smi & σ' & Hrun & Hlinks & Hsubs).
  exists smi, σ'. split; [exact Hrun|]. split; [exact Hlinks|].
  destruct (Hsubs 3%positive) as (o & Ho & Ho'); [by left|].
  vm_compute in Ho. injection Ho as <-. exact (eq_trans Ho' eq_refl).
Defined.

Lemma make_smi_twice_witness :
  let σ := img_and_link_store in
  let it := {| url := "/p"; img := Some (ImgArr [2%positive]);
               links := Some [3%positive]; meta := [] |} in
  let e := ElemObj 1%positive in
  opt_truthy (Some "example.com") = true ∧
  entry_item σ e = Some it ∧
  item_ok σ it = true ∧
  NoDup (img_locs it ++ links_locs it) ∧
  subs (make_smi (Some "example.com") e (make_smi (Some "example.com") e σ).2).2
    !! 2%positive
  = Some {| sub_url := "example.com/example.com/a.png"; sub_attrs := [] |}.
Proof.
  intros σ it e.
  assert (Hnd : NoDup (img_locs it ++ links_locs it)).
  { apply NoDup_cons. split; [|apply NoDup_singleton].
    intros Hin%list_elem_of_singleton. discriminate Hin. }
  split; [reflexivity|]. split; [reflexivity|]. split; [reflexivity|]. split; [exact Hnd|].
  destruct (make_smi_twice (Some "example.com") e σ it eq_refl eq_refl eq_refl Hnd
              2%positive) as (o & Ho & _ & Ho2 & _); [by left|].
  vm_compute in Ho. injection Ho as <-. exact (eq_trans Ho2 eq_refl).
Defined.

Lemma make_smi_twice_same_witness :
  let σ := img_and_link_store in
  let it := {| url := "/p"; img := Some (ImgArr [2%positive]);
               links := Some [3%positive]; meta := [] |} in
  let e := ElemObj 1%positive in
  let h := Some "https://example.com" in
  opt_truthy h = true ∧
  entry_item σ e = Some it ∧
  item_ok σ it = true ∧
  NoDup (img_locs it ++ links_locs it) ∧
  (∀ u, reProto_test (urljoin (js_str h) u) = true) ∧
  subs (make_smi h e (make_smi h e σ).2).2 !! 2%positive
  = subs (make_smi h e σ).2 !! 2%positive.
Proof.
  intros σ it e h.
  assert (Hnd : NoDup (img_locs it ++ links_locs it)).
  { apply NoDup_cons. split; [|apply NoDup_singleton].
    intros Hin%list_elem_of_singleton. discriminate Hin. }
  assert (Habs : ∀ u, reProto_test (urljoin (js_str h) u) = true).
  { intros u. reflexivity. }
  split; [reflexivity|]. split; [reflexivity|]. split; [reflexivity|]. split; [exact Hnd|].
  split; [exact Habs|].
  apply (make_smi_twice_same h e σ it eq_refl eq_refl eq_refl Hnd Habs). by left.
Defined.

Lemma toString_img_has_length_witness :
  let sm := sitemap_of [ElemObj 1%positive] (Some "https://example.com") in
  let σ := img_length_store in
  opt_truthy (hostname sm) = true ∧
  isCacheValid sm 5 = false ∧
  ElemObj 1%positive ∈ urls sm ∧
  img_has_length σ (ElemObj 1%positive) ∧
  toString sm 5 6 σ = (Throw (TypeError "smi.img.forEach is not a function"), σ).
Proof.
  intros sm σ.
  assert (Hin : ElemObj 1%positive ∈ urls sm) by (by left).
  assert (Hbad : img_has_length σ (ElemObj 1%positive)).
  { eexists. exists 2%positive. eexists.
    split; [reflexivity|]. split; [reflexivity|]. split; reflexivity. }
  split; [reflexivity|]. split; [reflexivity|]. split; [exact Hin|]. split; [exact Hbad|].
  destruct (toString_img_has_length sm 5 6 σ (ElemObj 1%positive) eq_refl eq_refl Hin Hbad)
    as (err & σ' & Hrun & Hfirst).
  destruct (Hfirst [] eq_refl) as [-> ->]. exact Hrun.
Defined.

Lemma buildSitemapIndex_loc_lines_witness :
  (∀ url, url ∈ ic_urls dated_conf → one_line url = true) ∧
  one_line (js_str (ic_xslUrl dated_conf)) = true ∧
  one_line (js_str (ic_xmlNs dated_conf)) = true ∧
  (∀ d, resolve_lastmod dated_conf = Ret (Some d) → one_line d = true) ∧
  ∃ xml, buildSitemapIndex dated_conf = Ret xml ∧
         loc_lines (split_on (ascii_of_nat 10) xml)
         = ["<loc>https://example.com/sitemap-0.xml</loc>"].
Proof.
  assert (Hurls : ∀ url, url ∈ ic_urls dated_conf → one_line url = true).
  { apply Forall_forall. repeat constructor. }
  assert (Hd : ∀ d, resolve_lastmod dated_conf = Ret (Some d) → one_line d = true).
  { intros d Hres. vm_compute in Hres. injection Hres as <-. reflexivity. }
  split; [exact Hurls|]. split; [reflexivity|]. split; [reflexivity|]. split; [exact Hd|].
  eexists. split; [reflexivity|].
  destruct (buildSitemapIndex_loc_lines dated_conf) as [_ Hret].
  destruct (Hret _ eq_refl) as [_ Hsplit].
  exact (Hsplit Hurls eq_refl eq_refl Hd).
Defined.

Lemma buildSitemapIndex_lastmod_lines_witness :
  opt_truthy (ic_lastmodISO garbage_conf) = false ∧
  ic_lastmodrealtime garbage_conf = false ∧
  opt_truthy (ic_lastmod garbage_conf) = true ∧
  date_ISO (js_str (ic_lastmod garbage_conf)) = None ∧
  buildSitemapIndex garbage_conf = Throw (RangeError "Invalid time value") ∧
  ∃ xml lines, buildSitemapIndex dated_conf = Ret xml ∧
               xml = join newline lines ∧
               lastmod_lines lines = ["<lastmod>2020-01-01T00:00:00.000Z</lastmod>"].
Proof.
  split; [reflexivity|]. split; [reflexivity|]. split; [reflexivity|]. split; [reflexivity|].
  split.
  - destruct (buildSitemapIndex_lastmod_lines garbage_conf) as [[_ Hthrow] _].
    apply Hthrow. repeat split; reflexivity.
  - destruct (buildSitemapIndex_lastmod_lines dated_conf) as (_ & _ & Hret).
    destruct (Hret _ eq_refl) as (lastmod & lines & Hxml & Hlines & Hiso & _).
    eexists. exists lines. split; [reflexivity|]. split; [exact Hxml|].
    rewrite Hlines, (Hiso eq_refl). reflexivity.
Defined.

Lemma SitemapIndex_paths_distinct_witness :
  tmp_fs "/tmp" = Some true ∧
  ∃ st, SitemapIndex tmp_fs (UrlsArray three_urls) "/tmp" (Some "https://example.com")
          None None 2 None false true no_objects = Ret st ∧
        NoDup (map ws_path (listeners st)).
Proof.
  split; [reflexivity|].
  destruct (SitemapIndex_paths_distinct tmp_fs (UrlsArray three_urls) "/tmp"
              (Some "https://example.com") None None 2 None false true no_objects)
    as (st & Hst & _ & Hpaths); [reflexivity|].
  exists st. split; [exact Hst|exact Hpaths].
Defined.

Lemma SitemapIndex_manifest_witness :
  tmp_fs "/tmp" = Some true ∧
  ∃ st lines path,
    SitemapIndex tmp_fs (UrlsArray three_urls) "/tmp" (Some "https://example.com")
      None None 2 None false true no_objects = Ret st ∧
    last (listeners st)
      = Some {| ws_path := path; ws_open := OpenIndex (join newline lines) |} ∧
    loc_lines lines = ["<loc>https://example.com/sitemap-0.xml</loc>";
                       "<loc>https://example.com/sitemap-1.xml</loc>"] ∧
    lastmod_lines lines = [].
Proof.
  split; [reflexivity|].
  destruct (SitemapIndex_manifest tmp_fs (UrlsArray three_urls) "/tmp"
              (Some "https://example.com") None None 2 None false true no_objects)
    as (st & lines & path & Hst & Hlast & Hloc & Hmod); [reflexivity|].
  exists st, lines, path. split; [exact Hst|]. split; [exact Hlast|].
  split; [|exact Hmod].
  rewrite SitemapIndex_ok in Hst by reflexivity. injection Hst as <-.
  exact (eq_trans Hloc eq_refl).
Defined.

Lemma SitemapIndex_failure_silent_witness :
  tmp_fs "/tmp" = Some true ∧
  ∃ init, SitemapIndex tmp_fs (UrlsArray three_urls) "/tmp" (Some "https://example.com")
            None None 2 None false true no_objects = Ret init ∧
          ∀ st, steps false init st → failed st ≠ [] → calls st = [].
Proof.
  split; [reflexivity|].
  destruct (SitemapIndex_failure_silent tmp_fs (UrlsArray three_urls) "/tmp"
              (Some "https://example.com") None None 2 None false true no_objects)
    as (init & Hinit & Hsilent); [reflexivity|].
  exists init. split; [exact Hinit|].
  intros st Hst Hfailed.
  by destruct (Hsilent st Hst Hfailed st (steps_refl _ _)) as [Hcalls _].
Defined.

Lemma new_Sitemap_xmlNs_witness :
  let kvs := [("xmlns", "http://a.example/ns"); ("xmlns:x", "http://b.example/ns")] in
  is_quote "'" = true ∧ kvs ≠ [] ∧
  (∀ kv, kv ∈ kvs →
     has_char "=" kv.1 = false ∧ has_char "=" kv.2 = false ∧
     has_char " " kv.1 = false ∧ has_char " " kv.2 = false) ∧
  ∃ sm, new_Sitemap UrlsUndefined None None None
          (Some "xmlns='http://a.example/ns' xmlns:x='http://b.example/ns'") = Ret sm ∧
        root sm = att (att (create "urlset") "xmlns" "http://a.example/ns")
                    "xmlns:x" "http://b.example/ns".
Proof.
  intros kvs.
  assert (Hne : kvs ≠ []) by discriminate.
  assert (Hno : ∀ kv, kv ∈ kvs →
            has_char "=" kv.1 = false ∧ has_char "=" kv.2 = false ∧
            has_char " " kv.1 = false ∧ has_char " " kv.2 = false).
  { apply Forall_forall. repeat constructor. }
  split; [reflexivity|]. split; [exact Hne|]. split; [exact Hno|].
  exact (new_Sitemap_xmlNs UrlsUndefined None None None "'"%char kvs eq_refl Hne Hno).
Defined.

Lemma new_Sitemap_xmlNs_throws_witness :
  let ns := "xmlns='http://a.example/ns' " in
  EmptyString ∈ split_on " " ns ∧ has_char "=" EmptyString = false ∧ ns ≠ EmptyString ∧
  new_Sitemap UrlsUndefined None None None (Some ns)
  = Throw (TypeError "Cannot read properties of undefined (reading 'replace')").
Proof.
  intros ns.
  assert (Hin : EmptyString ∈ split_on " " ns) by (vm_compute; right; left).
  assert (Hne : ns ≠ EmptyString) by discriminate.
  split; [exact Hin|]. split; [reflexivity|]. split; [exact Hne|].
  exact (new_Sitemap_xmlNs_throws UrlsUndefined None None None ns EmptyString
           Hin eq_refl Hne).
Defined.

Lemma toXML_callback_witness :
  let sm := sitemap_of three_urls None in
  let r := (toXML_tick throwing_callback sm 5 6 no_objects).1 in
  toXML (Some throwing_callback) sm 5 6 no_objects
  = (Ret (None, sm, Some throwing_callback), no_objects) ∧
  (∀ err, throwing_callback (Some err) None = None) ∧
  length (tick_calls r) = 2 ∧ tick_thrown r = None.
Proof.
  intros sm r.
  destruct (toXML_callback throwing_callback sm 5 6 no_objects)
    as (Hnow & _ & _ & Htwice & Hquiet).
  assert (Hcb : ∀ err, throwing_callback (Some err) None = None) by reflexivity.
  split; [exact Hnow|]. split; [exact Hcb|]. split.
  - destruct (toString sm 5 6 no_objects) as [[[xml sm']|e] σ'] eqn:Hrun.
    + destruct (Htwice xml sm' σ' (TypeError "callback failed") eq_refl eq_refl)
        as [Hcalls _].
      subst r. by rewrite Hcalls.
    + vm_compute in Hrun. discriminate Hrun.
  - exact (Hquiet Hcb).
Defined.

Lemma SitemapIndex_cacheTime_unused_witness :
  tmp_fs "/tmp" = Some true ∧
  ∃ st, SitemapIndex tmp_fs (UrlsArray three_urls) "/tmp" (Some "https://example.com")
          (Some 600000%Z) None 2 None false true no_objects = Ret st ∧
        SitemapIndex tmp_fs (UrlsArray three_urls) "/tmp" (Some "https://example.com")
          None None 2 None false true no_objects = Ret st ∧
        ∃ stream sitemap, listeners st !! 0 = Some stream ∧
                          ws_open stream = OpenChunk sitemap ∧
                          cacheResetPeriod sitemap = 0%Z.
Proof.
  split; [reflexivity|].
  destruct (SitemapIndex_cacheTime_unused tmp_fs (UrlsArray three_urls) "/tmp"
              (Some "https://example.com") None 2 None false true no_objects)
    as (st & Hany & Hchunks); [reflexivity|].
  exists st. split; [exact (Hany (Some 600000%Z))|]. split; [exact (Hany None)|].
  pose proof (Hany None) as Hst.
  rewrite SitemapIndex_ok in Hst by reflexivity. injection Hst as <-.
  eexists. eexists. split; [reflexivity|]. split; [reflexivity|].
  by destruct (Hchunks 0 _ _ eq_refl eq_refl) as [Hzero _].
Defined.

Lemma toGzip_shares_cache_witness :
  let sm := uncached_sitemap in
  ∃ gz sm1 sm2,
    isCacheValid sm 5 = false ∧
    toGzip sm 5 6 no_objects = (Ret (gz, sm1), no_objects) ∧
    cacheResetPeriod sm ≠ 0%Z ∧ cache sm1 ≠ EmptyString ∧
    (50 ≤ 6 + cacheResetPeriod sm)%Z ∧
    toString sm1 50 51 no_objects = (Ret (cache sm1, sm2), no_objects).
Proof.
  intros sm.
  assert (Hperiod : cacheResetPeriod sm ≠ 0%Z) by discriminate.
  assert (Hsoon : (50 ≤ 6 + cacheResetPeriod sm)%Z) by (simpl; lia).
  assert (Hgz : ∃ gz sm1, toGzip sm 5 6 no_objects = (Ret (gz, sm1), no_objects) ∧
                          cache sm1 ≠ EmptyString).
  { eexists. eexists. split; [reflexivity|]. vm_compute. discriminate. }
  destruct Hgz as (gz & sm1 & Hrun & Hcache).
  destruct (toGzip_shares_cache sm 5 6 no_objects gz sm1 no_objects 50 51 no_objects
              eq_refl Hrun Hperiod Hcache Hsoon) as (_ & sm2 & sm3 & Hstr & _).
  exists gz, sm1, sm2. split; [reflexivity|]. split; [exact Hrun|].
  split; [exact Hperiod|]. split; [exact Hcache|]. split; [exact Hsoon|exact Hstr].
Defined.
